(** * CRYPTO1 stream cipher of the Chameleon Ultra firmware

    A shallow embedding of the two CRYPTO1 implementations of the
    firmware and of the tag PRNG:

    - [Crapto1]: the packed implementation ([crypto1.c] with
      [mf1_crapto1.h]), whose state is two [uint32_t] halves;
    - [Crypto1]: the byte-split implementation ([mf1_crypto1.c]),
      whose state is two arrays of three bytes.

    Machine integers are modelled as [Z] with the wrap-around of every
    assignment written out ([u8], [u16], [u32], [u64]); the state that
    the C code mutates through a pointer or keeps in a global is passed
    explicitly and returned. *)

From Stdlib Require Import ZArith List Bool Lia.
Import ListNotations.
Local Open Scope Z_scope.

(** C-like infix operators.  Every use below is fully parenthesised, so
    that the relative precedence of the notations never matters. *)
Infix ".>>" := Z.shiftr (at level 40, left associativity) : Z_scope.
Infix ".<<" := Z.shiftl (at level 40, left associativity) : Z_scope.
Infix ".&" := Z.land (at level 40, left associativity) : Z_scope.
Infix ".^" := Z.lxor (at level 50, left associativity) : Z_scope.
Infix ".|" := Z.lor (at level 50, left associativity) : Z_scope.

(** ** Bit utilities ([mf1_crapto1.h], [parity.h]) *)
Module Bits.

(** Truncation to the unsigned C types. *)
Definition u8 (v : Z) : Z := v mod 2 ^ 8.
Definition u16 (v : Z) : Z := v mod 2 ^ 16.
Definition u32 (v : Z) : Z := v mod 2 ^ 32.
Definition u64 (v : Z) : Z := v mod 2 ^ 64.

(** [#define BIT(x, n) (((x) >> (n)) & 1)] *)
Definition BIT (x n : Z) : Z := (x .>> n) .& 1.

(** [#define BEBIT(x, n) BIT(x, (n) ^ 24)] *)
Definition BEBIT (x n : Z) : Z := BIT x (n .^ 24).

(** The C idiom [!!v]: 0 for zero, 1 for anything else. *)
Definition truth (v : Z) : Z := if v =? 0 then 0 else 1.

(** A C condition: true for anything but zero. *)
Definition nonzero (c : Z) : bool := negb (c =? 0).

(** Arrays are lists; [idx a i] reads [a[i]] and [upd a i v] writes it.
    The code never indexes outside its buffers. *)
Definition idx (a : list Z) (i : Z) : Z := nth (Z.to_nat i) a 0.

Fixpoint upd_nat (a : list Z) (i : nat) (v : Z) : list Z :=
  match a, i with
  | [], _ => []
  | _ :: r, O => v :: r
  | x :: r, S i => x :: upd_nat r i v
  end.

Definition upd (a : list Z) (i : Z) (v : Z) : list Z := upd_nat a (Z.to_nat i) v.

(** The index lists of the counted loops. *)
Definition upto (n : nat) : list Z := map Z.of_nat (seq 0 n).

(** GCC's [__builtin_parity]: the number of 1-bits of a 32-bit word,
    modulo 2. *)
Definition builtin_parity (x : Z) : Z :=
  Z.b2z (fold_right xorb false (map (Z.testbit x) (upto 32))).

(** [evenparity32], in its [__GNUC__] branch:
    [return (__builtin_parity(x) & 0xFF);] *)
Definition evenparity32 (x : Z) : Z := builtin_parity x .& 0xFF.

(** Modelled from the spec: the table [OddByteParity[256]] is only
    declared ([extern]) in [parity.h]; its documentation there reads
    "Returns 1 if the number of 1-bits in the index is even, 0 if the
    number of 1-bits in the index is odd". *)
Definition OddByteParity (x : Z) : Z :=
  Z.b2z (negb (fold_right xorb false (map (Z.testbit x) (upto 8)))).

(** [static inline uint8_t oddparity8(const uint8_t x)] *)
Definition oddparity8 (x : Z) : Z := OddByteParity x.

(** Modelled from the spec: the CMSIS intrinsic [__REV] (and GCC's
    [__builtin_bswap32]) is not part of the sources; the
    specification calls it a byte-swap of the 32-bit word. *)
Definition __REV (x : Z) : Z :=
  ((((x .& 0xFF) .<< 24) .| (((x .>> 8) .& 0xFF) .<< 16))
     .| (((x .>> 16) .& 0xFF) .<< 8)) .| ((x .>> 24) .& 0xFF).

End Bits.
Import Bits.

(** ** Number conversion ([hex_utils.c]) *)
Module HexUtils.

(** [bytes_to_num(src, len)]: the fast paths of the [switch], then the
    generic loop. *)
Definition bytes_to_num (src : list Z) (len : Z) : Z :=
  if len =? 4 then
    ((u32 (idx src 0 .<< 24) .| u32 (idx src 1 .<< 16)) .| u32 (idx src 2 .<< 8))
      .| idx src 3
  else if len =? 2 then (idx src 0 .<< 8) .| idx src 1
  else if len =? 1 then idx src 0
  else if len =? 0 then 0
  else fold_left (fun num i => u64 ((num .<< 8) .| idx src i)) (upto (Z.to_nat len)) 0.

(** [num_to_bytes(n, len, dest)]: [while (len--) { dest[len] = (uint8_t)n;
    n >>= 8; }], by recursion on the count still to write. *)
Fixpoint num_to_bytes_loop (len : nat) (n : Z) (dest : list Z) : list Z :=
  match len with
  | O => dest
  | S len => num_to_bytes_loop len (n .>> 8) (upd dest (Z.of_nat len) (u8 n))
  end.

Definition num_to_bytes (n len : Z) (dest : list Z) : list Z :=
  num_to_bytes_loop (Z.to_nat len) n dest.

End HexUtils.

(** ** The packed implementation ([crypto1.c], [mf1_crapto1.h]) *)
Module Crapto1.

Definition LF_POLY_ODD : Z := 0x29CE5C.
Definition LF_POLY_EVEN : Z := 0x870804.

(** [struct Crypto1State { uint32_t odd; uint32_t even; };] *)
Record Crypto1State : Type := mkState { odd : Z; even : Z }.

(** [filter], the bit-math form. *)
Definition filter (x : Z) : Z :=
  let f := (0xf22c0 .>> (x .& 0xf)) .& 16 in
  let f := f .| ((0x6c9c0 .>> ((x .>> 4) .& 0xf)) .& 8) in
  let f := f .| ((0x3c8b0 .>> ((x .>> 8) .& 0xf)) .& 4) in
  let f := f .| ((0x1e458 .>> ((x .>> 12) .& 0xf)) .& 2) in
  let f := f .| ((0x0d938 .>> ((x .>> 16) .& 0xf)) .& 1) in
  BIT 0xEC57E80A f.

(** [crypto1_init]: [for (int i = 47; i > 0; i -= 2)]. *)
Definition crypto1_init (key : Z) : Crypto1State :=
  fold_left
    (fun s i =>
       {| odd := u32 ((odd s .<< 1) .| BIT key ((i - 1) .^ 7));
          even := u32 ((even s .<< 1) .| BIT key (i .^ 7)) |})
    (map (fun k => 47 - 2 * k) (upto 24))
    {| odd := 0; even := 0 |}.

(** [crypto1_get_lfsr]: [for (int i = 23; i >= 0; --i)]. *)
Definition crypto1_get_lfsr (state : Crypto1State) : Z :=
  fold_left
    (fun lfsr i =>
       let lfsr := u64 ((lfsr .<< 1) .| BIT (odd state) (i .^ 3)) in
       u64 ((lfsr .<< 1) .| BIT (even state) (i .^ 3)))
    (map (fun k => 23 - k) (upto 24))
    0.

(** [crypto1_bit]: returns the output bit and the new state. *)
Definition crypto1_bit (s : Crypto1State) (in_ : Z) (is_encrypted : Z)
  : Z * Crypto1State :=
  let ret := u8 (filter (odd s)) in
  let feedin := ret .& truth is_encrypted in
  let feedin := feedin .^ truth in_ in
  let feedin := feedin .^ (LF_POLY_ODD .& odd s) in
  let feedin := feedin .^ (LF_POLY_EVEN .& even s) in
  let t := odd s in
  (ret, {| odd := even s;
           even := u32 ((t .<< 1) .| evenparity32 feedin) |}).

(** [crypto1_byte]: [ret |= crypto1_bit(s, BIT(in, i), is_encrypted) << i]
    for [i] from 0 to 7. *)
Definition crypto1_byte (s : Crypto1State) (in_ : Z) (is_encrypted : Z)
  : Z * Crypto1State :=
  fold_left
    (fun '(ret, s) i =>
       let r := crypto1_bit s (BIT in_ i) is_encrypted in
       (u8 (ret .| (fst r .<< i)), snd r))
    (upto 8)
    (0, s).

(** [crypto1_word]:
    [ret |= (uint32_t)crypto1_bit(s, BEBIT(in, i), is_encrypted)
            << ((24 ^ i) & 0x1F)] for [i] from 0 to 31. *)
Definition crypto1_word (s : Crypto1State) (in_ : Z) (is_encrypted : Z)
  : Z * Crypto1State :=
  fold_left
    (fun '(ret, s) i =>
       let r := crypto1_bit s (BEBIT in_ i) is_encrypted in
       (ret .| u32 (fst r .<< ((24 .^ i) .& 0x1F)), snd r))
    (upto 32)
    (0, s).

(** One iteration of the PRNG loops:
    [x = x >> 1 | (x >> 16 ^ x >> 18 ^ x >> 19 ^ x >> 21) << 31]. *)
Definition prng_step (x : Z) : Z :=
  (x .>> 1)
    .| u32 (((((x .>> 16) .^ (x .>> 18)) .^ (x .>> 19)) .^ (x .>> 21)) .<< 31).

(** [prng_successor], with its two fast paths and the general
    [while (n--)] loop. *)
Definition prng_successor (x n : Z) : Z :=
  let x := __REV x in
  let x :=
    if n =? 1 then prng_step x
    else if n =? 16 then fold_left (fun x _ => prng_step x) (upto 16) x
    else Nat.iter (Z.to_nat n) prng_step x in
  __REV x.

(** The reference definition of the specification: byte-swap, [n]
    single steps with the feedback masked to one bit, byte-swap. *)
Definition prng_step_ref (x : Z) : Z :=
  (x .>> 1)
    .| ((((((x .>> 16) .^ (x .>> 18)) .^ (x .>> 19)) .^ (x .>> 21)) .& 1) .<< 31).

Definition prng_successor_ref (x n : Z) : Z :=
  __REV (Nat.iter (Z.to_nat n) prng_step_ref (__REV x)).

End Crapto1.

(** ** The byte-split implementation ([mf1_crypto1.c]) *)
Module Crypto1.

Definition NONCE_SIZE : Z := 4.
Definition LFSR_MASK_EVEN : Z := 0x2010E1.
Definition LFSR_MASK_ODD : Z := 0x3A7394.

(** [#define FC(x4, x3, x2, x1, x0)], the output stage of the filter
    network. *)
Definition FC (x4 x3 x2 x1 x0 : Z) : Z :=
  (x0 .| ((x1 .| x4) .& (x3 .^ x4)))
    .^ ((x0 .^ (x1 .& x3)) .& ((x2 .^ x3) .| (x1 .& x4))).

(** A 24-bit half kept in three byte registers, least significant
    byte first ([Even0, Even1, Even2] or [State.Even[0..2]]). *)
Definition bytes3 : Type := (Z * Z * Z)%type.

(** [typedef struct { uint8_t Even[3]; uint8_t Odd[3]; }
    Crypto1LfsrState_t;] *)
Record Crypto1LfsrState_t : Type := mkLfsr { Even : bytes3; Odd : bytes3 }.

(** [SPLIT_BYTE(__even, __odd, __byte)]: deals the bits of [__byte]
    alternately into the two registers, each shifted right. *)
Definition SPLIT_BYTE (even odd byte : Z) : Z * Z :=
  let even := u8 ((even .>> 1) .| ((byte .& 0x01) .<< 7)) in
  let byte := byte .>> 1 in
  let odd := u8 ((odd .>> 1) .| ((byte .& 0x01) .<< 7)) in
  let byte := byte .>> 1 in
  let even := u8 ((even .>> 1) .| ((byte .& 0x01) .<< 7)) in
  let byte := byte .>> 1 in
  let odd := u8 ((odd .>> 1) .| ((byte .& 0x01) .<< 7)) in
  let byte := byte .>> 1 in
  let even := u8 ((even .>> 1) .| ((byte .& 0x01) .<< 7)) in
  let byte := byte .>> 1 in
  let odd := u8 ((odd .>> 1) .| ((byte .& 0x01) .<< 7)) in
  let byte := byte .>> 1 in
  let even := u8 ((even .>> 1) .| ((byte .& 0x01) .<< 7)) in
  let byte := byte .>> 1 in
  let odd := u8 ((odd .>> 1) .| ((byte .& 0x01) .<< 7)) in
  (even, odd).

(** [SHIFT24(__b0, __b1, __b2, __in)] *)
Definition SHIFT24 (b : bytes3) (in_ : Z) : bytes3 :=
  let '(b0, b1, b2) := b in
  (u8 ((b0 .>> 1) .| (b1 .<< 7)),
   u8 ((b1 .>> 1) .| (b2 .<< 7)),
   u8 ((b2 .>> 1) .| ((in_ .& 0x01) .<< 7))).

(** [SHIFT24_COND_DECRYPT(__b0, __b1, __b2, __in, __stream, __decrypt)] *)
Definition SHIFT24_COND_DECRYPT (b : bytes3) (in_ stream : Z) (decrypt : bool)
  : bytes3 :=
  let '(b0, b1, b2) := b in
  (u8 ((b0 .>> 1) .| (b1 .<< 7)),
   u8 ((b1 .>> 1) .| (b2 .<< 7)),
   u8 ((b2 .>> 1) .| ((in_ .^ ((stream .& 0x01) .& Z.b2z decrypt)) .<< 7))).

(** [SHIFT8(__byte, __in)] *)
Definition SHIFT8 (byte in_ : Z) : Z :=
  u8 ((byte .>> 1) .| ((in_ .& 0x01) .<< 7)).

(** [abFilterTable[3][256]]: one table per byte of the odd half, written
    row by row as in the source (eight entries a row). *)
Definition abFilterTable : list (list Z) :=
  [
    (* for Odd[0] *)
    ( [0x00; 0x00; 0x00; 0x00; 0x00; 0x00; 0x00; 0x00]
      ++ [0x00; 0x00; 0x00; 0x00; 0x00; 0x00; 0x00; 0x00]
      ++ [0x01; 0x01; 0x01; 0x01; 0x01; 0x01; 0x01; 0x01]
      ++ [0x01; 0x01; 0x01; 0x01; 0x01; 0x01; 0x01; 0x01]
      ++ [0x01; 0x01; 0x01; 0x01; 0x01; 0x01; 0x01; 0x01]
      ++ [0x01; 0x01; 0x01; 0x01; 0x01; 0x01; 0x01; 0x01]
      ++ [0x01; 0x01; 0x01; 0x01; 0x01; 0x01; 0x01; 0x01]
      ++ [0x01; 0x01; 0x01; 0x01; 0x01; 0x01; 0x01; 0x01]
      ++ [0x00; 0x00; 0x00; 0x00; 0x00; 0x00; 0x00; 0x00]
      ++ [0x00; 0x00; 0x00; 0x00; 0x00; 0x00; 0x00; 0x00]
      ++ [0x00; 0x00; 0x00; 0x00; 0x00; 0x00; 0x00; 0x00]
      ++ [0x00; 0x00; 0x00; 0x00; 0x00; 0x00; 0x00; 0x00]
      ++ [0x00; 0x00; 0x00; 0x00; 0x00; 0x00; 0x00; 0x00]
      ++ [0x00; 0x00; 0x00; 0x00; 0x00; 0x00; 0x00; 0x00]
      ++ [0x01; 0x01; 0x01; 0x01; 0x01; 0x01; 0x01; 0x01]
      ++ [0x01; 0x01; 0x01; 0x01; 0x01; 0x01; 0x01; 0x01]
      ++ [0x00; 0x00; 0x00; 0x00; 0x00; 0x00; 0x00; 0x00]
      ++ [0x00; 0x00; 0x00; 0x00; 0x00; 0x00; 0x00; 0x00]
      ++ [0x00; 0x00; 0x00; 0x00; 0x00; 0x00; 0x00; 0x00]
      ++ [0x00; 0x00; 0x00; 0x00; 0x00; 0x00; 0x00; 0x00]
      ++ [0x01; 0x01; 0x01; 0x01; 0x01; 0x01; 0x01; 0x01]
      ++ [0x01; 0x01; 0x01; 0x01; 0x01; 0x01; 0x01; 0x01]
      ++ [0x00; 0x00; 0x00; 0x00; 0x00; 0x00; 0x00; 0x00]
      ++ [0x00; 0x00; 0x00; 0x00; 0x00; 0x00; 0x00; 0x00]
      ++ [0x01; 0x01; 0x01; 0x01; 0x01; 0x01; 0x01; 0x01]
      ++ [0x01; 0x01; 0x01; 0x01; 0x01; 0x01; 0x01; 0x01]
      ++ [0x01; 0x01; 0x01; 0x01; 0x01; 0x01; 0x01; 0x01]
      ++ [0x01; 0x01; 0x01; 0x01; 0x01; 0x01; 0x01; 0x01]
      ++ [0x00; 0x00; 0x00; 0x00; 0x00; 0x00; 0x00; 0x00]
      ++ [0x00; 0x00; 0x00; 0x00; 0x00; 0x00; 0x00; 0x00]
      ++ [0x01; 0x01; 0x01; 0x01; 0x01; 0x01; 0x01; 0x01]
      ++ [0x01; 0x01; 0x01; 0x01; 0x01; 0x01; 0x01; 0x01] );
    (* for Odd[1] *)
    ( [0x00; 0x00; 0x00; 0x02; 0x02; 0x00; 0x00; 0x02]
      ++ [0x00; 0x02; 0x02; 0x02; 0x02; 0x00; 0x00; 0x02]
      ++ [0x00; 0x00; 0x00; 0x02; 0x02; 0x00; 0x00; 0x02]
      ++ [0x00; 0x02; 0x02; 0x02; 0x02; 0x00; 0x00; 0x02]
      ++ [0x00; 0x00; 0x00; 0x02; 0x02; 0x00; 0x00; 0x02]
      ++ [0x00; 0x02; 0x02; 0x02; 0x02; 0x00; 0x00; 0x02]
      ++ [0x04; 0x04; 0x04; 0x06; 0x06; 0x04; 0x04; 0x06]
      ++ [0x04; 0x06; 0x06; 0x06; 0x06; 0x04; 0x04; 0x06]
      ++ [0x04; 0x04; 0x04; 0x06; 0x06; 0x04; 0x04; 0x06]
      ++ [0x04; 0x06; 0x06; 0x06; 0x06; 0x04; 0x04; 0x06]
      ++ [0x00; 0x00; 0x00; 0x02; 0x02; 0x00; 0x00; 0x02]
      ++ [0x00; 0x02; 0x02; 0x02; 0x02; 0x00; 0x00; 0x02]
      ++ [0x00; 0x00; 0x00; 0x02; 0x02; 0x00; 0x00; 0x02]
      ++ [0x00; 0x02; 0x02; 0x02; 0x02; 0x00; 0x00; 0x02]
      ++ [0x04; 0x04; 0x04; 0x06; 0x06; 0x04; 0x04; 0x06]
      ++ [0x04; 0x06; 0x06; 0x06; 0x06; 0x04; 0x04; 0x06]
      ++ [0x00; 0x00; 0x00; 0x02; 0x02; 0x00; 0x00; 0x02]
      ++ [0x00; 0x02; 0x02; 0x02; 0x02; 0x00; 0x00; 0x02]
      ++ [0x04; 0x04; 0x04; 0x06; 0x06; 0x04; 0x04; 0x06]
      ++ [0x04; 0x06; 0x06; 0x06; 0x06; 0x04; 0x04; 0x06]
      ++ [0x04; 0x04; 0x04; 0x06; 0x06; 0x04; 0x04; 0x06]
      ++ [0x04; 0x06; 0x06; 0x06; 0x06; 0x04; 0x04; 0x06]
      ++ [0x04; 0x04; 0x04; 0x06; 0x06; 0x04; 0x04; 0x06]
      ++ [0x04; 0x06; 0x06; 0x06; 0x06; 0x04; 0x04; 0x06]
      ++ [0x04; 0x04; 0x04; 0x06; 0x06; 0x04; 0x04; 0x06]
      ++ [0x04; 0x06; 0x06; 0x06; 0x06; 0x04; 0x04; 0x06]
      ++ [0x00; 0x00; 0x00; 0x02; 0x02; 0x00; 0x00; 0x02]
      ++ [0x00; 0x02; 0x02; 0x02; 0x02; 0x00; 0x00; 0x02]
      ++ [0x00; 0x00; 0x00; 0x02; 0x02; 0x00; 0x00; 0x02]
      ++ [0x00; 0x02; 0x02; 0x02; 0x02; 0x00; 0x00; 0x02]
      ++ [0x04; 0x04; 0x04; 0x06; 0x06; 0x04; 0x04; 0x06]
      ++ [0x04; 0x06; 0x06; 0x06; 0x06; 0x04; 0x04; 0x06] );
    (* for Odd[2] *)
    ( [0x00; 0x08; 0x08; 0x08; 0x00; 0x00; 0x00; 0x08]
      ++ [0x00; 0x00; 0x08; 0x00; 0x08; 0x08; 0x00; 0x08]
      ++ [0x00; 0x08; 0x08; 0x08; 0x00; 0x00; 0x00; 0x08]
      ++ [0x00; 0x00; 0x08; 0x00; 0x08; 0x08; 0x00; 0x08]
      ++ [0x00; 0x08; 0x08; 0x08; 0x00; 0x00; 0x00; 0x08]
      ++ [0x00; 0x00; 0x08; 0x00; 0x08; 0x08; 0x00; 0x08]
      ++ [0x10; 0x18; 0x18; 0x18; 0x10; 0x10; 0x10; 0x18]
      ++ [0x10; 0x10; 0x18; 0x10; 0x18; 0x18; 0x10; 0x18]
      ++ [0x10; 0x18; 0x18; 0x18; 0x10; 0x10; 0x10; 0x18]
      ++ [0x10; 0x10; 0x18; 0x10; 0x18; 0x18; 0x10; 0x18]
      ++ [0x00; 0x08; 0x08; 0x08; 0x00; 0x00; 0x00; 0x08]
      ++ [0x00; 0x00; 0x08; 0x00; 0x08; 0x08; 0x00; 0x08]
      ++ [0x00; 0x08; 0x08; 0x08; 0x00; 0x00; 0x00; 0x08]
      ++ [0x00; 0x00; 0x08; 0x00; 0x08; 0x08; 0x00; 0x08]
      ++ [0x10; 0x18; 0x18; 0x18; 0x10; 0x10; 0x10; 0x18]
      ++ [0x10; 0x10; 0x18; 0x10; 0x18; 0x18; 0x10; 0x18]
      ++ [0x00; 0x08; 0x08; 0x08; 0x00; 0x00; 0x00; 0x08]
      ++ [0x00; 0x00; 0x08; 0x00; 0x08; 0x08; 0x00; 0x08]
      ++ [0x10; 0x18; 0x18; 0x18; 0x10; 0x10; 0x10; 0x18]
      ++ [0x10; 0x10; 0x18; 0x10; 0x18; 0x18; 0x10; 0x18]
      ++ [0x10; 0x18; 0x18; 0x18; 0x10; 0x10; 0x10; 0x18]
      ++ [0x10; 0x10; 0x18; 0x10; 0x18; 0x18; 0x10; 0x18]
      ++ [0x10; 0x18; 0x18; 0x18; 0x10; 0x10; 0x10; 0x18]
      ++ [0x10; 0x10; 0x18; 0x10; 0x18; 0x18; 0x10; 0x18]
      ++ [0x10; 0x18; 0x18; 0x18; 0x10; 0x10; 0x10; 0x18]
      ++ [0x10; 0x10; 0x18; 0x10; 0x18; 0x18; 0x10; 0x18]
      ++ [0x00; 0x08; 0x08; 0x08; 0x00; 0x00; 0x00; 0x08]
      ++ [0x00; 0x00; 0x08; 0x00; 0x08; 0x08; 0x00; 0x08]
      ++ [0x00; 0x08; 0x08; 0x08; 0x00; 0x00; 0x00; 0x08]
      ++ [0x00; 0x00; 0x08; 0x00; 0x08; 0x08; 0x00; 0x08]
      ++ [0x10; 0x18; 0x18; 0x18; 0x10; 0x10; 0x10; 0x18]
      ++ [0x10; 0x10; 0x18; 0x10; 0x18; 0x18; 0x10; 0x18] )
  ].

Definition TableC0 : list Z :=
  [ FC 0 0 0 0 0; FC 0 0 0 0 1; FC 0 0 0 1 0; FC 0 0 0 1 1;
    FC 0 0 1 0 0; FC 0 0 1 0 1; FC 0 0 1 1 0; FC 0 0 1 1 1;
    FC 0 1 0 0 0; FC 0 1 0 0 1; FC 0 1 0 1 0; FC 0 1 0 1 1;
    FC 0 1 1 0 0; FC 0 1 1 0 1; FC 0 1 1 1 0; FC 0 1 1 1 1;
    FC 1 0 0 0 0; FC 1 0 0 0 1; FC 1 0 0 1 0; FC 1 0 0 1 1;
    FC 1 0 1 0 0; FC 1 0 1 0 1; FC 1 0 1 1 0; FC 1 0 1 1 1;
    FC 1 1 0 0 0; FC 1 1 0 0 1; FC 1 1 0 1 0; FC 1 1 0 1 1;
    FC 1 1 1 0 0; FC 1 1 1 0 1; FC 1 1 1 1 0; FC 1 1 1 1 1 ].

Definition TableC7 : list Z :=
  [ (FC 0 0 0 0 0) .<< 7; (FC 0 0 0 0 1) .<< 7; (FC 0 0 0 1 0) .<< 7; (FC 0 0 0 1 1) .<< 7;
    (FC 0 0 1 0 0) .<< 7; (FC 0 0 1 0 1) .<< 7; (FC 0 0 1 1 0) .<< 7; (FC 0 0 1 1 1) .<< 7;
    (FC 0 1 0 0 0) .<< 7; (FC 0 1 0 0 1) .<< 7; (FC 0 1 0 1 0) .<< 7; (FC 0 1 0 1 1) .<< 7;
    (FC 0 1 1 0 0) .<< 7; (FC 0 1 1 0 1) .<< 7; (FC 0 1 1 1 0) .<< 7; (FC 0 1 1 1 1) .<< 7;
    (FC 1 0 0 0 0) .<< 7; (FC 1 0 0 0 1) .<< 7; (FC 1 0 0 1 0) .<< 7; (FC 1 0 0 1 1) .<< 7;
    (FC 1 0 1 0 0) .<< 7; (FC 1 0 1 0 1) .<< 7; (FC 1 0 1 1 0) .<< 7; (FC 1 0 1 1 1) .<< 7;
    (FC 1 1 0 0 0) .<< 7; (FC 1 1 0 0 1) .<< 7; (FC 1 1 0 1 0) .<< 7; (FC 1 1 0 1 1) .<< 7;
    (FC 1 1 1 0 0) .<< 7; (FC 1 1 1 0 1) .<< 7; (FC 1 1 1 1 0) .<< 7; (FC 1 1 1 1 1) .<< 7 ].

Definition TableC3 : list Z :=
  [ (FC 0 0 0 0 0) .<< 3; (FC 0 0 0 0 1) .<< 3; (FC 0 0 0 1 0) .<< 3; (FC 0 0 0 1 1) .<< 3;
    (FC 0 0 1 0 0) .<< 3; (FC 0 0 1 0 1) .<< 3; (FC 0 0 1 1 0) .<< 3; (FC 0 0 1 1 1) .<< 3;
    (FC 0 1 0 0 0) .<< 3; (FC 0 1 0 0 1) .<< 3; (FC 0 1 0 1 0) .<< 3; (FC 0 1 0 1 1) .<< 3;
    (FC 0 1 1 0 0) .<< 3; (FC 0 1 1 0 1) .<< 3; (FC 0 1 1 1 0) .<< 3; (FC 0 1 1 1 1) .<< 3;
    (FC 1 0 0 0 0) .<< 3; (FC 1 0 0 0 1) .<< 3; (FC 1 0 0 1 0) .<< 3; (FC 1 0 0 1 1) .<< 3;
    (FC 1 0 1 0 0) .<< 3; (FC 1 0 1 0 1) .<< 3; (FC 1 0 1 1 0) .<< 3; (FC 1 0 1 1 1) .<< 3;
    (FC 1 1 0 0 0) .<< 3; (FC 1 1 0 0 1) .<< 3; (FC 1 1 0 1 0) .<< 3; (FC 1 1 0 1 1) .<< 3;
    (FC 1 1 1 0 0) .<< 3; (FC 1 1 1 0 1) .<< 3; (FC 1 1 1 1 0) .<< 3; (FC 1 1 1 1 1) .<< 3 ].

(** [abFilterTable[k][b]] *)
Definition abFilter (k : nat) (b : Z) : Z := idx (nth k abFilterTable []) b.

(** The index shared by the three output macros:
    [abFilterTable[0][__O0] | abFilterTable[1][__O1] | abFilterTable[2][__O2]]. *)
Definition filter_index (Od : bytes3) : Z :=
  let '(O0, O1, O2) := Od in
  (abFilter 0 O0 .| abFilter 1 O1) .| abFilter 2 O2.

Definition CRYPTO1_FILTER_OUTPUT_B7_24 (Od : bytes3) : Z := idx TableC7 (filter_index Od).
Definition CRYPTO1_FILTER_OUTPUT_B3_24 (Od : bytes3) : Z := idx TableC3 (filter_index Od).
Definition CRYPTO1_FILTER_OUTPUT_B0_24 (Od : bytes3) : Z := idx TableC0 (filter_index Od).

(** [Crypto1LFSRbyteFeedback(E0, E1, E2, O0, O1, O2)] *)
Definition Crypto1LFSRbyteFeedback (Ev Od : bytes3) : Z :=
  let '(E0, E1, E2) := Ev in
  let '(O0, O1, O2) := Od in
  let Feedback := E0 .& u8 LFSR_MASK_EVEN in
  let Feedback := Feedback .^ (E1 .& u8 (LFSR_MASK_EVEN .>> 8)) in
  let Feedback := Feedback .^ (E2 .& u8 (LFSR_MASK_EVEN .>> 16)) in
  let Feedback := Feedback .^ (O0 .& u8 LFSR_MASK_ODD) in
  let Feedback := Feedback .^ (O1 .& u8 (LFSR_MASK_ODD .>> 8)) in
  let Feedback := Feedback .^ (O2 .& u8 (LFSR_MASK_ODD .>> 16)) in
  let Feedback := u8 (Feedback .^ ((Feedback .>> 4) .| (Feedback .<< 4))) in
  let Feedback := Feedback .^ (Feedback .>> 2) in
  let Feedback := Feedback .^ (Feedback .>> 1) in
  Feedback .& 1.

(** [Crypto1LFSR(In)]: one clock of the global state. *)
Definition Crypto1LFSR (State : Crypto1LfsrState_t) (In : Z) : Crypto1LfsrState_t :=
  let '(Temp0, Temp1, Temp2) := Even State in
  let '(Odd0, Odd1, Odd2) := Odd State in
  let Feedback := Temp0 .& u8 (LFSR_MASK_EVEN .>> 0) in
  let Feedback := Feedback .^ (Temp1 .& u8 (LFSR_MASK_EVEN .>> 8)) in
  let Feedback := Feedback .^ (Temp2 .& u8 (LFSR_MASK_EVEN .>> 16)) in
  let Feedback := Feedback .^ (Odd0 .& u8 (LFSR_MASK_ODD .>> 0)) in
  let Feedback := Feedback .^ (Odd1 .& u8 (LFSR_MASK_ODD .>> 8)) in
  let Feedback := Feedback .^ (Odd2 .& u8 (LFSR_MASK_ODD .>> 16)) in
  let Feedback := u8 (Feedback .^ ((Feedback .>> 4) .| (Feedback .<< 4))) in
  let Feedback := Feedback .^ (Feedback .>> 2) in
  let Feedback := Feedback .^ (Feedback .>> 1) in
  let Feedback := Feedback .& 1 in
  let Temp := SHIFT24 (Temp0, Temp1, Temp2) (Feedback .^ In) in
  {| Even := Odd State; Odd := Temp |}.

(** [Crypto1FilterOutput()] *)
Definition Crypto1FilterOutput (State : Crypto1LfsrState_t) : Z :=
  CRYPTO1_FILTER_OUTPUT_B0_24 (Odd State).

(** The key-loading prologue of [Crypto1Setup] and
    [Crypto1SetupNested]: six [SPLIT_BYTE]s into zeroed registers. *)
Definition LoadKey (Key : list Z) : Crypto1LfsrState_t :=
  let '(Even0, Odd0) := SPLIT_BYTE 0 0 (idx Key 0) in
  let '(Even0, Odd0) := SPLIT_BYTE Even0 Odd0 (idx Key 1) in
  let '(Even1, Odd1) := SPLIT_BYTE 0 0 (idx Key 2) in
  let '(Even1, Odd1) := SPLIT_BYTE Even1 Odd1 (idx Key 3) in
  let '(Even2, Odd2) := SPLIT_BYTE 0 0 (idx Key 4) in
  let '(Even2, Odd2) := SPLIT_BYTE Even2 Odd2 (idx Key 5) in
  {| Even := (Even0, Even1, Even2); Odd := (Odd0, Odd1, Odd2) |}.

(** The local variables of the bit loop of [Crypto1SetupNested]. *)
Record NestedRegs : Type := mkNested {
  nEven : bytes3; nOdd : bytes3; nKeyStream : Z; nOut : Z; nIn : Z }.

(** The body of [for (uint8_t bit = 0; bit < 8; bit++)] in
    [Crypto1SetupNested]. *)
Definition nested_bit (Decrypt : bool) (r : NestedRegs) (bit : Z) : NestedRegs :=
  let Ev := nEven r in
  let Od := nOdd r in
  let KeyStream := nKeyStream r in
  let Out := nOut r in
  let In := nIn r in
  let '(KeyStream, Out) :=
    if bit =? 0 then (SHIFT8 KeyStream Out, Out)
    else
      let Out := if nonzero (bit .& 1) then CRYPTO1_FILTER_OUTPUT_B7_24 Ev
                 else CRYPTO1_FILTER_OUTPUT_B7_24 Od in
      (u8 ((KeyStream .>> 1) .| Out), Out) in
  let Feedback := if nonzero (bit .& 1) then Crypto1LFSRbyteFeedback Od Ev
                  else Crypto1LFSRbyteFeedback Ev Od in
  let Feedback := Feedback .^ (In .& 1) in
  let In := In .>> 1 in
  if nonzero (bit .& 1)
  then mkNested Ev (SHIFT24_COND_DECRYPT Od Feedback Out Decrypt) KeyStream Out In
  else mkNested (SHIFT24_COND_DECRYPT Ev Feedback Out Decrypt) Od KeyStream Out In.

(** What [Crypto1SetupNested] carries from one nonce byte to the
    next: the registers, the last filter output and the two buffers. *)
Record NestedLoop : Type := mkLoop {
  lEven : bytes3; lOdd : bytes3; lOut : Z;
  lCardNonce : list Z; lNonceParity : list Z }.

(** The body of [for (ByteCount = 0; ByteCount < NONCE_SIZE; ByteCount++)]. *)
Definition nested_byte (Decrypt : bool) (Uid : list Z) (l : NestedLoop) (ByteCount : Z)
  : NestedLoop :=
  let CardNonce := lCardNonce l in
  let In := idx CardNonce ByteCount .^ idx Uid ByteCount in
  let KeyStream := 0 in
  let r := fold_left (nested_bit Decrypt) (upto 8)
             (mkNested (lEven l) (lOdd l) KeyStream (lOut l) In) in
  let Out := CRYPTO1_FILTER_OUTPUT_B0_24 (nOdd r) in
  let NonceParity :=
    upd (lNonceParity l) ByteCount (oddparity8 (idx CardNonce ByteCount) .^ Out) in
  let CardNonce :=
    upd CardNonce ByteCount (idx CardNonce ByteCount .^ nKeyStream r) in
  mkLoop (nEven r) (nOdd r) Out CardNonce NonceParity.

(** [Crypto1SetupNested(Key, Uid, CardNonce, NonceParity, Decrypt)]:
    returns the two buffers it writes and the saved state. *)
Definition Crypto1SetupNested (Key Uid CardNonce NonceParity : list Z) (Decrypt : bool)
  : list Z * list Z * Crypto1LfsrState_t :=
  let k := LoadKey Key in
  let Out := CRYPTO1_FILTER_OUTPUT_B0_24 (Odd k) in
  let l := fold_left (nested_byte Decrypt Uid) (upto 4)
             (mkLoop (Even k) (Odd k) Out CardNonce NonceParity) in
  (lCardNonce l, lNonceParity l, {| Even := lEven l; Odd := lOdd l |}).

(** The body of the bit loop of [Crypto1Auth]; the registers are
    [(Even, Odd, In)]. *)
Definition auth_bit (r : bytes3 * bytes3 * Z) (bit : Z) : bytes3 * bytes3 * Z :=
  let '(Ev, Od, In) := r in
  let Feedback := if nonzero (bit .& 1) then CRYPTO1_FILTER_OUTPUT_B0_24 Ev
                  else CRYPTO1_FILTER_OUTPUT_B0_24 Od in
  let Feedback := if nonzero (bit .& 1) then Crypto1LFSRbyteFeedback Od Ev
                  else Crypto1LFSRbyteFeedback Ev Od in
  let Feedback := u8 (Feedback .^ (Feedback .^ (In .& 1))) in
  let In := In .>> 1 in
  if nonzero (bit .& 1) then (Ev, SHIFT24 Od Feedback, In)
  else (SHIFT24 Ev Feedback, Od, In).

(** [Crypto1Auth(EncryptedReaderNonce)] on the global state. *)
Definition Crypto1Auth (State : Crypto1LfsrState_t) (EncryptedReaderNonce : list Z)
  : Crypto1LfsrState_t :=
  let '(Ev, Od) :=
    fold_left
      (fun '(Ev, Od) i =>
         let In := idx EncryptedReaderNonce i in
         let '(Ev, Od, _) := fold_left auth_bit (upto 8) (Ev, Od, In) in
         (Ev, Od))
      (upto 4)
      (Even State, Odd State) in
  {| Even := Ev; Odd := Od |}.

(** The reader-nonce absorption as the specification words it: for
    each of the 32 ciphertext bits, take the filter output and clock
    the register with the ciphertext bit, the filter output folded
    into the feedback. *)
Definition auth_reference (State : Crypto1LfsrState_t) (EncryptedReaderNonce : list Z)
  : Crypto1LfsrState_t :=
  fold_left
    (fun State i =>
       fold_left
         (fun State bit =>
            Crypto1LFSR State
              (BIT (idx EncryptedReaderNonce i) bit .^ Crypto1FilterOutput State))
         (upto 8) State)
    (upto 4) State.

(** The three chunked updates of one pass of the loop of
    [Crypto1PRNG]. *)
Definition prng_chunks (Temp : Z) : Z :=
  let Feedback := u16 (Temp .>> 16) in
  let Feedback := Feedback .^ (Feedback .>> 3) in
  let Feedback := Feedback .^ (Feedback .>> 2) in
  let Temp := (Temp .>> 11) .| u32 (Feedback .<< (32 - 11)) in
  let Feedback := u16 (Temp .>> 16) in
  let Feedback := Feedback .^ (Feedback .>> 3) in
  let Feedback := Feedback .^ (Feedback .>> 2) in
  let Temp := (Temp .>> 11) .| u32 (Feedback .<< (32 - 11)) in
  let Feedback := u16 (Temp .>> 16) in
  let Feedback := Feedback .^ (Feedback .>> 3) in
  let Feedback := Feedback .^ (Feedback .>> 2) in
  (Temp .>> 10) .| u32 (Feedback .<< (32 - 10)).

(** [while (ClockCount >= 32) { ...; ClockCount -= 32; }], with the
    number of passes bounded by [fuel]; returns the word and the
    count left. *)
Fixpoint prng_loop (fuel : nat) (Temp ClockCount : Z) : Z * Z :=
  match fuel with
  | O => (Temp, ClockCount)
  | S fuel =>
      if 32 <=? ClockCount
      then prng_loop fuel (prng_chunks Temp) (u8 (ClockCount - 32))
      else (Temp, ClockCount)
  end.

(** [Crypto1PRNG(State, ClockCount)]: a [uint8_t] count allows at
    most seven passes, so eight units of fuel always suffice. *)
Definition Crypto1PRNG (State : list Z) (ClockCount : Z) : list Z :=
  let Temp :=
    ((idx State 0 .| (idx State 1 .<< 8)) .| (idx State 2 .<< 16))
      .| (idx State 3 .<< 24) in
  let Temp := fst (prng_loop 8 Temp ClockCount) in
  let State := upd State 0 (u8 Temp) in
  let State := upd State 1 (u8 (Temp .>> 8)) in
  let State := upd State 2 (u8 (Temp .>> 16)) in
  upd State 3 (u8 (Temp .>> 24)).

(** The local variables of the bit loop of [Crypto1Setup]. *)
Record SetupRegs : Type := mkSetup {
  sEven : bytes3; sOdd : bytes3; sKeyStream : Z; sIn : Z }.

(** The body of [for (uint8_t bit = 0; bit < 8; bit++)] in
    [Crypto1Setup]. *)
Definition setup_bit (r : SetupRegs) (bit : Z) : SetupRegs :=
  let Ev := sEven r in
  let Od := sOdd r in
  let Out := if nonzero (bit .& 1) then CRYPTO1_FILTER_OUTPUT_B0_24 Ev
             else CRYPTO1_FILTER_OUTPUT_B0_24 Od in
  let KeyStream := SHIFT8 (sKeyStream r) Out in
  let Feedback := if nonzero (bit .& 1) then Crypto1LFSRbyteFeedback Od Ev
                  else Crypto1LFSRbyteFeedback Ev Od in
  let Feedback := Feedback .^ (sIn r .& 1) in
  let In := sIn r .>> 1 in
  if nonzero (bit .& 1)
  then mkSetup Ev (SHIFT24 Od Feedback) KeyStream In
  else mkSetup (SHIFT24 Ev Feedback) Od KeyStream In.

(** The body of the byte loop of [Crypto1Setup]; the loop carries the
    registers and the nonce buffer. *)
Definition setup_byte (Uid : list Z) (l : bytes3 * bytes3 * list Z) (ByteCount : Z)
  : bytes3 * bytes3 * list Z :=
  let '(Ev, Od, CardNonce) := l in
  let In := idx CardNonce ByteCount .^ idx Uid ByteCount in
  let KeyStream := 0 in
  let r := fold_left setup_bit (upto 8) (mkSetup Ev Od KeyStream In) in
  let CardNonce :=
    upd CardNonce ByteCount (idx CardNonce ByteCount .^ sKeyStream r) in
  (sEven r, sOdd r, CardNonce).

(** [Crypto1Setup(Key, Uid, CardNonce)]: returns the nonce buffer it
    encrypts in place and the saved state. *)
Definition Crypto1Setup (Key Uid CardNonce : list Z) : list Z * Crypto1LfsrState_t :=
  let k := LoadKey Key in
  let '(Ev, Od, CardNonce) :=
    fold_left (setup_byte Uid) (upto 4) (Even k, Odd k, CardNonce) in
  (CardNonce, {| Even := Ev; Odd := Od |}).

(** The registers of the keystream loops: the two halves and the
    keystream byte under assembly. *)
Record StreamRegs : Type := mkStream { kEven : bytes3; kOdd : bytes3; kKeyStream : Z }.

(** The body of [for (uint8_t i = 0; i < 4; i++)] in [Crypto1Nibble]. *)
Definition nibble_pass (r : StreamRegs) (i : Z) : StreamRegs :=
  let Ev := kEven r in
  let Od := kOdd r in
  let KeyStream := kKeyStream r in
  let Feedback := if nonzero (i .& 1) then Crypto1LFSRbyteFeedback Od Ev
                  else Crypto1LFSRbyteFeedback Ev Od in
  let '(Ev, Od, Out) :=
    if nonzero (i .& 1)
    then let Od := SHIFT24 Od Feedback in (Ev, Od, CRYPTO1_FILTER_OUTPUT_B3_24 Ev)
    else let Ev := SHIFT24 Ev Feedback in (Ev, Od, CRYPTO1_FILTER_OUTPUT_B3_24 Od) in
  if i <? 3 then mkStream Ev Od (u8 ((KeyStream .>> 1) .| Out))
  else mkStream Ev Od KeyStream.

(** [Crypto1Nibble()]: returns the nibble and the saved state. *)
Definition Crypto1Nibble (State : Crypto1LfsrState_t) : Z * Crypto1LfsrState_t :=
  let KeyStream := CRYPTO1_FILTER_OUTPUT_B3_24 (Odd State) in
  let r := fold_left nibble_pass (upto 4) (mkStream (Even State) (Odd State) KeyStream) in
  (kKeyStream r, {| Even := kEven r; Odd := kOdd r |}).

(** The body of [for (uint8_t i = 0; i < 8; i++)] in [Crypto1Byte]. *)
Definition byte_pass (r : StreamRegs) (i : Z) : StreamRegs :=
  let Ev := kEven r in
  let Od := kOdd r in
  let KeyStream := kKeyStream r in
  let Feedback := if nonzero (i .& 1) then Crypto1LFSRbyteFeedback Od Ev
                  else Crypto1LFSRbyteFeedback Ev Od in
  if nonzero (i .& 1)
  then
    let Od := SHIFT24 Od Feedback in
    let out := CRYPTO1_FILTER_OUTPUT_B7_24 Ev in
    mkStream Ev Od (u8 ((KeyStream .>> 1) .| out))
  else
    let Ev := SHIFT24 Ev Feedback in
    if 0 <? i
    then
      let out := CRYPTO1_FILTER_OUTPUT_B7_24 Od in
      mkStream Ev Od (u8 ((KeyStream .>> 1) .| out))
    else mkStream Ev Od KeyStream.

(** [Crypto1Byte()]: returns the keystream byte and the saved state. *)
Definition Crypto1Byte (State : Crypto1LfsrState_t) : Z * Crypto1LfsrState_t :=
  let KeyStream := CRYPTO1_FILTER_OUTPUT_B7_24 (Odd State) in
  let r := fold_left byte_pass (upto 8) (mkStream (Even State) (Odd State) KeyStream) in
  (kKeyStream r, {| Even := kEven r; Odd := kOdd r |}).

(** [Crypto1ByteArray(Buffer, Count)]: [while (Count--) *Buffer++ ^=
    Crypto1Byte();], the pass for the byte at index [k]. *)
Definition byte_array_pass (l : list Z * Crypto1LfsrState_t) (k : Z)
  : list Z * Crypto1LfsrState_t :=
  let '(Buffer, State) := l in
  let r := Crypto1Byte State in
  (upd Buffer k (idx Buffer k .^ fst r), snd r).

Definition Crypto1ByteArray (State : Crypto1LfsrState_t) (Buffer : list Z) (Count : Z)
  : list Z * Crypto1LfsrState_t :=
  fold_left byte_array_pass (upto (Z.to_nat Count)) (Buffer, State).

(** The registers of [Crypto1ByteArrayWithParity] and
    [Crypto1ByteArrayWithParityHasIn]: the keystream byte and the last
    filter output live across the bytes. *)
Record ParityRegs : Type := mkParity {
  pEven : bytes3; pOdd : bytes3; pKeyStream : Z; pOut : Z; pIn : Z }.

(** The body of the bit loop of [Crypto1ByteArrayWithParity]. *)
Definition parity_bit (r : ParityRegs) (bit : Z) : ParityRegs :=
  let Ev := pEven r in
  let Od := pOdd r in
  let KeyStream := pKeyStream r in
  let Out := pOut r in
  let Feedback := if nonzero (bit .& 1) then Crypto1LFSRbyteFeedback Od Ev
                  else Crypto1LFSRbyteFeedback Ev Od in
  if nonzero (bit .& 1)
  then
    let Od := SHIFT24 Od Feedback in
    if bit <? 7
    then
      let Out := CRYPTO1_FILTER_OUTPUT_B7_24 Ev in
      mkParity Ev Od (u8 ((KeyStream .>> 1) .| Out)) Out (pIn r)
    else mkParity Ev Od KeyStream Out (pIn r)
  else
    let Ev := SHIFT24 Ev Feedback in
    if 0 <? bit
    then
      let Out := CRYPTO1_FILTER_OUTPUT_B7_24 Od in
      mkParity Ev Od (u8 ((KeyStream .>> 1) .| Out)) Out (pIn r)
    else mkParity Ev Od KeyStream Out (pIn r).

(** The body of the bit loop of [Crypto1ByteArrayWithParityHasIn]: as
    [parity_bit], with the input bit folded into the feedback. *)
Definition parity_in_bit (r : ParityRegs) (bit : Z) : ParityRegs :=
  let Ev := pEven r in
  let Od := pOdd r in
  let KeyStream := pKeyStream r in
  let Out := pOut r in
  let Feedback := if nonzero (bit .& 1) then Crypto1LFSRbyteFeedback Od Ev
                  else Crypto1LFSRbyteFeedback Ev Od in
  let Feedback := Feedback .^ (pIn r .& 1) in
  let In := pIn r .>> 1 in
  if nonzero (bit .& 1)
  then
    let Od := SHIFT24 Od Feedback in
    if bit <? 7
    then
      let Out := CRYPTO1_FILTER_OUTPUT_B7_24 Ev in
      mkParity Ev Od (u8 ((KeyStream .>> 1) .| Out)) Out In
    else mkParity Ev Od KeyStream Out In
  else
    let Ev := SHIFT24 Ev Feedback in
    if 0 <? bit
    then
      let Out := CRYPTO1_FILTER_OUTPUT_B7_24 Od in
      mkParity Ev Od (u8 ((KeyStream .>> 1) .| Out)) Out In
    else mkParity Ev Od KeyStream Out In.

(** What the byte loops of the two functions carry: the registers
    and the two buffers. *)
Record ParityLoop : Type := mkPLoop {
  qEven : bytes3; qOdd : bytes3; qKeyStream : Z; qOut : Z;
  qBuffer : list Z; qParity : list Z }.

(** The body of [while (Count--)] in [Crypto1ByteArrayWithParity], for
    the byte at index [k]. *)
Definition parity_byte (l : ParityLoop) (k : Z) : ParityLoop :=
  let KeyStream := SHIFT8 (qKeyStream l) (qOut l) in
  let r := fold_left parity_bit (upto 8)
             (mkParity (qEven l) (qOdd l) KeyStream (qOut l) 0) in
  let Out := CRYPTO1_FILTER_OUTPUT_B0_24 (pOdd r) in
  let Parity := upd (qParity l) k (oddparity8 (idx (qBuffer l) k) .^ Out) in
  let Buffer := upd (qBuffer l) k (idx (qBuffer l) k .^ pKeyStream r) in
  mkPLoop (pEven r) (pOdd r) (pKeyStream r) Out Buffer Parity.

(** [Crypto1ByteArrayWithParity(Buffer, Parity, Count)]: returns the
    two buffers and the saved state. *)
Definition Crypto1ByteArrayWithParity (State : Crypto1LfsrState_t)
    (Buffer Parity : list Z) (Count : Z) : list Z * list Z * Crypto1LfsrState_t :=
  let KeyStream := 0 in
  let Out := CRYPTO1_FILTER_OUTPUT_B0_24 (Odd State) in
  let l := fold_left parity_byte (upto (Z.to_nat Count))
             (mkPLoop (Even State) (Odd State) KeyStream Out Buffer Parity) in
  (qBuffer l, qParity l, {| Even := qEven l; Odd := qOdd l |}).

(** The body of [while (Count--)] in [Crypto1ByteArrayWithParityHasIn]. *)
Definition parity_in_byte (l : ParityLoop) (k : Z) : ParityLoop :=
  let In := idx (qBuffer l) k in
  let KeyStream := SHIFT8 (qKeyStream l) (qOut l) in
  let r := fold_left parity_in_bit (upto 8)
             (mkParity (qEven l) (qOdd l) KeyStream (qOut l) In) in
  let Out := CRYPTO1_FILTER_OUTPUT_B0_24 (pOdd r) in
  let Parity := upd (qParity l) k (oddparity8 (idx (qBuffer l) k) .^ Out) in
  let Buffer := upd (qBuffer l) k (idx (qBuffer l) k .^ pKeyStream r) in
  mkPLoop (pEven r) (pOdd r) (pKeyStream r) Out Buffer Parity.

Definition Crypto1ByteArrayWithParityHasIn (State : Crypto1LfsrState_t)
    (Buffer Parity : list Z) (Count : Z) : list Z * list Z * Crypto1LfsrState_t :=
  let KeyStream := 0 in
  let Out := CRYPTO1_FILTER_OUTPUT_B0_24 (Odd State) in
  let l := fold_left parity_in_byte (upto (Z.to_nat Count))
             (mkPLoop (Even State) (Odd State) KeyStream Out Buffer Parity) in
  (qBuffer l, qParity l, {| Even := qEven l; Odd := qOdd l |}).

(** [Crypto1EncryptWithParity(Buffer, BitCount)]: the pass for bit
    [i], and the loop. *)
Definition encrypt_parity_pass (l : list Z * Crypto1LfsrState_t) (i : Z)
  : list Z * Crypto1LfsrState_t :=
  let '(Buffer, State) := l in
  let Buffer :=
    upd Buffer (i / 8)
      (u8 (idx Buffer (i / 8)
           .^ (CRYPTO1_FILTER_OUTPUT_B0_24 (Odd State) .<< (i mod 8)))) in
  if nonzero ((i + 1) mod 9) then (Buffer, Crypto1LFSR State 0) else (Buffer, State).

Definition Crypto1EncryptWithParity (State : Crypto1LfsrState_t) (Buffer : list Z)
    (BitCount : Z) : list Z * Crypto1LfsrState_t :=
  fold_left encrypt_parity_pass (upto (Z.to_nat BitCount)) (Buffer, State).

(** [Crypto1ReaderAuthWithParity(PlainReaderAnswerWithParityBits)]:
    the pass for bit [i] of the 72, and the loop. *)
Definition reader_auth_pass (l : list Z * Crypto1LfsrState_t) (i : Z)
  : list Z * Crypto1LfsrState_t :=
  let '(Buffer, State) := l in
  let feedback := u8 (idx Buffer (i / 8) .>> (i mod 8)) in
  let Buffer :=
    upd Buffer (i / 8)
      (u8 (idx Buffer (i / 8)
           .^ (CRYPTO1_FILTER_OUTPUT_B0_24 (Odd State) .<< (i mod 8)))) in
  if nonzero ((i + 1) mod 9)
  then
    if i <? 36 then (Buffer, Crypto1LFSR State (feedback .& 1))
    else (Buffer, Crypto1LFSR State 0)
  else (Buffer, State).

Definition Crypto1ReaderAuthWithParity (State : Crypto1LfsrState_t)
    (PlainReaderAnswerWithParityBits : list Z) : list Z * Crypto1LfsrState_t :=
  fold_left reader_auth_pass (upto 72) (PlainReaderAnswerWithParityBits, State).

End Crypto1.

(** ** Auxiliary definitions of the proofs *)
Module Aux.

(** A C truth value or single bit. *)
Definition is_bit (b : Z) : Prop := b = 0 \/ b = 1.

(** Bits pushed in from the right, most significant first, into a
    register of width [w]: the shape of the loops of [crypto1_init]
    and [crypto1_get_lfsr]. *)
Definition bits_msb (w : Z) (l : list Z) : Z :=
  fold_left (fun a b => ((a .<< 1) .| b) mod 2 ^ w) l 0.

(** A value that fits a [uint8_t]. *)
Definition is_byte (b : Z) : Prop := 0 <= b < 256.

Definition init_indices : list Z := map (fun k => 47 - 2 * k) (upto 24).
Definition lfsr_indices : list Z := map (fun k => 23 - k) (upto 24).

(** Sequential calls of [crypto1_bit], one per input bit: the
    emitted bits in call order and the final state. *)
Fixpoint clock_bits (s : Crapto1.Crypto1State) (ins : list Z) (is_encrypted : Z)
  : list Z * Crapto1.Crypto1State :=
  match ins with
  | [] => ([], s)
  | b :: ins =>
      let r := Crapto1.crypto1_bit s b is_encrypted in
      let rs := clock_bits (snd r) ins is_encrypted in
      (fst r :: fst rs, snd rs)
  end.

(** The position of the [i]-th emitted bit in the word returned by
    [crypto1_word], and the body of its loop. *)
Definition word_pos (i : Z) : Z := (24 .^ i) .& 0x1F.

Definition word_step (in_ e : Z)
  : Z * Crapto1.Crypto1State -> Z -> Z * Crapto1.Crypto1State :=
  fun '(ret, s) i =>
    let r := Crapto1.crypto1_bit s (BEBIT in_ i) e in
    (ret .| u32 (fst r .<< ((24 .^ i) .& 0x1F)), snd r).

(** One chunked update of [Crypto1PRNG], [n] bits at once. *)
Definition prng_chunk (n Temp : Z) : Z :=
  let Feedback := u16 (Temp .>> 16) in
  let Feedback := Feedback .^ (Feedback .>> 3) in
  let Feedback := Feedback .^ (Feedback .>> 2) in
  (Temp .>> n) .| u32 (Feedback .<< (32 - n)).

(** The feedback of the PRNG register [m] steps ahead, read off the
    bits of the current word. *)
Definition prng_tap (x m : Z) : bool :=
  xorb (xorb (xorb (Z.testbit x (16 + m)) (Z.testbit x (18 + m)))
          (Z.testbit x (19 + m)))
       (Z.testbit x (21 + m)).

(** The 24-bit little-endian value of a byte-split half. *)
Definition le24 (b : Crypto1.bytes3) : Z :=
  let '(b0, b1, b2) := b in (b0 .| (b1 .<< 8)) .| (b2 .<< 16).

(** The packed value that holds the same LFSR bits as a byte-split
    half.  [SHIFT24] shifts right and inserts at bit 23, [crypto1_bit]
    shifts left and inserts at bit 0, so the two layouts hold the
    register in opposite bit order: bit [k] of the packed half is bit
    [23 - k] of the byte-split one. *)
Definition packed (b : Crypto1.bytes3) : Z :=
  bits_msb 24 (map (BIT (le24 b)) (upto 24)).

(** Eight clocks of the byte-split state, fed the bits of [inb] from
    the least significant up. *)
Definition clock8 (State : Crypto1.Crypto1LfsrState_t) (inb : Z)
  : Crypto1.Crypto1LfsrState_t :=
  fold_left (fun State bit => Crypto1.Crypto1LFSR State (BIT inb bit)) (upto 8) State.

(** The byte-split state after the key load and [b] nonce bytes of
    the nested setup, each byte clocking in [CardNonce[i] ^ Uid[i]]. *)
Fixpoint nested_state (Key Uid CardNonce : list Z) (b : nat)
  : Crypto1.Crypto1LfsrState_t :=
  match b with
  | O => Crypto1.LoadKey Key
  | S b' =>
      clock8 (nested_state Key Uid CardNonce b')
        (idx CardNonce (Z.of_nat b') .^ idx Uid (Z.of_nat b'))
  end.

(** Clocks of the byte-split state by [Crypto1LFSR], one per input
    bit. *)
Definition clocks (State : Crypto1.Crypto1LfsrState_t) (ins : list Z)
  : Crypto1.Crypto1LfsrState_t :=
  fold_left Crypto1.Crypto1LFSR ins State.

(** The states a run of clocks passes through, the first included
    and the last left out: the states whose filter outputs make up the
    keystream. *)
Fixpoint clock_trace (State : Crypto1.Crypto1LfsrState_t) (ins : list Z)
  : list Crypto1.Crypto1LfsrState_t :=
  match ins with
  | [] => []
  | b :: ins => State :: clock_trace (Crypto1.Crypto1LFSR State b) ins
  end.

(** The keystream bits of a run of clocks. *)
Definition keystream (State : Crypto1.Crypto1LfsrState_t) (ins : list Z) : list Z :=
  map Crypto1.Crypto1FilterOutput (clock_trace State ins).

(** The number whose bit [j] is the [j]-th element of a list of bits. *)
Fixpoint bits_lsb (l : list Z) : Z :=
  match l with
  | [] => 0
  | b :: l => b .| (bits_lsb l .<< 1)
  end.

(** The bits of a byte, least significant first. *)
Definition byte_bits_of (b : Z) : list Z := map (BIT b) (upto 8).

(** Lists of bytes and of bits. *)
Definition bytes (l : list Z) : Prop := Forall is_byte l.

(** The [k]-th keystream byte of a state clocked with no input. *)
Definition keystream_byte (State : Crypto1.Crypto1LfsrState_t) (k : nat) : Z :=
  bits_lsb (keystream (clocks State (repeat 0 (8 * k))) (repeat 0 8)).

(** The [b]-th group of eight of a list of bits. *)
Definition chunk8 (l : list Z) (b : nat) : list Z := firstn 8 (skipn (8 * b) l).

(** The 32 bits the setup clocks in: those of [CardNonce[b] ^ Uid[b]],
    byte after byte, least significant bit first. *)
Definition setup_input (CardNonce Uid : list Z) : list Z :=
  flat_map (fun b => byte_bits_of (idx CardNonce b .^ idx Uid b)) (upto 4).

(** The bits clocked in by the first [n] bytes of a byte loop that
    feeds the byte [inp j] at its [j]-th pass. *)
Definition fed (inp : nat -> Z) (n : nat) : list Z :=
  flat_map (fun j => byte_bits_of (inp j)) (seq 0 n).

(** The keystream byte the loops of [Crypto1ByteArrayWithParity] and
    [Crypto1ByteArrayWithParityHasIn] assemble from the byte [prev] of
    the pass before and the keystream bits [ks] of this pass: seven
    bits of [ks] above the top bit of [prev]. *)
Definition displaced (prev : Z) (ks : list Z) : Z :=
  bits_lsb (BIT prev 7 :: firstn 7 ks).

(** The byte these loops xor onto byte [n] of the buffer. *)
Fixpoint displaced_stream (State : Crypto1.Crypto1LfsrState_t) (inp : nat -> Z)
    (n : nat) : Z :=
  displaced
    (match n with
     | O => 0
     | S m => displaced_stream State inp m
     end)
    (keystream (clocks State (fed inp n)) (byte_bits_of (inp n))).

(** The keystream byte a pass of these loops starts from: zero at
    the first byte, the byte of the pass before afterwards. *)
Definition carried (State : Crypto1.Crypto1LfsrState_t) (inp : nat -> Z) (n : nat) : Z :=
  match n with
  | O => 0
  | S m => displaced_stream State inp m
  end.

(** One byte of the two loops, as a function of the byte [inb] fed to
    the bit loop. *)
Definition parity_pass (inb : Z) (l : Crypto1.ParityLoop) (k : Z) : Crypto1.ParityLoop :=
  let r := fold_left Crypto1.parity_in_bit (upto 8)
             (Crypto1.mkParity (Crypto1.qEven l) (Crypto1.qOdd l)
                (Crypto1.SHIFT8 (Crypto1.qKeyStream l) (Crypto1.qOut l))
                (Crypto1.qOut l) inb) in
  Crypto1.mkPLoop (Crypto1.pEven r) (Crypto1.pOdd r) (Crypto1.pKeyStream r)
    (Crypto1.CRYPTO1_FILTER_OUTPUT_B0_24 (Crypto1.pOdd r))
    (upd (Crypto1.qBuffer l) k (idx (Crypto1.qBuffer l) k .^ Crypto1.pKeyStream r))
    (upd (Crypto1.qParity l) k
       (oddparity8 (idx (Crypto1.qBuffer l) k)
        .^ Crypto1.CRYPTO1_FILTER_OUTPUT_B0_24 (Crypto1.pOdd r))).

(** The body of the loop of [crypto1_byte]. *)
Definition byte_step (in_ e : Z)
  : Z * Crapto1.Crypto1State -> Z -> Z * Crapto1.Crypto1State :=
  fun '(ret, s) i =>
    let r := Crapto1.crypto1_bit s (BIT in_ i) e in
    (u8 (ret .| (fst r .<< i)), snd r).

(** Two packed states that hold the same 24 LFSR bits in each half. *)
Definition same_low24 (s s' : Crapto1.Crypto1State) : Prop :=
  Crapto1.odd s .& 0xFFFFFF = Crapto1.odd s' .& 0xFFFFFF
  /\ Crapto1.even s .& 0xFFFFFF = Crapto1.even s' .& 0xFFFFFF.

(** The state before bit [n] of a frame of nine-bit groups (eight data
    bits and a parity bit): every bit but the ninth of a group clocks
    the cipher, with the input [inbit i] at position [i]. *)
Fixpoint framed_state (State : Crypto1.Crypto1LfsrState_t) (inbit : Z -> Z) (n : nat)
  : Crypto1.Crypto1LfsrState_t :=
  match n with
  | O => State
  | S m =>
      if nonzero ((Z.of_nat m + 1) mod 9)
      then Crypto1.Crypto1LFSR (framed_state State inbit m) (inbit (Z.of_nat m))
      else framed_state State inbit m
  end.

(** One bit of such a frame: the bit is xored with the filter output
    and the state is clocked with [inb] unless the bit is a ninth. *)
Definition framed_pass (inb : Z) (l : list Z * Crypto1.Crypto1LfsrState_t) (i : Z)
  : list Z * Crypto1.Crypto1LfsrState_t :=
  (upd (fst l) (i / 8)
     (u8 (idx (fst l) (i / 8)
          .^ (Crypto1.CRYPTO1_FILTER_OUTPUT_B0_24 (Crypto1.Odd (snd l)) .<< (i mod 8)))),
   if nonzero ((i + 1) mod 9) then Crypto1.Crypto1LFSR (snd l) inb else snd l).

(** Bit [i] of a buffer of bytes read as a stream of bits, the least
    significant bit of a byte first. *)
Definition stream_bit (Buffer : list Z) (i : Z) : bool :=
  Z.testbit (idx Buffer (i / 8)) (i mod 8).

(** The bits of the reader answer that [Crypto1ReaderAuthWithParity]
    clocks in: those of the first 36 positions. *)
Definition reader_bit (Buffer : list Z) (i : Z) : Z :=
  if i <? 36 then Z.b2z (stream_bit Buffer i) else 0.

(** The positions below [n] of a frame that are not the ninth bit of
    a group. *)
Definition data_positions (n : nat) : list Z :=
  filter (fun i => nonzero ((i + 1) mod 9)) (upto n).

(** Two [SPLIT_BYTE]s into a cleared pair of registers, as the key
    load does for each pair of key bytes. *)
Definition split_pair (a b : Z) : Z * Z :=
  Crypto1.SPLIT_BYTE (fst (Crypto1.SPLIT_BYTE 0 0 a)) (snd (Crypto1.SPLIT_BYTE 0 0 a)) b.

(** The bits [Crypto1SetupNested] clocks in for a nonce byte when it
    decrypts: the bits of [inb], the first of them xored with the
    filter output of the state the byte starts from. *)
Definition decrypt_input (State : Crypto1.Crypto1LfsrState_t) (inb : Z) : list Z :=
  (BIT inb 0 .^ Crypto1.Crypto1FilterOutput State) :: tl (byte_bits_of inb).

(** The state after the key load and [b] nonce bytes of the nested
    setup with decryption. *)
Fixpoint nested_decrypt_state (Key Uid CardNonce : list Z) (b : nat)
  : Crypto1.Crypto1LfsrState_t :=
  match b with
  | O => Crypto1.LoadKey Key
  | S b' =>
      clocks (nested_decrypt_state Key Uid CardNonce b')
        (decrypt_input (nested_decrypt_state Key Uid CardNonce b')
           (idx CardNonce (Z.of_nat b') .^ idx Uid (Z.of_nat b')))
  end.

(** The last steps of [Crypto1LFSRbyteFeedback] and [Crypto1LFSR]:
    the byte of masked taps folded onto its lowest bit. *)
Definition parity_fold (f : Z) : Z :=
  let Feedback := u8 (f .^ ((f .>> 4) .| (f .<< 4))) in
  let Feedback := Feedback .^ (Feedback .>> 2) in
  let Feedback := Feedback .^ (Feedback .>> 1) in
  Feedback .& 1.

(** The first steps: the six bytes of the state under the six bytes of
    the masks, xored together. *)
Definition masked_taps (Ev Od : Crypto1.bytes3) : Z :=
  let '(E0, E1, E2) := Ev in
  let '(O0, O1, O2) := Od in
  (((((E0 .& u8 Crypto1.LFSR_MASK_EVEN) .^ (E1 .& u8 (Crypto1.LFSR_MASK_EVEN .>> 8)))
      .^ (E2 .& u8 (Crypto1.LFSR_MASK_EVEN .>> 16)))
     .^ (O0 .& u8 Crypto1.LFSR_MASK_ODD))
    .^ (O1 .& u8 (Crypto1.LFSR_MASK_ODD .>> 8)))
   .^ (O2 .& u8 (Crypto1.LFSR_MASK_ODD .>> 16)).

(** A byte-split half whose three registers hold bytes. *)
Definition bytes3_ok (b : Crypto1.bytes3) : Prop :=
  let '(b0, b1, b2) := b in is_byte b0 /\ is_byte b1 /\ is_byte b2.

End Aux.
Import Aux.

(** * Proofs *)

(** ** Facts about bits *)
Module BitFacts.

Lemma testbit_high (n x i : Z) :
  0 <= x < 2 ^ n -> 0 <= n <= i -> Z.testbit x i = false.
Proof.
  intros Hx Hi. rewrite <- (Z.mod_small x (2 ^ n)) by lia.
  apply Z.mod_pow2_bits_high. lia.
Qed.

(** A number whose bits from [n] on are clear is below [2 ^ n]. *)
Lemma bits_range (n v : Z) :
  0 <= n -> (forall i, n <= i -> Z.testbit v i = false) -> 0 <= v < 2 ^ n.
Proof.
  intros Hn H.
  assert (E : v = v mod 2 ^ n).
  { apply Z.bits_inj'. intros i Hi. rewrite Z.testbit_mod_pow2 by lia.
    destruct (Z.ltb_spec i n) as [Hlt|Hge]; [reflexivity|].
    rewrite H by lia. reflexivity. }
  rewrite E. apply Z.mod_pos_bound. lia.
Qed.

(** Pushes [Z.testbit] through the bitwise operators. *)
Ltac zbits :=
  repeat first
    [ rewrite Z.lor_spec | rewrite Z.land_spec | rewrite Z.lxor_spec
    | rewrite Z.shiftr_spec by lia | rewrite Z.shiftl_spec by lia
    | rewrite Z.testbit_mod_pow2 by lia ].

Lemma BIT_b2z (x n : Z) : 0 <= n -> BIT x n = Z.b2z (Z.testbit x n).
Proof.
  intros Hn. unfold BIT. change 1 with (Z.ones 1). rewrite Z.land_ones by lia.
  change (2 ^ 1) with 2. rewrite <- Z.bit0_mod. rewrite Z.shiftr_spec by lia.
  reflexivity.
Qed.

Lemma b2z_is_bit (b : bool) : is_bit (Z.b2z b).
Proof. destruct b; [right|left]; reflexivity. Qed.

Lemma is_bit_range (b : Z) : is_bit b -> 0 <= b < 2.
Proof. intros [-> | ->]; lia. Qed.

Lemma is_bit_b2z (b : Z) : is_bit b -> Z.b2z (b =? 1) = b.
Proof. intros [-> | ->]; reflexivity. Qed.

Lemma BIT_is_bit (x n : Z) : 0 <= n -> is_bit (BIT x n).
Proof. intros Hn. rewrite BIT_b2z by exact Hn. apply b2z_is_bit. Qed.

Lemma BIT_eqb (x n : Z) : 0 <= n -> (BIT x n =? 1) = Z.testbit x n.
Proof.
  intros Hn. rewrite BIT_b2z by exact Hn. destruct (Z.testbit x n); reflexivity.
Qed.

Lemma is_bit_testbit (b j : Z) : is_bit b -> Z.testbit b j = (j =? 0) && (b =? 1).
Proof.
  intros [-> | ->].
  - rewrite Z.testbit_0_l, andb_false_r. reflexivity.
  - destruct (Z.eqb_spec j 0) as [->|Hj]; [reflexivity|].
    destruct (Z.lt_ge_cases j 0) as [Hn|Hp].
    + apply Z.testbit_neg_r. exact Hn.
    + apply (testbit_high 1); lia.
Qed.

Lemma bits_msb_testbit (w : Z) (l : list Z) :
  Forall is_bit l -> Z.of_nat (length l) <= w ->
  forall j : nat,
    Z.testbit (bits_msb w l) (Z.of_nat j)
    = (j <? length l)%nat && (nth (length l - 1 - j) l 0 =? 1).
Proof.
  induction l as [|b l IH] using rev_ind; intros Hb Hw j.
  - simpl. apply Z.testbit_0_l.
  - apply Forall_app in Hb. destruct Hb as [Hl Hb].
    inversion Hb as [|? ? Hb1 _]; subst.
    rewrite length_app in *. simpl length in *.
    unfold bits_msb. rewrite fold_left_app. cbn [fold_left]. fold (bits_msb w l).
    rewrite Z.testbit_mod_pow2 by lia.
    rewrite Z.lor_spec, Z.shiftl_spec by lia.
    rewrite (is_bit_testbit b) by exact Hb1.
    destruct j as [|j].
    + simpl Z.of_nat. rewrite Z.testbit_neg_r by lia. simpl.
      replace (length l + 1 - 1 - 0)%nat with (length l) by lia.
      rewrite app_nth2 by lia. rewrite Nat.sub_diag. simpl.
      replace (0 <? w) with true by (symmetry; apply Z.ltb_lt; lia).
      replace (0 <? length l + 1)%nat with true by (symmetry; apply Nat.ltb_lt; lia).
      reflexivity.
    + replace (Z.of_nat (S j) - 1) with (Z.of_nat j) by lia.
      rewrite IH by (try exact Hl; lia).
      replace (Z.of_nat (S j) =? 0) with false by (symmetry; apply Z.eqb_neq; lia).
      rewrite orb_false_r.
      destruct (Nat.ltb_spec j (length l)) as [Hlt|Hge].
      * replace (S j <? length l + 1)%nat with true
          by (symmetry; apply Nat.ltb_lt; lia).
        replace (Z.of_nat (S j) <? w) with true by (symmetry; apply Z.ltb_lt; lia).
        rewrite app_nth1 by lia. simpl.
        replace (length l + 1 - 1 - S j)%nat with (length l - 1 - j)%nat by lia.
        reflexivity.
      * replace (S j <? length l + 1)%nat with false
          by (symmetry; apply Nat.ltb_ge; lia).
        simpl. apply andb_false_r.
Qed.

Lemma bits_msb_range (w : Z) (l : list Z) :
  Forall is_bit l -> Z.of_nat (length l) <= w ->
  0 <= bits_msb w l < 2 ^ Z.of_nat (length l).
Proof.
  intros Hb Hw. apply bits_range; [lia|]. intros i Hi.
  rewrite <- (Z2Nat.id i) by lia.
  rewrite bits_msb_testbit by assumption.
  replace (Z.to_nat i <? length l)%nat with false
    by (symmetry; apply Nat.ltb_ge; lia).
  reflexivity.
Qed.

Lemma Forall_is_bit_map (f : Z -> Z) (l : list Z) :
  (forall i, In i l -> is_bit (f i)) -> Forall is_bit (map f l).
Proof.
  intros H. apply Forall_forall. intros b Hb. apply in_map_iff in Hb.
  destruct Hb as [i [<- Hi]]. auto.
Qed.

(** Evaluates the closed index of every [BIT _ c] in the goal. *)
Ltac eval_bit_index :=
  repeat match goal with
    | |- context [BIT ?x ?c] =>
        lazymatch c with
        | Zpos _ => fail
        | Z0 => fail
        | _ => let c' := eval vm_compute in c in change c with c'
        end
    end.

Ltac eval_to_nat :=
  repeat match goal with
    | |- context [Z.to_nat ?c] =>
        let n := eval vm_compute in (Z.to_nat c) in change (Z.to_nat c) with n
    end.

Lemma ltb_true (a b : Z) : a < b -> (a <? b) = true.
Proof. intros. apply Z.ltb_lt. assumption. Qed.

Lemma ltb_false (a b : Z) : b <= a -> (a <? b) = false.
Proof. intros. apply Z.ltb_ge. assumption. Qed.

Lemma iter_add {A} (f : A -> A) (a b : nat) (x : A) :
  Nat.iter (a + b) f x = Nat.iter a f (Nat.iter b f x).
Proof. induction a as [|a IH]; simpl; [reflexivity|]. rewrite IH. reflexivity. Qed.

(** Clears every [Z.testbit b i] of a byte [b] whose index lies outside
    the byte. *)
Ltac byte_bits :=
  repeat match goal with
    | H : is_byte ?b |- context [Z.testbit ?b ?i] =>
        first [ rewrite (testbit_high 8 b i) by (unfold is_byte in H; lia)
              | rewrite (Z.testbit_neg_r b i) by lia ]
    end;
  rewrite ?andb_false_r, ?orb_false_r, ?andb_false_l, ?orb_false_l.

Lemma u8_land (v : Z) : u8 v = v .& 0xFF.
Proof. unfold u8. change 255 with (Z.ones 8). rewrite Z.land_ones by lia. reflexivity. Qed.

Lemma land_byte_range (v : Z) : is_byte (v .& 0xFF).
Proof. rewrite <- u8_land. unfold u8, is_byte. apply Z.mod_pos_bound. lia. Qed.

Lemma shift_byte_u32 (b k : Z) : is_byte b -> 0 <= k <= 24 -> u32 (b .<< k) = b .<< k.
Proof.
  intros Hb Hk. unfold u32. apply Z.mod_small. apply bits_range; [lia|].
  intros i Hi. rewrite Z.shiftl_spec by lia. apply (testbit_high 8); unfold is_byte in Hb; lia.
Qed.

Lemma lor4_rev (w x y z : Z) : ((w .| x) .| y) .| z = ((z .| y) .| x) .| w.
Proof.
  apply Z.bits_inj'. intros i _. rewrite !Z.lor_spec.
  destruct (Z.testbit w i), (Z.testbit x i), (Z.testbit y i), (Z.testbit z i); reflexivity.
Qed.

(** A property checked on the 256 bytes holds of every byte. *)
Lemma forall_upto (n : nat) (p : Z -> bool) :
  forallb p (upto n) = true -> forall z, 0 <= z < Z.of_nat n -> p z = true.
Proof.
  intros H z Hz. rewrite forallb_forall in H. apply H.
  unfold upto. apply in_map_iff. exists (Z.to_nat z). split; [lia|].
  apply in_seq. lia.
Qed.

Lemma upto_nth (n k : nat) : (k < n)%nat -> nth k (upto n) 0 = Z.of_nat k.
Proof.
  intros Hk. unfold upto. change 0 with (Z.of_nat 0). rewrite map_nth.
  rewrite seq_nth by exact Hk. reflexivity.
Qed.

Lemma lor_range (n a b : Z) :
  0 <= n -> 0 <= a < 2 ^ n -> 0 <= b < 2 ^ n -> 0 <= a .| b < 2 ^ n.
Proof.
  intros Hn Ha Hb. apply bits_range; [exact Hn|]. intros i Hi.
  rewrite Z.lor_spec, (testbit_high n a), (testbit_high n b) by lia. reflexivity.
Qed.

Lemma lor5_regroup (a b c d e : Z) :
  (((a .| b) .| c) .| d) .| e = (e .| (c .| d)) .| (a .| b).
Proof.
  apply Z.bits_inj'. intros i _. rewrite !Z.lor_spec.
  destruct (Z.testbit a i), (Z.testbit b i), (Z.testbit c i), (Z.testbit d i),
    (Z.testbit e i); reflexivity.
Qed.

Lemma land1_is_bit (v : Z) : is_bit (v .& 1).
Proof.
  change 1 with (Z.ones 1). rewrite Z.land_ones by lia. change (2 ^ 1) with 2.
  unfold is_bit. pose proof (Z.mod_pos_bound v 2). lia.
Qed.

Lemma lxor_is_bit (a b : Z) : is_bit a -> is_bit b -> is_bit (a .^ b).
Proof. intros [-> | ->] [-> | ->]; [left|right|right|left]; reflexivity. Qed.

Lemma is_bit_land1 (a : Z) : is_bit a -> a .& 1 = a.
Proof. intros [-> | ->]; reflexivity. Qed.

Lemma BIT_shiftr (x a c : Z) : 0 <= a -> 0 <= c -> BIT (x .>> a) c = BIT x (a + c).
Proof. intros Ha Hc. unfold BIT. rewrite Z.shiftr_shiftr by exact Hc. reflexivity. Qed.

Lemma idx_in_or_default (l : list Z) (i : Z) (P : Z -> Prop) :
  Forall P l -> P 0 -> P (idx l i).
Proof.
  intros Hl H0. unfold idx.
  destruct (Nat.lt_ge_cases (Z.to_nat i) (length l)) as [Hlt|Hge].
  - rewrite Forall_forall in Hl. apply Hl. apply nth_In. exact Hlt.
  - rewrite nth_overflow by exact Hge. exact H0.
Qed.

Lemma fold_upto_8 {A} (f : A -> Z -> A) (a : A) :
  fold_left f (upto 8) a = f (f (f (f (f (f (f (f a 0) 1) 2) 3) 4) 5) 6) 7.
Proof. reflexivity. Qed.

Lemma fold_upto_4 {A} (f : A -> Z -> A) (a : A) :
  fold_left f (upto 4) a = f (f (f (f a 0) 1) 2) 3.
Proof. reflexivity. Qed.

Lemma idx4 (a b c d : Z) :
  idx [a; b; c; d] 0 = a /\ idx [a; b; c; d] 1 = b
  /\ idx [a; b; c; d] 2 = c /\ idx [a; b; c; d] 3 = d.
Proof. repeat split; reflexivity. Qed.

Lemma upd4 (a b c d v : Z) :
  upd [a; b; c; d] 0 v = [v; b; c; d] /\ upd [a; b; c; d] 1 v = [a; v; c; d]
  /\ upd [a; b; c; d] 2 v = [a; b; v; d] /\ upd [a; b; c; d] 3 v = [a; b; c; v].
Proof. repeat split; reflexivity. Qed.

(** Rewrites reads and writes of four-element buffers at constant
    indices. *)
Ltac buf4 :=
  repeat first
    [ rewrite (proj1 (idx4 _ _ _ _))
    | rewrite (proj1 (proj2 (idx4 _ _ _ _)))
    | rewrite (proj1 (proj2 (proj2 (idx4 _ _ _ _))))
    | rewrite (proj2 (proj2 (proj2 (idx4 _ _ _ _))))
    | rewrite (proj1 (upd4 _ _ _ _ _))
    | rewrite (proj1 (proj2 (upd4 _ _ _ _ _)))
    | rewrite (proj1 (proj2 (proj2 (upd4 _ _ _ _ _))))
    | rewrite (proj2 (proj2 (proj2 (upd4 _ _ _ _ _)))) ].

End BitFacts.
Import BitFacts.

(** ** The packed implementation *)
Module Crapto1Facts.
Import Crapto1.

(** *** Key load and export *)

(** Folding a record update is folding each field. *)
Lemma init_fold (f g : Z -> Z) (l : list Z) (s : Crypto1State) :
  fold_left (fun s i => {| odd := u32 ((odd s .<< 1) .| f i);
                           even := u32 ((even s .<< 1) .| g i) |}) l s
  = {| odd := fold_left (fun a b => ((a .<< 1) .| b) mod 2 ^ 32) (map f l) (odd s);
       even := fold_left (fun a b => ((a .<< 1) .| b) mod 2 ^ 32) (map g l) (even s) |}.
Proof.
  revert s. induction l as [|i l IH]; intros s.
  - destruct s; reflexivity.
  - cbn [fold_left map]. rewrite IH. reflexivity.
Qed.

Lemma crypto1_init_bits (key : Z) :
  crypto1_init key
  = {| odd := bits_msb 32 (map (fun i => BIT key ((i - 1) .^ 7)) init_indices);
       even := bits_msb 32 (map (fun i => BIT key (i .^ 7)) init_indices) |}.
Proof.
  unfold crypto1_init. rewrite init_fold. unfold bits_msb, init_indices.
  reflexivity.
Qed.

Lemma get_lfsr_fold (s : Crypto1State) (l : list Z) (a : Z) :
  fold_left (fun lfsr i =>
               let lfsr := u64 ((lfsr .<< 1) .| BIT (odd s) (i .^ 3)) in
               u64 ((lfsr .<< 1) .| BIT (even s) (i .^ 3))) l a
  = fold_left (fun a b => ((a .<< 1) .| b) mod 2 ^ 64)
      (flat_map (fun i => [BIT (odd s) (i .^ 3); BIT (even s) (i .^ 3)]) l) a.
Proof.
  revert a. induction l as [|i l IH]; intros a; [reflexivity|].
  cbn [fold_left flat_map app]. rewrite <- IH. reflexivity.
Qed.

Lemma crypto1_get_lfsr_bits (s : Crypto1State) :
  crypto1_get_lfsr s
  = bits_msb 64 (flat_map (fun i => [BIT (odd s) (i .^ 3); BIT (even s) (i .^ 3)])
                   lfsr_indices).
Proof.
  unfold crypto1_get_lfsr. rewrite get_lfsr_fold. unfold bits_msb, lfsr_indices.
  reflexivity.
Qed.

Lemma init_odd_is_bits key :
  Forall is_bit (map (fun i => BIT key ((i - 1) .^ 7)) init_indices).
Proof.
  apply Forall_is_bit_map. intros i Hi. apply BIT_is_bit.
  repeat (destruct Hi as [<-|Hi]; [vm_compute; discriminate|]). destruct Hi.
Qed.

Lemma init_even_is_bits key :
  Forall is_bit (map (fun i => BIT key (i .^ 7)) init_indices).
Proof.
  apply Forall_is_bit_map. intros i Hi. apply BIT_is_bit.
  repeat (destruct Hi as [<-|Hi]; [vm_compute; discriminate|]). destruct Hi.
Qed.

Lemma lfsr_is_bits s :
  Forall is_bit
    (flat_map (fun i => [BIT (odd s) (i .^ 3); BIT (even s) (i .^ 3)]) lfsr_indices).
Proof.
  apply Forall_forall. intros b Hb. apply in_flat_map in Hb.
  destruct Hb as [i [Hi Hb]].
  assert (Hn : 0 <= i .^ 3).
  { repeat (destruct Hi as [<-|Hi]; [vm_compute; discriminate|]). destruct Hi. }
  destruct Hb as [<-|[<-|[]]]; apply BIT_is_bit; exact Hn.
Qed.

Lemma init_odd_bit key (c : Z) :
  0 <= c ->
  Z.testbit (odd (crypto1_init key)) c
  = (Z.to_nat c <? 24)%nat
    && (nth (23 - Z.to_nat c)
          (map (fun i => BIT key ((i - 1) .^ 7)) init_indices) 0 =? 1).
Proof.
  intros Hc. rewrite <- (Z2Nat.id c) at 1 by exact Hc.
  rewrite crypto1_init_bits. cbn [odd].
  rewrite bits_msb_testbit;
    [reflexivity | apply init_odd_is_bits | vm_compute; discriminate].
Qed.

Lemma init_even_bit key (c : Z) :
  0 <= c ->
  Z.testbit (even (crypto1_init key)) c
  = (Z.to_nat c <? 24)%nat
    && (nth (23 - Z.to_nat c) (map (fun i => BIT key (i .^ 7)) init_indices) 0 =? 1).
Proof.
  intros Hc. rewrite <- (Z2Nat.id c) at 1 by exact Hc.
  rewrite crypto1_init_bits. cbn [even].
  rewrite bits_msb_testbit;
    [reflexivity | apply init_even_is_bits | vm_compute; discriminate].
Qed.

Lemma get_lfsr_bit s (j : nat) :
  Z.testbit (crypto1_get_lfsr s) (Z.of_nat j)
  = (j <? 48)%nat
    && (nth (47 - j)
          (flat_map (fun i => [BIT (odd s) (i .^ 3); BIT (even s) (i .^ 3)])
             lfsr_indices) 0 =? 1).
Proof.
  rewrite crypto1_get_lfsr_bits.
  rewrite bits_msb_testbit;
    [reflexivity | apply lfsr_is_bits | vm_compute; discriminate].
Qed.

(** One bit of the exported LFSR, traced back through [crypto1_init]
    to the key bit it was loaded from. *)
Ltac roundtrip_bit :=
  cbn [Nat.sub nth flat_map lfsr_indices map upto seq app];
  eval_bit_index; rewrite BIT_eqb by lia;
  first [ rewrite init_odd_bit by lia | rewrite init_even_bit by lia ];
  eval_to_nat;
  cbn [Nat.ltb Nat.leb andb Nat.sub nth init_indices map upto seq];
  eval_bit_index; rewrite BIT_eqb by lia;
  reflexivity.

Lemma init_range (key : Z) :
  0 <= odd (crypto1_init key) < 2 ^ 24 /\ 0 <= even (crypto1_init key) < 2 ^ 24.
Proof.
  rewrite crypto1_init_bits. cbn [odd even]. split.
  - apply (bits_msb_range 32 _ (init_odd_is_bits key)). vm_compute. discriminate.
  - apply (bits_msb_range 32 _ (init_even_is_bits key)). vm_compute. discriminate.
Qed.

(** *** The tag PRNG *)

Lemma prng_step_range (x : Z) : 0 <= x < 2 ^ 32 -> 0 <= prng_step x < 2 ^ 32.
Proof.
  intros Hx. apply bits_range; [lia|]. intros i Hi.
  unfold prng_step, u32. zbits.
  rewrite (testbit_high 32 x (i + 1)) by lia.
  replace (i <? 32) with false by (symmetry; apply Z.ltb_ge; lia).
  reflexivity.
Qed.

(** On 32-bit words the step of the code, which lets the shift drop
    the upper feedback bits, is the step of the specification, which
    masks them. *)
Lemma prng_step_ref_eq (x : Z) : 0 <= x < 2 ^ 32 -> prng_step x = prng_step_ref x.
Proof.
  intros Hx. apply Z.bits_inj'. intros i Hi.
  unfold prng_step, prng_step_ref, u32.
  rewrite !Z.lor_spec. f_equal.
  rewrite Z.testbit_mod_pow2 by lia. rewrite !Z.shiftl_spec by lia.
  rewrite Z.land_spec.
  destruct (Z.ltb_spec i 32) as [Hlt|Hge].
  - destruct (Z.eq_dec i 31) as [->|Hne].
    + change (31 - 31) with 0. change (Z.testbit 1 0) with true.
      rewrite andb_true_r. reflexivity.
    + rewrite !Z.testbit_neg_r by lia. reflexivity.
  - replace (Z.testbit 1 (i - 31)) with false.
    + rewrite andb_false_r. reflexivity.
    + symmetry. apply (testbit_high 1); lia.
Qed.

Lemma prng_iter_ref_eq (k : nat) (x : Z) :
  0 <= x < 2 ^ 32 ->
  Nat.iter k prng_step x = Nat.iter k prng_step_ref x
  /\ 0 <= Nat.iter k prng_step x < 2 ^ 32.
Proof.
  intros Hx. induction k as [|k [IH1 IH2]]; simpl.
  - split; [reflexivity | exact Hx].
  - split.
    + rewrite <- IH1. apply prng_step_ref_eq. exact IH2.
    + apply prng_step_range. exact IH2.
Qed.

Lemma REV_range (x : Z) : 0 <= __REV x < 2 ^ 32.
Proof.
  apply bits_range; [lia|]. intros i Hi. unfold __REV. zbits.
  change 255 with (Z.ones 8).
  rewrite !Z.testbit_ones_nonneg by lia.
  repeat match goal with
    | |- context [?a <? 8] =>
        replace (a <? 8) with false by (symmetry; apply Z.ltb_ge; lia)
    end.
  rewrite !andb_false_r. reflexivity.
Qed.

Lemma fold_const_iter {A} (f : A -> A) (l : list Z) (x : A) :
  fold_left (fun x _ => f x) l x = Nat.iter (length l) f x.
Proof.
  revert x. induction l as [|a l IH]; intros x; simpl; [reflexivity|].
  rewrite IH. clear IH. induction (length l) as [|n IHn]; simpl; [reflexivity|].
  rewrite IHn. reflexivity.
Qed.

(** The two fast paths compute what the general loop computes. *)
Lemma prng_successor_iter (x n : Z) :
  prng_successor x n = __REV (Nat.iter (Z.to_nat n) prng_step (__REV x)).
Proof.
  unfold prng_successor.
  destruct (Z.eqb_spec n 1) as [->|H1]; [reflexivity|].
  destruct (Z.eqb_spec n 16) as [->|H16]; [|reflexivity].
  rewrite fold_const_iter. reflexivity.
Qed.

(** *** One clock *)

Lemma evenparity32_is_bit (x : Z) : is_bit (evenparity32 x).
Proof.
  unfold evenparity32, builtin_parity.
  generalize (fold_right xorb false (map (Z.testbit x) (upto 32))).
  intros [|]; [right|left]; reflexivity.
Qed.

Lemma filter_is_bit (x : Z) : is_bit (filter x).
Proof.
  unfold filter. apply BIT_is_bit.
  repeat (apply Z.lor_nonneg; split); apply Z.land_nonneg; right; lia.
Qed.

Lemma u8_is_bit (b : Z) : is_bit b -> u8 b = b.
Proof. intros [-> | ->]; reflexivity. Qed.

Lemma truth_is_bit (v : Z) : is_bit (truth v).
Proof. unfold truth. destruct (v =? 0); [left|right]; reflexivity. Qed.

Lemma truth_bit (v : Z) : is_bit v -> truth v = v .& 1.
Proof. intros [-> | ->]; reflexivity. Qed.

Lemma shift_in_range (n t p : Z) :
  0 <= n -> 0 <= t < 2 ^ n -> is_bit p -> 0 <= (t .<< 1) .| p < 2 ^ (n + 1).
Proof.
  intros Hn Ht Hp. apply bits_range; [lia|]. intros i Hi. zbits.
  rewrite (testbit_high n t) by lia.
  rewrite (is_bit_testbit p) by exact Hp.
  replace (i =? 0) with false by (symmetry; apply Z.eqb_neq; lia). reflexivity.
Qed.

Lemma shift_in_bit0 (t p : Z) : is_bit p -> Z.testbit ((t .<< 1) .| p) 0 = (p =? 1).
Proof.
  intros Hp. zbits. rewrite Z.testbit_neg_r by lia.
  rewrite (is_bit_testbit p) by exact Hp. reflexivity.
Qed.

Lemma shift_in_shiftr (t p : Z) : is_bit p -> ((t .<< 1) .| p) .>> 1 = t.
Proof.
  intros Hp. apply Z.bits_inj'. intros i Hi. zbits.
  rewrite (is_bit_testbit p) by exact Hp.
  replace (i + 1 =? 0) with false by (symmetry; apply Z.eqb_neq; lia).
  rewrite orb_false_r. f_equal. lia.
Qed.

Lemma crypto1_bit_even_unmasked (s : Crypto1State) (in_ is_encrypted : Z) :
  0 <= odd s < 2 ^ 24 ->
  exists p, is_bit p /\
    snd (crypto1_bit s in_ is_encrypted) = {| odd := even s; even := (odd s .<< 1) .| p |}.
Proof.
  intros Ho. unfold crypto1_bit. cbn [snd].
  match goal with |- context [evenparity32 ?f] => set (p := evenparity32 f) end.
  assert (Hp : is_bit p) by apply evenparity32_is_bit.
  exists p. split; [exact Hp|]. f_equal.
  unfold u32. apply Z.mod_small.
  pose proof (shift_in_range 24 (odd s) p ltac:(lia) Ho Hp). lia.
Qed.

(** *** The word lift *)

Lemma crypto1_bit_out_is_bit (s : Crypto1State) (b e : Z) : is_bit (fst (crypto1_bit s b e)).
Proof.
  unfold crypto1_bit. cbn [fst]. rewrite u8_is_bit; apply filter_is_bit.
Qed.

Lemma clock_bits_length (ins : list Z) (s : Crypto1State) (e : Z) :
  length (fst (clock_bits s ins e)) = length ins.
Proof.
  revert s. induction ins as [|b ins IH]; intros s; [reflexivity|].
  cbn [clock_bits fst length]. rewrite IH. reflexivity.
Qed.

Lemma clock_bits_is_bit (ins : list Z) (s : Crypto1State) (e : Z) :
  Forall is_bit (fst (clock_bits s ins e)).
Proof.
  revert s. induction ins as [|b ins IH]; intros s; [constructor|].
  cbn [clock_bits fst]. constructor; [apply crypto1_bit_out_is_bit | apply IH].
Qed.

Lemma word_fold (in_ e : Z) (l : list Z) (ret : Z) (s : Crypto1State) :
  Forall (fun i => 0 <= word_pos i < 32) l ->
  let r := clock_bits s (map (BEBIT in_) l) e in
  snd (fold_left (word_step in_ e) l (ret, s)) = snd r
  /\ forall p, 0 <= p ->
       Z.testbit (fst (fold_left (word_step in_ e) l (ret, s))) p
       = Z.testbit ret p
         || existsb (fun '(o, i) => (word_pos i =? p) && (o =? 1)) (combine (fst r) l).
Proof.
  revert ret s. induction l as [|i l IH]; intros ret s Hl r.
  - subst r. cbn. split; [reflexivity|]. intros p Hp. rewrite orb_false_r. reflexivity.
  - inversion Hl as [|? ? Hi Hl']; subst.
    subst r. cbn [map clock_bits fold_left fst snd combine existsb].
    unfold word_step at 2 4.
    destruct (IH (ret .| u32 (fst (crypto1_bit s (BEBIT in_ i) e) .<< ((24 .^ i) .& 0x1F)))
                 (snd (crypto1_bit s (BEBIT in_ i) e)) Hl') as [IHs IHb].
    split; [exact IHs|].
    intros p Hp. rewrite IHb by exact Hp.
    rewrite orb_assoc. f_equal.
    rewrite Z.lor_spec. f_equal.
    fold (word_pos i). unfold u32.
    rewrite Z.testbit_mod_pow2 by lia. rewrite Z.shiftl_spec by lia.
    rewrite is_bit_testbit by apply crypto1_bit_out_is_bit.
    destruct (Z.eqb_spec (word_pos i) p) as [Heq|Hne].
    + rewrite <- Heq, Z.sub_diag. cbn [Z.eqb andb].
      replace (word_pos i <? 32) with true by (symmetry; apply Z.ltb_lt; lia).
      reflexivity.
    + replace (p - word_pos i =? 0) with false by (symmetry; apply Z.eqb_neq; lia).
      cbn [andb]. apply andb_false_r.
Qed.

Lemma crypto1_word_fold (s : Crypto1State) (in_ e : Z) :
  crypto1_word s in_ e = fold_left (word_step in_ e) (upto 32) (0, s).
Proof. reflexivity. Qed.

Lemma word_pos_upto : Forall (fun i => 0 <= word_pos i < 32) (upto 32).
Proof. repeat constructor; vm_compute; discriminate. Qed.

Lemma Forall_is_bit_nth (l : list Z) (k : nat) : Forall is_bit l -> is_bit (nth k l 0).
Proof.
  intros H. destruct (Nat.lt_ge_cases k (length l)) as [Hlt|Hge].
  - rewrite Forall_forall in H. apply H. apply nth_In. exact Hlt.
  - rewrite nth_overflow by exact Hge. left. reflexivity.
Qed.

(** Decides the closed position tests left by [word_fold]. *)
Ltac eval_word_pos :=
  repeat match goal with
    | |- context [word_pos ?a =? ?b] =>
        let v := eval vm_compute in (word_pos a =? b) in
        change (word_pos a =? b) with v
    end.

End Crapto1Facts.
Import Crapto1Facts.

(** ** The byte-split implementation *)
Module Crypto1Facts.
Import HexUtils Crapto1 Crypto1.

(** *** The chunked PRNG *)

Lemma prng_chunks_chunk (T : Z) :
  prng_chunks T = prng_chunk 10 (prng_chunk 11 (prng_chunk 11 T)).
Proof. reflexivity. Qed.

Lemma prng_chunk_testbit (n T i : Z) :
  1 <= n <= 11 -> 0 <= T < 2 ^ 32 -> 0 <= i ->
  Z.testbit (prng_chunk n T) i
  = if i <? 32 - n then Z.testbit T (i + n)
    else if i <? 32 then prng_tap T (i - (32 - n)) else false.
Proof.
  intros Hn HT Hi. unfold prng_chunk, u16, u32.
  rewrite Z.lor_spec, Z.shiftr_spec, Z.testbit_mod_pow2, Z.shiftl_spec by lia.
  destruct (Z.ltb_spec i (32 - n)) as [Hlo|Hhi].
  - rewrite (Z.testbit_neg_r _ (i - (32 - n))) by lia.
    rewrite andb_false_r, orb_false_r. reflexivity.
  - rewrite (testbit_high 32 T (i + n)) by lia. cbn [orb].
    destruct (Z.ltb_spec i 32) as [Hlt|Hge]; [|reflexivity]. cbn [andb].
    unfold prng_tap. zbits.
    rewrite !ltb_true by lia. cbn [andb].
    set (m := i - (32 - n)).
    replace (m + 16) with (16 + m) by lia.
    replace (m + 3 + 16) with (19 + m) by lia.
    replace (m + 2 + 16) with (18 + m) by lia.
    replace (m + 2 + 3 + 16) with (21 + m) by lia.
    destruct (Z.testbit T (16 + m)), (Z.testbit T (18 + m)),
      (Z.testbit T (19 + m)), (Z.testbit T (21 + m)); reflexivity.
Qed.

Lemma prng_step_testbit (x i : Z) :
  0 <= x < 2 ^ 32 -> 0 <= i ->
  Z.testbit (prng_step x) i
  = if i <? 31 then Z.testbit x (i + 1)
    else if i <? 32 then prng_tap x 0 else false.
Proof.
  intros Hx Hi. unfold prng_step, u32.
  rewrite Z.lor_spec, Z.shiftr_spec, Z.testbit_mod_pow2, Z.shiftl_spec by lia.
  destruct (Z.ltb_spec i 31) as [Hlo|Hhi].
  - rewrite (Z.testbit_neg_r _ (i - 31)) by lia.
    rewrite andb_false_r, orb_false_r. reflexivity.
  - rewrite (testbit_high 32 x (i + 1)) by lia. cbn [orb].
    destruct (Z.ltb_spec i 32) as [Hlt|Hge]; [|reflexivity]. cbn [andb].
    replace (i - 31) with 0 by lia. unfold prng_tap. zbits. reflexivity.
Qed.

Lemma prng_iter_range (k : nat) (x : Z) :
  0 <= x < 2 ^ 32 -> 0 <= Nat.iter k prng_step x < 2 ^ 32.
Proof. intros Hx. apply prng_iter_ref_eq. exact Hx. Qed.

Lemma prng_iter_testbit (k : nat) (x i : Z) :
  (1 <= k <= 11)%nat -> 0 <= x < 2 ^ 32 -> 0 <= i ->
  Z.testbit (Nat.iter k prng_step x) i
  = if i <? 32 - Z.of_nat k then Z.testbit x (i + Z.of_nat k)
    else if i <? 32 then prng_tap x (i - (32 - Z.of_nat k)) else false.
Proof.
  intros Hk Hx. revert i. induction k as [|k IH]; [lia|]. intros i Hi.
  change (Nat.iter (S k) prng_step x) with (prng_step (Nat.iter k prng_step x)).
  rewrite prng_step_testbit by (try apply prng_iter_range; assumption).
  destruct k as [|k].
  - change (Nat.iter 0 prng_step x) with x.
    change (Z.of_nat 1) with 1. change (32 - 1) with 31.
    destruct (Z.ltb_spec i 31); [reflexivity|].
    destruct (Z.ltb_spec i 32); [|reflexivity].
    replace (i - 31) with 0 by lia. reflexivity.
  - assert (Hk' : (1 <= S k <= 11)%nat) by lia.
    destruct (Z.ltb_spec i 31) as [Hlo|Hhi].
    + rewrite (IH Hk' (i + 1)) by lia.
      destruct (Z.ltb_spec (i + 1) (32 - Z.of_nat (S k))) as [H1|H1].
      * rewrite ltb_true by lia. f_equal. lia.
      * rewrite (ltb_false i) by lia. rewrite !ltb_true by lia. f_equal. lia.
    + rewrite (ltb_false i (32 - _)) by lia.
      destruct (Z.ltb_spec i 32) as [Hlt|Hge]; [|reflexivity].
      unfold prng_tap.
      rewrite !(IH Hk') by lia.
      rewrite !ltb_true by lia.
      repeat match goal with |- Z.testbit x ?a = Z.testbit x ?b => f_equal; lia
             | |- xorb _ _ = xorb _ _ => f_equal end.
Qed.

Lemma prng_chunk_range (n T : Z) :
  1 <= n <= 11 -> 0 <= T < 2 ^ 32 -> 0 <= prng_chunk n T < 2 ^ 32.
Proof.
  intros Hn HT. apply bits_range; [lia|]. intros i Hi.
  rewrite prng_chunk_testbit by lia. rewrite !ltb_false by lia. reflexivity.
Qed.

Lemma prng_chunk_iter (k : nat) (T : Z) :
  (1 <= k <= 11)%nat -> 0 <= T < 2 ^ 32 ->
  prng_chunk (Z.of_nat k) T = Nat.iter k prng_step T.
Proof.
  intros Hk HT. apply Z.bits_inj'. intros i Hi.
  rewrite prng_chunk_testbit, prng_iter_testbit by lia. reflexivity.
Qed.

Lemma prng_chunks_iter (T : Z) :
  0 <= T < 2 ^ 32 -> prng_chunks T = Nat.iter 32 prng_step T.
Proof.
  intros HT. rewrite prng_chunks_chunk.
  change 32%nat with (10 + (11 + 11))%nat. rewrite !iter_add.
  change 11 with (Z.of_nat 11). change 10 with (Z.of_nat 10).
  rewrite (prng_chunk_iter 11 T) by (lia || assumption).
  rewrite (prng_chunk_iter 11) by (try apply prng_iter_range; lia || assumption).
  rewrite (prng_chunk_iter 10) by (try (do 2 apply prng_iter_range); lia || assumption).
  reflexivity.
Qed.

Lemma le32_byte (a b c d : Z) (k : Z) :
  is_byte a -> is_byte b -> is_byte c -> is_byte d -> 0 <= k < 4 ->
  ((((a .| (b .<< 8)) .| (c .<< 16)) .| (d .<< 24)) .>> (8 * k)) .& 0xFF
  = if k =? 0 then a else if k =? 1 then b else if k =? 2 then c else d.
Proof.
  intros Ha Hb Hc Hd Hk. apply Z.bits_inj'. intros i Hi.
  change 255 with (Z.ones 8). zbits. rewrite Z.testbit_ones_nonneg by lia.
  assert (Hk' : k = 0 \/ k = 1 \/ k = 2 \/ k = 3) by lia.
  destruct (Z.ltb_spec i 8) as [Hlt|Hge].
  - rewrite andb_true_r.
    destruct Hk' as [-> | [-> | [-> | ->]]]; cbn [Z.eqb Z.mul Pos.mul Pos.eqb]; byte_bits.
    all: match goal with
         | |- Z.testbit ?x ?p = Z.testbit ?x ?q => replace p with q by lia; reflexivity
         end.
  - rewrite andb_false_r.
    unfold is_byte in *.
    destruct Hk' as [-> | [-> | [-> | ->]]]; cbn [Z.eqb Pos.eqb]; symmetry;
      apply (testbit_high 8); lia.
Qed.

(** [__REV] of a word assembled from four bytes reverses their order. *)
Lemma REV_bytes (a b c d : Z) :
  is_byte a -> is_byte b -> is_byte c -> is_byte d ->
  __REV (((a .| (b .<< 8)) .| (c .<< 16)) .| (d .<< 24))
  = (((a .<< 24) .| (b .<< 16)) .| (c .<< 8)) .| d.
Proof.
  intros Ha Hb Hc Hd. unfold __REV.
  pose proof (le32_byte a b c d 0 Ha Hb Hc Hd ltac:(lia)) as E0.
  pose proof (le32_byte a b c d 1 Ha Hb Hc Hd ltac:(lia)) as E1.
  pose proof (le32_byte a b c d 2 Ha Hb Hc Hd ltac:(lia)) as E2.
  pose proof (le32_byte a b c d 3 Ha Hb Hc Hd ltac:(lia)) as E3.
  cbn [Z.eqb Z.mul Pos.mul Pos.eqb] in E0, E1, E2, E3.
  rewrite Z.shiftr_0_r in E0.
  rewrite E0, E1, E2, E3. reflexivity.
Qed.

Lemma REV_bytes_be (a b c d : Z) :
  is_byte a -> is_byte b -> is_byte c -> is_byte d ->
  __REV ((((a .<< 24) .| (b .<< 16)) .| (c .<< 8)) .| d)
  = ((a .| (b .<< 8)) .| (c .<< 16)) .| (d .<< 24).
Proof.
  intros Ha Hb Hc Hd. rewrite lor4_rev. rewrite REV_bytes by assumption.
  apply lor4_rev.
Qed.

Lemma prng_loop_spec (fuel : nat) (T cc : Z) :
  0 <= T < 2 ^ 32 -> 0 <= cc < 256 -> cc / 32 <= Z.of_nat fuel ->
  prng_loop fuel T cc = (Nat.iter (32 * Z.to_nat (cc / 32)) prng_step T, cc mod 32).
Proof.
  revert T cc. induction fuel as [|fuel IH]; intros T cc HT Hcc Hfuel.
  - assert (Hz : cc / 32 = 0) by (pose proof (Z.div_pos cc 32); lia).
    rewrite Hz. cbn [prng_loop]. change (Z.to_nat 0) with 0%nat.
    rewrite Nat.mul_0_r. change (Nat.iter 0 prng_step T) with T.
    f_equal. symmetry. apply Z.mod_small. apply Z.div_small_iff in Hz; lia.
  - cbn [prng_loop]. destruct (Z.leb_spec 32 cc) as [Hge|Hlt].
    + assert (Hu : u8 (cc - 32) = cc - 32) by (unfold u8; apply Z.mod_small; lia).
      assert (Hd : (cc - 32) / 32 = cc / 32 - 1).
      { replace (cc - 32) with (cc + (-1) * 32) by lia. rewrite Z.div_add by lia. lia. }
      assert (Hm : (cc - 32) mod 32 = cc mod 32).
      { replace (cc - 32) with (cc + (-1) * 32) by lia. apply Z.mod_add. lia. }
      assert (Hpos : 1 <= cc / 32).
      { apply Z.div_le_lower_bound; lia. }
      rewrite Hu, IH; try lia.
      * rewrite Hd, Hm. f_equal.
        rewrite prng_chunks_iter by exact HT. rewrite <- iter_add. f_equal. lia.
      * rewrite prng_chunks_iter by exact HT. apply prng_iter_range. exact HT.
    + assert (Hz : cc / 32 = 0) by (apply Z.div_small; lia).
      rewrite Hz. change (Z.to_nat 0) with 0%nat.
      rewrite Nat.mul_0_r. change (Nat.iter 0 prng_step T) with T.
      f_equal. symmetry. apply Z.mod_small. lia.
Qed.

Lemma le32_range (a b c d : Z) :
  is_byte a -> is_byte b -> is_byte c -> is_byte d ->
  0 <= ((a .| (b .<< 8)) .| (c .<< 16)) .| (d .<< 24) < 2 ^ 32.
Proof.
  intros Ha Hb Hc Hd. apply bits_range; [lia|]. intros i Hi. zbits. byte_bits.
  reflexivity.
Qed.

(** The four bytes stored back are the bytes of the word. *)
Lemma store_bytes_be (T : Z) :
  (((u8 T .<< 24) .| (u8 (T .>> 8) .<< 16)) .| (u8 (T .>> 16) .<< 8)) .| u8 (T .>> 24)
  = __REV T.
Proof. rewrite !u8_land. reflexivity. Qed.

Lemma store_bytes_le (a b c d : Z) :
  is_byte a -> is_byte b -> is_byte c -> is_byte d ->
  let T := ((a .| (b .<< 8)) .| (c .<< 16)) .| (d .<< 24) in
  [u8 T; u8 (T .>> 8); u8 (T .>> 16); u8 (T .>> 24)] = [a; b; c; d].
Proof.
  intros Ha Hb Hc Hd T. rewrite !u8_land.
  pose proof (le32_byte a b c d 0 Ha Hb Hc Hd ltac:(lia)) as E0.
  pose proof (le32_byte a b c d 1 Ha Hb Hc Hd ltac:(lia)) as E1.
  pose proof (le32_byte a b c d 2 Ha Hb Hc Hd ltac:(lia)) as E2.
  pose proof (le32_byte a b c d 3 Ha Hb Hc Hd ltac:(lia)) as E3.
  cbn [Z.eqb Z.mul Pos.mul Pos.eqb] in E0, E1, E2, E3.
  rewrite Z.shiftr_0_r in E0. fold T in E0, E1, E2, E3.
  rewrite E0, E1, E2, E3. reflexivity.
Qed.

Lemma bytes_to_num_4 (a b c d : Z) :
  is_byte a -> is_byte b -> is_byte c -> is_byte d ->
  bytes_to_num [a; b; c; d] 4 = (((a .<< 24) .| (b .<< 16)) .| (c .<< 8)) .| d.
Proof.
  intros Ha Hb Hc Hd. unfold bytes_to_num. cbn [Z.eqb Pos.eqb].
  change (idx [a; b; c; d] 0) with a. change (idx [a; b; c; d] 1) with b.
  change (idx [a; b; c; d] 2) with c. change (idx [a; b; c; d] 3) with d.
  rewrite !shift_byte_u32 by (try assumption; lia). reflexivity.
Qed.

Lemma Crypto1PRNG_unfold (a b c d cc : Z) :
  Crypto1PRNG [a; b; c; d] cc
  = let T := fst (prng_loop 8 (((a .| (b .<< 8)) .| (c .<< 16)) .| (d .<< 24)) cc) in
    [u8 T; u8 (T .>> 8); u8 (T .>> 16); u8 (T .>> 24)].
Proof. reflexivity. Qed.

(** *** The two filters *)

Lemma packed_testbit (b : bytes3) (k : Z) :
  0 <= k ->
  Z.testbit (packed b) k = (k <? 24) && Z.testbit (le24 b) (23 - k).
Proof.
  intros Hk. unfold packed. rewrite <- (Z2Nat.id k) at 1 by exact Hk.
  rewrite bits_msb_testbit.
  - rewrite length_map. change (length (upto 24)) with 24%nat.
    destruct (Z.ltb_spec k 24) as [Hlt|Hge].
    + replace (Z.to_nat k <? 24)%nat with true by (symmetry; apply Nat.ltb_lt; lia).
      cbn [andb].
      rewrite (nth_indep _ 0 (BIT (le24 b) 0))
        by (rewrite length_map; change (length (upto 24)) with 24%nat; lia).
      rewrite map_nth.
      rewrite upto_nth by lia. rewrite BIT_eqb by lia. f_equal. lia.
    + replace (Z.to_nat k <? 24)%nat with false by (symmetry; apply Nat.ltb_ge; lia).
      reflexivity.
  - apply Forall_is_bit_map. intros i Hi. apply BIT_is_bit.
    unfold upto in Hi. apply in_map_iff in Hi. destruct Hi as [n [<- _]]. lia.
  - rewrite length_map. vm_compute. discriminate.
Qed.

Lemma le24_testbit (O0 O1 O2 m : Z) :
  0 <= m ->
  Z.testbit (le24 (O0, O1, O2)) m
  = Z.testbit O0 m || Z.testbit O1 (m - 8) || Z.testbit O2 (m - 16).
Proof. intros Hm. unfold le24. zbits. reflexivity. Qed.

(** A nibble of the packed half depends on one byte of the split half. *)
Lemma packed_nibble (O0 O1 O2 j : Z) :
  is_byte O0 -> is_byte O1 -> is_byte O2 -> 0 <= j < 5 ->
  (packed (O0, O1, O2) .>> (4 * j)) .& 0xf
  = (packed (if j <? 4 then 0 else O0,
             if j <? 2 then 0 else if j <? 4 then O1 else 0,
             if j <? 2 then O2 else 0) .>> (4 * j)) .& 0xf.
Proof.
  intros H0 H1 H2 Hj.
  assert (Hz : is_byte 0) by (unfold is_byte; lia).
  apply Z.bits_inj'. intros i Hi. change 15 with (Z.ones 4).
  rewrite !Z.land_spec, !Z.shiftr_spec, !Z.testbit_ones_nonneg by lia.
  destruct (Z.ltb_spec i 4) as [Hlt|Hge]; [|rewrite !andb_false_r; reflexivity].
  rewrite !andb_true_r. rewrite !packed_testbit by lia.
  rewrite !ltb_true by lia. cbn [andb].
  assert (Hj' : j = 0 \/ j = 1 \/ j = 2 \/ j = 3 \/ j = 4) by lia.
  destruct Hj' as [-> | [-> | [-> | [-> | ->]]]]; cbn [Z.ltb Z.compare Pos.compare Pos.compare_cont];
    rewrite !le24_testbit by lia; rewrite ?Z.testbit_0_l; byte_bits; reflexivity.
Qed.

Lemma abFilter2_packed (b : Z) :
  is_byte b ->
  abFilter 2 b
  = ((0xf22c0 .>> ((packed (0, 0, b) .>> (4 * 0)) .& 0xf)) .& 16)
      .| ((0x6c9c0 .>> ((packed (0, 0, b) .>> (4 * 1)) .& 0xf)) .& 8).
Proof.
  intros Hb. apply Z.eqb_eq.
  apply (forall_upto 256
           (fun b => abFilter 2 b
                     =? ((0xf22c0 .>> ((packed (0, 0, b) .>> (4 * 0)) .& 0xf)) .& 16)
                          .| ((0x6c9c0 .>> ((packed (0, 0, b) .>> (4 * 1)) .& 0xf)) .& 8)));
    [vm_compute; reflexivity | exact Hb].
Qed.

Lemma abFilter1_packed (b : Z) :
  is_byte b ->
  abFilter 1 b
  = ((0x3c8b0 .>> ((packed (0, b, 0) .>> (4 * 2)) .& 0xf)) .& 4)
      .| ((0x1e458 .>> ((packed (0, b, 0) .>> (4 * 3)) .& 0xf)) .& 2).
Proof.
  intros Hb. apply Z.eqb_eq.
  apply (forall_upto 256
           (fun b => abFilter 1 b
                     =? ((0x3c8b0 .>> ((packed (0, b, 0) .>> (4 * 2)) .& 0xf)) .& 4)
                          .| ((0x1e458 .>> ((packed (0, b, 0) .>> (4 * 3)) .& 0xf)) .& 2)));
    [vm_compute; reflexivity | exact Hb].
Qed.

Lemma abFilter0_packed (b : Z) :
  is_byte b ->
  abFilter 0 b = (0x0d938 .>> ((packed (b, 0, 0) .>> (4 * 4)) .& 0xf)) .& 1.
Proof.
  intros Hb. apply Z.eqb_eq.
  apply (forall_upto 256
           (fun b => abFilter 0 b
                     =? (0x0d938 .>> ((packed (b, 0, 0) .>> (4 * 4)) .& 0xf)) .& 1));
    [vm_compute; reflexivity | exact Hb].
Qed.

Lemma abFilter_range (k : nat) (b : Z) : is_byte b -> 0 <= abFilter k b < 32.
Proof.
  intros Hb.
  assert (H : ((0 <=? abFilter k b) && (abFilter k b <? 32)) = true).
  { destruct k as [|[|[|k]]].
    1-3: apply (forall_upto 256 (fun b => (0 <=? abFilter _ b) && (abFilter _ b <? 32)));
      [vm_compute; reflexivity | exact Hb].
    unfold abFilter, idx. cbn [nth abFilterTable]. destruct k; destruct (Z.to_nat b); reflexivity. }
  apply andb_true_iff in H. destruct H as [H1 H2].
  apply Z.leb_le in H1. apply Z.ltb_lt in H2. lia.
Qed.

Lemma filter_index_range (O0 O1 O2 : Z) :
  is_byte O0 -> is_byte O1 -> is_byte O2 -> 0 <= filter_index (O0, O1, O2) < 32.
Proof.
  intros H0 H1 H2. unfold filter_index.
  change 32 with (2 ^ 5). repeat apply lor_range; try lia; apply abFilter_range; assumption.
Qed.

Lemma TableC_lookup (i : Z) :
  0 <= i < 32 ->
  idx TableC0 i = BIT 0xEC57E80A i
  /\ idx TableC3 i = BIT 0xEC57E80A i .<< 3
  /\ idx TableC7 i = BIT 0xEC57E80A i .<< 7.
Proof.
  intros Hi.
  assert (H : ((idx TableC0 i =? BIT 0xEC57E80A i)
               && (idx TableC3 i =? BIT 0xEC57E80A i .<< 3)
               && (idx TableC7 i =? BIT 0xEC57E80A i .<< 7)) = true).
  { apply (forall_upto 32
             (fun i => (idx TableC0 i =? BIT 0xEC57E80A i)
                       && (idx TableC3 i =? BIT 0xEC57E80A i .<< 3)
                       && (idx TableC7 i =? BIT 0xEC57E80A i .<< 7)));
      [vm_compute; reflexivity | exact Hi]. }
  apply andb_true_iff in H. destruct H as [H H7].
  apply andb_true_iff in H. destruct H as [H0 H3].
  apply Z.eqb_eq in H0, H3, H7. auto.
Qed.

(** The bit-math filter of the packed half reads the table index of
    the byte-split half. *)
Lemma filter_packed_index (O0 O1 O2 : Z) :
  is_byte O0 -> is_byte O1 -> is_byte O2 ->
  filter (packed (O0, O1, O2)) = BIT 0xEC57E80A (filter_index (O0, O1, O2)).
Proof.
  intros H0 H1 H2. unfold filter, filter_index.
  rewrite (abFilter0_packed O0 H0), (abFilter1_packed O1 H1), (abFilter2_packed O2 H2).
  pose proof (packed_nibble O0 O1 O2 0 H0 H1 H2 ltac:(lia)) as N0.
  pose proof (packed_nibble O0 O1 O2 1 H0 H1 H2 ltac:(lia)) as N1.
  pose proof (packed_nibble O0 O1 O2 2 H0 H1 H2 ltac:(lia)) as N2.
  pose proof (packed_nibble O0 O1 O2 3 H0 H1 H2 ltac:(lia)) as N3.
  pose proof (packed_nibble O0 O1 O2 4 H0 H1 H2 ltac:(lia)) as N4.
  cbn [Z.ltb Z.compare Pos.compare Pos.compare_cont] in N0, N1, N2, N3, N4.
  rewrite <- N0, <- N1, <- N2, <- N3, <- N4.
  change (4 * 0) with 0. change (4 * 1) with 4. change (4 * 2) with 8.
  change (4 * 3) with 12. change (4 * 4) with 16. rewrite Z.shiftr_0_r.
  f_equal. apply lor5_regroup.
Qed.

(** *** The nested setup *)

Lemma Crypto1LFSR_feedback (State : Crypto1LfsrState_t) (In : Z) :
  Crypto1LFSR State In
  = {| Even := Odd State;
       Odd := SHIFT24 (Even State)
                (Crypto1LFSRbyteFeedback (Even State) (Odd State) .^ In) |}.
Proof.
  destruct State as [[[E0 E1] E2] [[O0 O1] O2]].
  unfold Crypto1LFSR, Crypto1LFSRbyteFeedback. cbn [Even Odd].
  rewrite !Z.shiftr_0_r. reflexivity.
Qed.

Lemma feedback_is_bit (Ev Od : bytes3) : is_bit (Crypto1LFSRbyteFeedback Ev Od).
Proof.
  destruct Ev as [[E0 E1] E2], Od as [[O0 O1] O2]. unfold Crypto1LFSRbyteFeedback.
  cbv beta iota zeta.
  match goal with |- is_bit (?x .& 1) => generalize x; intros v end.
  change 1 with (Z.ones 1). rewrite Z.land_ones by lia. change (2 ^ 1) with 2.
  unfold is_bit. pose proof (Z.mod_pos_bound v 2). lia.
Qed.

Lemma SHIFT24_COND_DECRYPT_off (b : bytes3) (fb stream : Z) :
  is_bit fb -> SHIFT24_COND_DECRYPT b fb stream false = SHIFT24 b fb.
Proof.
  intros Hfb. destruct b as [[b0 b1] b2]. unfold SHIFT24_COND_DECRYPT, SHIFT24.
  cbn [Z.b2z]. rewrite Z.land_0_r, Z.lxor_0_r, (is_bit_land1 fb Hfb). reflexivity.
Qed.

(** One pass of the bit loop at an even [bit]: the registers hold the
    clocked state with the two halves exchanged. *)
Lemma nested_bit_even (r : NestedRegs) (bit : Z) :
  nonzero (bit .& 1) = false ->
  let st := Crypto1LFSR {| Even := nEven r; Odd := nOdd r |} (BIT (nIn r) 0) in
  let r' := nested_bit false r bit in
  nEven r' = Odd st /\ nOdd r' = Even st /\ nIn r' = nIn r .>> 1.
Proof.
  intros Hbit st r'. subst st r'. rewrite Crypto1LFSR_feedback. cbn [Even Odd].
  unfold nested_bit. rewrite Hbit.
  destruct (bit =? 0); cbn [nEven nOdd nIn];
    (rewrite SHIFT24_COND_DECRYPT_off
       by (apply lxor_is_bit; [apply feedback_is_bit | apply land1_is_bit]));
    unfold BIT; rewrite Z.shiftr_0_r; auto.
Qed.

Lemma nested_bit_odd (r : NestedRegs) (bit : Z) :
  nonzero (bit .& 1) = true ->
  let st := Crypto1LFSR {| Even := nOdd r; Odd := nEven r |} (BIT (nIn r) 0) in
  let r' := nested_bit false r bit in
  nEven r' = Even st /\ nOdd r' = Odd st /\ nIn r' = nIn r .>> 1.
Proof.
  intros Hbit st r'. subst st r'. rewrite Crypto1LFSR_feedback. cbn [Even Odd].
  unfold nested_bit. rewrite Hbit.
  destruct (bit =? 0); cbn [nEven nOdd nIn];
    (rewrite SHIFT24_COND_DECRYPT_off
       by (apply lxor_is_bit; [apply feedback_is_bit | apply land1_is_bit]));
    unfold BIT; rewrite Z.shiftr_0_r; auto.
Qed.

Lemma state_eta (st : Crypto1LfsrState_t) : {| Even := Even st; Odd := Odd st |} = st.
Proof. destruct st; reflexivity. Qed.

(** Two passes of the bit loop, the first at an even [bit], are two
    clocks of the state held in the registers. *)
Lemma nested_bit_pair (r : NestedRegs) (bit : Z) :
  nonzero (bit .& 1) = false -> nonzero ((bit + 1) .& 1) = true ->
  let r' := nested_bit false (nested_bit false r bit) (bit + 1) in
  {| Even := nEven r'; Odd := nOdd r' |}
  = Crypto1LFSR (Crypto1LFSR {| Even := nEven r; Odd := nOdd r |} (BIT (nIn r) 0))
      (BIT (nIn r) 1)
  /\ nIn r' = nIn r .>> 2.
Proof.
  intros He Ho r'. subst r'.
  destruct (nested_bit_even r bit He) as [E1 [O1 I1]].
  destruct (nested_bit_odd (nested_bit false r bit) (bit + 1) Ho) as [E2 [O2 I2]].
  rewrite E2, O2, I2. rewrite E1, O1, I1. rewrite !state_eta.
  rewrite BIT_shiftr by lia. rewrite Z.shiftr_shiftr by lia. split; reflexivity.
Qed.

Lemma nested_bits_state (Ev Od : bytes3) (ks Out0 inb : Z) :
  let r := fold_left (nested_bit false) (upto 8) (mkNested Ev Od ks Out0 inb) in
  {| Even := nEven r; Odd := nOdd r |} = clock8 {| Even := Ev; Odd := Od |} inb.
Proof.
  intros r. subst r. unfold clock8. rewrite !fold_upto_8.
  set (r0 := mkNested Ev Od ks Out0 inb).
  destruct (nested_bit_pair r0 0 eq_refl eq_refl) as [S2 I2].
  change (0 + 1) with 1 in S2, I2.
  set (r2 := nested_bit false (nested_bit false r0 0) 1) in *.
  destruct (nested_bit_pair r2 2 eq_refl eq_refl) as [S4 I4].
  change (2 + 1) with 3 in S4, I4.
  set (r4 := nested_bit false (nested_bit false r2 2) 3) in *.
  destruct (nested_bit_pair r4 4 eq_refl eq_refl) as [S6 I6].
  change (4 + 1) with 5 in S6, I6.
  set (r6 := nested_bit false (nested_bit false r4 4) 5) in *.
  destruct (nested_bit_pair r6 6 eq_refl eq_refl) as [S8 I8].
  change (6 + 1) with 7 in S8, I8.
  rewrite S8, S6, S4, S2. rewrite I6, I4, I2.
  subst r0. cbn [nEven nOdd nIn].
  rewrite !Z.shiftr_shiftr by lia. rewrite !BIT_shiftr by lia.
  reflexivity.
Qed.

Lemma TableC0_is_bit (i : Z) : is_bit (idx TableC0 i).
Proof.
  apply idx_in_or_default; [|left; reflexivity].
  unfold TableC0. repeat (apply Forall_cons; [vm_compute; auto|]). apply Forall_nil.
Qed.

Lemma TableC7_top (i : Z) : idx TableC7 i = 0 \/ idx TableC7 i = 128.
Proof.
  apply (idx_in_or_default TableC7 i (fun v => v = 0 \/ v = 128)); [|left; reflexivity].
  unfold TableC7. repeat (apply Forall_cons; [vm_compute; auto|]). apply Forall_nil.
Qed.

Lemma filter_output_is_bit (st : Crypto1LfsrState_t) : is_bit (Crypto1FilterOutput st).
Proof. apply TableC0_is_bit. Qed.

(** Away from the first bit, a pass of the bit loop moves the keystream
    byte down by one place. *)
Lemma nested_bit_keystream (d : bool) (r : NestedRegs) (bit j : Z) :
  (bit =? 0) = false -> 0 <= j < 7 ->
  Z.testbit (nKeyStream (nested_bit d r bit)) j = Z.testbit (nKeyStream r) (j + 1).
Proof.
  intros Hbit Hj. unfold nested_bit. rewrite Hbit.
  assert (H : forall o, o = 0 \/ o = 128 ->
                        Z.testbit (u8 ((nKeyStream r .>> 1) .| o)) j
                        = Z.testbit (nKeyStream r) (j + 1)).
  { intros o Ho. unfold u8. zbits. rewrite (proj2 (Z.ltb_lt j 8)) by lia. cbn [andb].
    destruct Ho as [-> | ->].
    - rewrite Z.testbit_0_l. apply orb_false_r.
    - change 128 with (1 .<< 7). rewrite Z.shiftl_spec by lia.
      rewrite (Z.testbit_neg_r 1 (j - 7)) by lia.
      apply orb_false_r. }
  destruct (nonzero (bit .& 1)); cbn [nKeyStream]; apply H; apply TableC7_top.
Qed.

(** The first pass puts the carried filter output at the top. *)
Lemma nested_bit_keystream_first (d : bool) (r : NestedRegs) :
  nKeyStream r = 0 ->
  Z.testbit (nKeyStream (nested_bit d r 0)) 7 = Z.testbit (nOut r) 0.
Proof.
  intros Hks. unfold nested_bit. cbn [Z.eqb Z.land nonzero negb nKeyStream].
  rewrite Hks. unfold SHIFT8, u8. zbits. change (7 - 7) with 0.
  change (Z.testbit 1 0) with true. change (7 <? 8) with true. cbn [andb].
  rewrite Z.testbit_0_l, andb_true_r. reflexivity.
Qed.

Lemma nested_bits_keystream (Ev Od : bytes3) (Out0 inb : Z) :
  let r := fold_left (nested_bit false) (upto 8) (mkNested Ev Od 0 Out0 inb) in
  Z.testbit (nKeyStream r) 0 = Z.testbit Out0 0.
Proof.
  intros r. subst r. rewrite fold_upto_8.
  do 7 (rewrite nested_bit_keystream by (reflexivity || lia)).
  cbn [Z.add Pos.add Pos.succ].
  rewrite nested_bit_keystream_first by reflexivity. reflexivity.
Qed.

Lemma record_eq_proj (a b : bytes3) (st : Crypto1LfsrState_t) :
  {| Even := a; Odd := b |} = st -> a = Even st /\ b = Odd st.
Proof. intros <-. split; reflexivity. Qed.

(** One nonce byte of [Crypto1SetupNested], entered with the registers
    holding [st] and the carried filter output that of [st]. *)
Lemma nested_byte_spec (Uid CardNonce NonceParity : list Z) (st : Crypto1LfsrState_t)
      (b : Z) :
  let c := idx CardNonce b in
  let st' := clock8 st (c .^ idx Uid b) in
  exists ks,
    Z.testbit ks 0 = Z.testbit (Crypto1FilterOutput st) 0
    /\ nested_byte false Uid
         (mkLoop (Even st) (Odd st) (CRYPTO1_FILTER_OUTPUT_B0_24 (Odd st))
            CardNonce NonceParity) b
       = mkLoop (Even st') (Odd st') (CRYPTO1_FILTER_OUTPUT_B0_24 (Odd st'))
           (upd CardNonce b (c .^ ks))
           (upd NonceParity b (oddparity8 c .^ Crypto1FilterOutput st')).
Proof.
  intros c st'. subst c st'.
  unfold Crypto1FilterOutput.
  pose proof (nested_bits_state (Even st) (Odd st) 0 (CRYPTO1_FILTER_OUTPUT_B0_24 (Odd st))
                (idx CardNonce b .^ idx Uid b)) as Hst.
  pose proof (nested_bits_keystream (Even st) (Odd st)
                (CRYPTO1_FILTER_OUTPUT_B0_24 (Odd st))
                (idx CardNonce b .^ idx Uid b)) as Hks.
  cbv zeta in Hst, Hks. rewrite state_eta in Hst.
  apply record_eq_proj in Hst. destruct Hst as [HE HO].
  unfold nested_byte. cbn [lEven lOdd lOut lCardNonce lNonceParity].
  remember (fold_left (nested_bit false) (upto 8)
              (mkNested (Even st) (Odd st) 0 (CRYPTO1_FILTER_OUTPUT_B0_24 (Odd st))
                 (idx CardNonce b .^ idx Uid b))) as r eqn:Er.
  remember (clock8 st (idx CardNonce b .^ idx Uid b)) as st' eqn:Est.
  exists (nKeyStream r). split; [exact Hks|].
  unfold Crypto1FilterOutput. rewrite HE, HO. reflexivity.
Qed.

Lemma keystream_bit0 (c ks fo : Z) :
  is_bit fo -> Z.testbit ks 0 = Z.testbit fo 0 -> BIT ((c .^ ks) .^ c) 0 = fo.
Proof.
  intros Hfo Hks.
  rewrite (Z.lxor_comm c ks), Z.lxor_assoc, Z.lxor_nilpotent, Z.lxor_0_r.
  rewrite BIT_b2z by lia. rewrite Hks. rewrite is_bit_testbit by exact Hfo.
  cbn [Z.eqb andb]. apply is_bit_b2z. exact Hfo.
Qed.

Lemma nested_state_unfold (Key Uid CardNonce : list Z) :
  nested_state Key Uid CardNonce 0 = LoadKey Key
  /\ nested_state Key Uid CardNonce 1
     = clock8 (nested_state Key Uid CardNonce 0) (idx CardNonce 0 .^ idx Uid 0)
  /\ nested_state Key Uid CardNonce 2
     = clock8 (nested_state Key Uid CardNonce 1) (idx CardNonce 1 .^ idx Uid 1)
  /\ nested_state Key Uid CardNonce 3
     = clock8 (nested_state Key Uid CardNonce 2) (idx CardNonce 2 .^ idx Uid 2)
  /\ nested_state Key Uid CardNonce 4
     = clock8 (nested_state Key Uid CardNonce 3) (idx CardNonce 3 .^ idx Uid 3).
Proof.
  cbn [nested_state]. change (Z.of_nat 0) with 0. change (Z.of_nat 1) with 1.
  change (Z.of_nat 2) with 2. change (Z.of_nat 3) with 3.
  repeat split; reflexivity.
Qed.

(** What [Crypto1SetupNested] returns without decryption, in terms of
    the states between the nonce bytes. *)
Lemma setup_nested_result (Key Uid : list Z) (c0 c1 c2 c3 p0 p1 p2 p3 : Z) :
  exists ks0 ks1 ks2 ks3 : Z,
    (Z.testbit ks0 0
       = Z.testbit (Crypto1FilterOutput (nested_state Key Uid [c0; c1; c2; c3] 0)) 0
     /\ Z.testbit ks1 0
        = Z.testbit (Crypto1FilterOutput (nested_state Key Uid [c0; c1; c2; c3] 1)) 0
     /\ Z.testbit ks2 0
        = Z.testbit (Crypto1FilterOutput (nested_state Key Uid [c0; c1; c2; c3] 2)) 0
     /\ Z.testbit ks3 0
        = Z.testbit (Crypto1FilterOutput (nested_state Key Uid [c0; c1; c2; c3] 3)) 0)
    /\ Crypto1SetupNested Key Uid [c0; c1; c2; c3] [p0; p1; p2; p3] false
       = ([c0 .^ ks0; c1 .^ ks1; c2 .^ ks2; c3 .^ ks3],
          [oddparity8 c0 .^ Crypto1FilterOutput (nested_state Key Uid [c0; c1; c2; c3] 1);
           oddparity8 c1 .^ Crypto1FilterOutput (nested_state Key Uid [c0; c1; c2; c3] 2);
           oddparity8 c2 .^ Crypto1FilterOutput (nested_state Key Uid [c0; c1; c2; c3] 3);
           oddparity8 c3 .^ Crypto1FilterOutput (nested_state Key Uid [c0; c1; c2; c3] 4)],
          nested_state Key Uid [c0; c1; c2; c3] 4).
Proof.
  destruct (nested_state_unfold Key Uid [c0; c1; c2; c3]) as [S0 [S1 [S2 [S3 S4]]]].
  rewrite (proj1 (idx4 c0 c1 c2 c3)) in S1.
  rewrite (proj1 (proj2 (idx4 c0 c1 c2 c3))) in S2.
  rewrite (proj1 (proj2 (proj2 (idx4 c0 c1 c2 c3)))) in S3.
  rewrite (proj2 (proj2 (proj2 (idx4 c0 c1 c2 c3)))) in S4.
  remember (nested_state Key Uid [c0; c1; c2; c3]) as st eqn:Est. clear Est.
  unfold Crypto1SetupNested. cbv zeta. rewrite <- S0. rewrite fold_upto_4.
  destruct (nested_byte_spec Uid [c0; c1; c2; c3] [p0; p1; p2; p3] (st 0%nat) 0)
    as [ks0 [K0 E0]].
  cbv zeta in E0. rewrite E0. clear E0. buf4. rewrite <- S1.
  match goal with |- context [nested_byte false Uid (mkLoop _ _ _ ?cn ?np) 1] =>
    destruct (nested_byte_spec Uid cn np (st 1%nat) 1) as [ks1 [K1 E1]] end.
  cbv zeta in E1. rewrite E1. clear E1. buf4. rewrite <- S2.
  match goal with |- context [nested_byte false Uid (mkLoop _ _ _ ?cn ?np) 2] =>
    destruct (nested_byte_spec Uid cn np (st 2%nat) 2) as [ks2 [K2 E2]] end.
  cbv zeta in E2. rewrite E2. clear E2. buf4. rewrite <- S3.
  match goal with |- context [nested_byte false Uid (mkLoop _ _ _ ?cn ?np) 3] =>
    destruct (nested_byte_spec Uid cn np (st 3%nat) 3) as [ks3 [K3 E3]] end.
  cbv zeta in E3. rewrite E3. clear E3. buf4. rewrite <- S4.
  cbn [fst snd lEven lOdd lCardNonce lNonceParity]. rewrite state_eta.
  exists ks0, ks1, ks2, ks3. split; [auto|reflexivity].
Qed.

End Crypto1Facts.
Import Crypto1Facts.

(** ** Lists, buffers and single bits *)
Module ListFacts.
Import HexUtils Crapto1 Crypto1.

Lemma fst_pair {A B} (a : A) (b : B) : fst (a, b) = a.
Proof. reflexivity. Qed.

Lemma snd_pair {A B} (a : A) (b : B) : snd (a, b) = b.
Proof. reflexivity. Qed.

Lemma fold_cons {A B : Type} (f : A -> B -> A) (b : B) (l : list B) (a : A) :
  fold_left f (b :: l) a = fold_left f l (f a b).
Proof. reflexivity. Qed.

Lemma fold_nil {A B : Type} (f : A -> B -> A) (a : A) : fold_left f [] a = a.
Proof. reflexivity. Qed.

Lemma filter_one {A : Type} (f : A -> bool) (x : A) :
  List.filter f [x] = if f x then [x] else [].
Proof. reflexivity. Qed.

Lemma map_zero_repeat (l : list Z) : map (fun _ : Z => 0) l = repeat 0 (length l).
Proof. induction l as [|a l IH]; [reflexivity|]. cbn [map length repeat]. rewrite IH. reflexivity. Qed.

Lemma upto_S (n : nat) : upto (S n) = upto n ++ [Z.of_nat n].
Proof. unfold upto. rewrite seq_S, map_app. reflexivity. Qed.

Lemma upd_nat_length (a : list Z) (i : nat) (v : Z) : length (upd_nat a i v) = length a.
Proof.
  revert i. induction a as [|x a IH]; intros i; [reflexivity|].
  destruct i; cbn [upd_nat length]; [reflexivity | rewrite IH; reflexivity].
Qed.

Lemma upd_length (a : list Z) (i v : Z) : length (upd a i v) = length a.
Proof. apply upd_nat_length. Qed.

Lemma nth_upd_nat (a : list Z) (i j : nat) (v : Z) :
  nth j (upd_nat a i v) 0 = if (j =? i)%nat && (i <? length a)%nat then v else nth j a 0.
Proof.
  revert i j. induction a as [|x a IH]; intros i j.
  - cbn [upd_nat length]. rewrite Nat.ltb_irrefl || idtac.
    replace (i <? 0)%nat with false by (symmetry; apply Nat.ltb_ge; lia).
    rewrite andb_false_r. reflexivity.
  - destruct i, j; cbn [upd_nat nth length]; try reflexivity.
    rewrite IH. reflexivity.
Qed.

Lemma idx_upd (a : list Z) (i j v : Z) :
  0 <= i -> 0 <= j ->
  idx (upd a i v) j = if (j =? i) && (i <? Z.of_nat (length a)) then v else idx a j.
Proof.
  intros Hi Hj. unfold idx, upd. rewrite nth_upd_nat.
  replace (Z.to_nat j =? Z.to_nat i)%nat with (j =? i)
    by (destruct (Z.eqb_spec j i), (Nat.eqb_spec (Z.to_nat j) (Z.to_nat i)); try reflexivity; lia).
  replace (Z.to_nat i <? length a)%nat with (i <? Z.of_nat (length a))
    by (destruct (Z.ltb_spec i (Z.of_nat (length a))), (Nat.ltb_spec (Z.to_nat i) (length a));
        try reflexivity; lia).
  reflexivity.
Qed.

Lemma lxor_twice (a k : Z) : (a .^ k) .^ k = a.
Proof. rewrite Z.lxor_assoc, Z.lxor_nilpotent, Z.lxor_0_r. reflexivity. Qed.

Lemma u8_is_byte (v : Z) : is_byte (u8 v).
Proof. unfold is_byte, u8. pose proof (Z.mod_pos_bound v (2 ^ 8)). lia. Qed.

Lemma byte_bits_of_eq (x : Z) :
  byte_bits_of x
  = [BIT x 0; BIT x 1; BIT x 2; BIT x 3; BIT x 4; BIT x 5; BIT x 6; BIT x 7].
Proof. reflexivity. Qed.

Lemma byte_bits_of_zero : byte_bits_of 0 = repeat 0 8.
Proof. reflexivity. Qed.

Lemma byte_bits_of_length (x : Z) : length (byte_bits_of x) = 8%nat.
Proof. reflexivity. Qed.

Lemma shifted_bits (x : Z) :
  x .& 1 = BIT x 0
  /\ (x .>> 1) .& 1 = BIT x 1
  /\ ((x .>> 1) .>> 1) .& 1 = BIT x 2
  /\ (((x .>> 1) .>> 1) .>> 1) .& 1 = BIT x 3
  /\ ((((x .>> 1) .>> 1) .>> 1) .>> 1) .& 1 = BIT x 4
  /\ (((((x .>> 1) .>> 1) .>> 1) .>> 1) .>> 1) .& 1 = BIT x 5
  /\ ((((((x .>> 1) .>> 1) .>> 1) .>> 1) .>> 1) .>> 1) .& 1 = BIT x 6
  /\ (((((((x .>> 1) .>> 1) .>> 1) .>> 1) .>> 1) .>> 1) .>> 1) .& 1 = BIT x 7.
Proof.
  unfold BIT. rewrite !Z.shiftr_shiftr by lia. rewrite Z.shiftr_0_r.
  repeat split; reflexivity.
Qed.

Lemma testbit_one (m : Z) : 0 <= m -> Z.testbit 1 m = (m =? 0).
Proof.
  intros Hm. destruct (Z.eqb_spec m 0) as [-> | Hne]; [reflexivity|].
  apply (testbit_high 1); lia.
Qed.

(** Pushes [Z.testbit] through shifts, masks and unions at an index of
    known range, deciding the comparisons met on the way. *)
Ltac bit_step :=
  match goal with
  | |- context [Z.testbit (?a .| ?b) ?m] => rewrite (Z.lor_spec a b m)
  | |- context [Z.testbit (?a .<< ?n) ?m] =>
      first [ rewrite (Z.shiftl_spec_low a n m) by lia
            | rewrite (Z.shiftl_spec_high a n m) by lia ]
  | |- context [Z.testbit (?a .>> ?n) ?m] => rewrite (Z.shiftr_spec a n m) by lia
  | |- context [Z.testbit (?a mod 2 ^ ?n) ?m] =>
      rewrite (Z.testbit_mod_pow2 a n m) by lia
  | |- context [?a <? ?b] =>
      first [ rewrite (ltb_true a b) by lia | rewrite (ltb_false a b) by lia ]
  end.

Ltac bit_blast :=
  repeat bit_step;
  rewrite ?andb_true_l, ?andb_false_l, ?andb_true_r, ?andb_false_r,
    ?orb_false_l, ?orb_false_r.

(** As [bit_blast], for expressions that mask single bits. *)
Ltac mask_step :=
  match goal with
  | |- context [Z.testbit (?a .& ?b) ?m] => rewrite (Z.land_spec a b m)
  | |- context [Z.testbit 1 ?m] => rewrite (testbit_one m) by lia
  | |- context [Z.testbit 0 ?m] => rewrite (Z.testbit_0_l m)
  | H : is_byte ?x |- context [Z.testbit ?x ?m] =>
      rewrite (testbit_high 8 x m) by (unfold is_byte in H; lia)
  | |- context [?a =? ?b] =>
      first [ rewrite (proj2 (Z.eqb_eq a b)) by lia
            | rewrite (proj2 (Z.eqb_neq a b)) by lia ]
  | _ => bit_step
  end.

Ltac mask_blast :=
  repeat mask_step;
  rewrite ?andb_true_l, ?andb_false_l, ?andb_true_r, ?andb_false_r,
    ?orb_false_l, ?orb_false_r.

(** A bit of a byte register outside the byte. *)
Ltac off_byte :=
  repeat match goal with
    | H : is_byte ?x |- context [Z.testbit ?x ?m] =>
        first [ rewrite (Z.testbit_neg_r x m) by lia
              | rewrite (testbit_high 8 x m) by (unfold is_byte in H; lia) ]
    end.

Ltac rev_bits :=
  repeat match goal with
    | |- context [Z.testbit (?a .<< ?n) ?m] =>
        first [ rewrite (Z.shiftl_spec_low a n m) by lia
              | rewrite (Z.shiftl_spec_high a n m) by lia ]
    | |- context [Z.testbit (?a .& ?b) ?m] => rewrite (Z.land_spec a b m)
    | |- context [Z.testbit (?a .>> ?n) ?m] => rewrite (Z.shiftr_spec a n m) by lia
    | |- context [Z.testbit (Z.ones 8) ?m] => rewrite (Z.testbit_ones_nonneg 8 m) by lia
    | |- context [?a <? 8] =>
        first [ rewrite (ltb_true a 8) by lia | rewrite (ltb_false a 8) by lia ]
    end.

Lemma low_bit_of_shifted (x m : Z) :
  0 <= m -> u8 (x .>> m) .& 1 = Z.b2z (Z.testbit x m).
Proof.
  intros Hm. rewrite <- (Z.shiftr_0_r (u8 (x .>> m))). fold (BIT (u8 (x .>> m)) 0).
  rewrite BIT_b2z by lia. unfold u8. rewrite Z.testbit_mod_pow2 by lia.
  rewrite Z.shiftr_spec by lia. reflexivity.
Qed.

(** A filter output shifted to place [m0] and xored onto a byte flips
    bit [m0] of the byte when it is 1 and leaves the other bits. *)
Lemma xor_bit_testbit (old fo m0 m : Z) :
  is_bit fo -> 0 <= m0 -> 0 <= m < 8 ->
  Z.testbit (u8 (old .^ (fo .<< m0))) m
  = xorb (Z.testbit old m) ((m =? m0) && (fo =? 1)).
Proof.
  intros Hfo Hm0 Hm. unfold u8. rewrite Z.testbit_mod_pow2 by lia.
  rewrite ltb_true by lia. cbn [andb]. rewrite Z.lxor_spec. f_equal.
  destruct (Z.ltb_spec m m0).
  - rewrite Z.shiftl_spec_low by lia.
    replace (m =? m0) with false by (symmetry; apply Z.eqb_neq; lia). reflexivity.
  - rewrite Z.shiftl_spec_high by lia. rewrite is_bit_testbit by exact Hfo.
    f_equal. destruct (Z.eqb_spec (m - m0) 0), (Z.eqb_spec m m0); try reflexivity; lia.
Qed.

End ListFacts.
Import ListFacts.

(** ** The keystream loops of the byte-split implementation *)
Module StreamFacts.
Import HexUtils Crapto1 Crypto1.

Lemma filter_B7 (Od : bytes3) :
  CRYPTO1_FILTER_OUTPUT_B7_24 Od = CRYPTO1_FILTER_OUTPUT_B0_24 Od .<< 7.
Proof.
  unfold CRYPTO1_FILTER_OUTPUT_B7_24, CRYPTO1_FILTER_OUTPUT_B0_24, idx.
  generalize (Z.to_nat (filter_index Od)). intros n.
  do 32 (destruct n as [|n]; [reflexivity|]). destruct n; reflexivity.
Qed.

Lemma filter_B3 (Od : bytes3) :
  CRYPTO1_FILTER_OUTPUT_B3_24 Od = CRYPTO1_FILTER_OUTPUT_B0_24 Od .<< 3.
Proof.
  unfold CRYPTO1_FILTER_OUTPUT_B3_24, CRYPTO1_FILTER_OUTPUT_B0_24, idx.
  generalize (Z.to_nat (filter_index Od)). intros n.
  do 32 (destruct n as [|n]; [reflexivity|]). destruct n; reflexivity.
Qed.

(** The two orientations of the registers: an even pass enters with
    the halves in place and leaves them exchanged, an odd pass the
    reverse. *)
Lemma even_pass_clock (Ev Od : bytes3) (s : Crypto1LfsrState_t) (b : Z) :
  Ev = Even s -> Od = Odd s ->
  SHIFT24 Ev (Crypto1LFSRbyteFeedback Ev Od .^ b) = Odd (Crypto1LFSR s b)
  /\ Od = Even (Crypto1LFSR s b).
Proof. intros -> ->. rewrite Crypto1LFSR_feedback. split; reflexivity. Qed.

Lemma odd_pass_clock (Ev Od : bytes3) (s : Crypto1LfsrState_t) (b : Z) :
  Ev = Odd s -> Od = Even s ->
  Ev = Even (Crypto1LFSR s b)
  /\ SHIFT24 Od (Crypto1LFSRbyteFeedback Od Ev .^ b) = Odd (Crypto1LFSR s b).
Proof. intros -> ->. rewrite Crypto1LFSR_feedback. split; reflexivity. Qed.

Lemma filter_output_unfold (s : Crypto1LfsrState_t) :
  Crypto1FilterOutput s = CRYPTO1_FILTER_OUTPUT_B0_24 (Odd s).
Proof. reflexivity. Qed.

Lemma byte_pass_first (r : StreamRegs) (s : Crypto1LfsrState_t) :
  kEven r = Even s -> kOdd r = Odd s ->
  kEven (byte_pass r 0) = Odd (Crypto1LFSR s 0)
  /\ kOdd (byte_pass r 0) = Even (Crypto1LFSR s 0)
  /\ kKeyStream (byte_pass r 0) = kKeyStream r.
Proof.
  intros HE HO. unfold byte_pass.
  destruct (even_pass_clock (kEven r) (kOdd r) s 0 HE HO) as [H1 H2].
  rewrite Z.lxor_0_r in H1.
  replace (nonzero (0 .& 1)) with false by reflexivity.
  replace (0 <? 0) with false by reflexivity.
  cbn [kEven kOdd kKeyStream]. rewrite H1, <- H2. auto.
Qed.

Lemma byte_pass_even (r : StreamRegs) (i : Z) (s : Crypto1LfsrState_t) :
  nonzero (i .& 1) = false -> (0 <? i) = true -> kEven r = Even s -> kOdd r = Odd s ->
  kEven (byte_pass r i) = Odd (Crypto1LFSR s 0)
  /\ kOdd (byte_pass r i) = Even (Crypto1LFSR s 0)
  /\ kKeyStream (byte_pass r i)
     = u8 ((kKeyStream r .>> 1) .| (Crypto1FilterOutput s .<< 7)).
Proof.
  intros Hi Hp HE HO. unfold byte_pass. rewrite Hi, Hp.
  destruct (even_pass_clock (kEven r) (kOdd r) s 0 HE HO) as [H1 H2].
  rewrite Z.lxor_0_r in H1. rewrite filter_B7.
  cbn [kEven kOdd kKeyStream]. rewrite H1, <- H2.
  rewrite filter_output_unfold, <- HO. auto.
Qed.

Lemma byte_pass_odd (r : StreamRegs) (i : Z) (s : Crypto1LfsrState_t) :
  nonzero (i .& 1) = true -> kEven r = Odd s -> kOdd r = Even s ->
  kEven (byte_pass r i) = Even (Crypto1LFSR s 0)
  /\ kOdd (byte_pass r i) = Odd (Crypto1LFSR s 0)
  /\ kKeyStream (byte_pass r i)
     = u8 ((kKeyStream r .>> 1) .| (Crypto1FilterOutput s .<< 7)).
Proof.
  intros Hi HE HO. unfold byte_pass. rewrite Hi.
  destruct (odd_pass_clock (kEven r) (kOdd r) s 0 HE HO) as [H1 H2].
  rewrite Z.lxor_0_r in H2. rewrite filter_B7.
  cbn [kEven kOdd kKeyStream]. rewrite H2, <- H1.
  rewrite filter_output_unfold, <- HE. auto.
Qed.

Ltac even_step lem r i s E O K :=
  let E' := fresh "E" in let O' := fresh "O" in let K' := fresh "K" in
  destruct (lem r i s eq_refl E O) as (E' & O' & K').

Lemma byte_assemble (o0 o1 o2 o3 o4 o5 o6 o7 : Z) :
  is_bit o0 -> is_bit o1 -> is_bit o2 -> is_bit o3 ->
  is_bit o4 -> is_bit o5 -> is_bit o6 -> is_bit o7 ->
  u8 ((u8 ((u8 ((u8 ((u8 ((u8 ((u8 (((o0 .<< 7) .>> 1) .| (o1 .<< 7)) .>> 1) .| (o2 .<< 7))
    .>> 1) .| (o3 .<< 7)) .>> 1) .| (o4 .<< 7)) .>> 1) .| (o5 .<< 7)) .>> 1) .| (o6 .<< 7))
    .>> 1) .| (o7 .<< 7))
  = bits_lsb [o0; o1; o2; o3; o4; o5; o6; o7].
Proof.
  unfold is_bit.
  intros [-> | ->] [-> | ->] [-> | ->] [-> | ->] [-> | ->] [-> | ->] [-> | ->] [-> | ->];
    reflexivity.
Qed.

Lemma clocks_cons (s : Crypto1LfsrState_t) (b : Z) (l : list Z) :
  clocks s (b :: l) = clocks (Crypto1LFSR s b) l.
Proof. reflexivity. Qed.

Lemma clocks_nil (s : Crypto1LfsrState_t) : clocks s [] = s.
Proof. reflexivity. Qed.

Lemma keystream_cons (s : Crypto1LfsrState_t) (b : Z) (l : list Z) :
  keystream s (b :: l) = Crypto1FilterOutput s :: keystream (Crypto1LFSR s b) l.
Proof. reflexivity. Qed.

Lemma keystream_nil (s : Crypto1LfsrState_t) : keystream s [] = [].
Proof. reflexivity. Qed.

Lemma Crypto1Byte_spec (st : Crypto1LfsrState_t) :
  Crypto1Byte st
  = (bits_lsb (keystream st (repeat 0 8)), clocks st (repeat 0 8)).
Proof.
  unfold Crypto1Byte. rewrite fold_upto_8. rewrite filter_B7.
  rewrite <- (filter_output_unfold st).
  remember (mkStream (Even st) (Odd st) (Crypto1FilterOutput st .<< 7)) as r0 eqn:Hr0.
  assert (E0 : kEven r0 = Even st) by (subst r0; reflexivity).
  assert (O0 : kOdd r0 = Odd st) by (subst r0; reflexivity).
  assert (K0 : kKeyStream r0 = Crypto1FilterOutput st .<< 7) by (subst r0; reflexivity).
  clear Hr0.
  destruct (byte_pass_first r0 st E0 O0) as (E1 & O1 & K1).
  remember (byte_pass r0 0) as r1 eqn:Hr1. clear Hr1. remember (Crypto1LFSR st 0) as s1 eqn:Hs1.
  destruct (byte_pass_odd r1 1 s1 eq_refl E1 O1) as (E2 & O2 & K2).
  remember (byte_pass r1 1) as r2 eqn:Hr2. clear Hr2. remember (Crypto1LFSR s1 0) as s2 eqn:Hs2.
  destruct (byte_pass_even r2 2 s2 eq_refl eq_refl E2 O2) as (E3 & O3 & K3).
  remember (byte_pass r2 2) as r3 eqn:Hr3. clear Hr3. remember (Crypto1LFSR s2 0) as s3 eqn:Hs3.
  destruct (byte_pass_odd r3 3 s3 eq_refl E3 O3) as (E4 & O4 & K4).
  remember (byte_pass r3 3) as r4 eqn:Hr4. clear Hr4. remember (Crypto1LFSR s3 0) as s4 eqn:Hs4.
  destruct (byte_pass_even r4 4 s4 eq_refl eq_refl E4 O4) as (E5 & O5 & K5).
  remember (byte_pass r4 4) as r5 eqn:Hr5. clear Hr5. remember (Crypto1LFSR s4 0) as s5 eqn:Hs5.
  destruct (byte_pass_odd r5 5 s5 eq_refl E5 O5) as (E6 & O6 & K6).
  remember (byte_pass r5 5) as r6 eqn:Hr6. clear Hr6. remember (Crypto1LFSR s5 0) as s6 eqn:Hs6.
  destruct (byte_pass_even r6 6 s6 eq_refl eq_refl E6 O6) as (E7 & O7 & K7).
  remember (byte_pass r6 6) as r7 eqn:Hr7. clear Hr7. remember (Crypto1LFSR s6 0) as s7 eqn:Hs7.
  destruct (byte_pass_odd r7 7 s7 eq_refl E7 O7) as (E8 & O8 & K8).
  remember (byte_pass r7 7) as r8 eqn:Hr8. clear Hr8. remember (Crypto1LFSR s7 0) as s8 eqn:Hs8.
  rewrite E8, O8, state_eta.
  rewrite K8, K7, K6, K5, K4, K3, K2, K1, K0.
  cbn [repeat]. rewrite !clocks_cons, !keystream_cons, clocks_nil, keystream_nil.
  rewrite <- Hs1, <- Hs2, <- Hs3, <- Hs4, <- Hs5, <- Hs6, <- Hs7, <- Hs8.
  rewrite byte_assemble by apply filter_output_is_bit. reflexivity.
Qed.

Lemma clocks_app (s : Crypto1LfsrState_t) (l1 l2 : list Z) :
  clocks s (l1 ++ l2) = clocks (clocks s l1) l2.
Proof. apply fold_left_app. Qed.

Lemma Crypto1Byte_state (st : Crypto1LfsrState_t) :
  snd (Crypto1Byte st) = clocks st (repeat 0 8).
Proof. rewrite Crypto1Byte_spec. reflexivity. Qed.

Lemma Crypto1Byte_value (st : Crypto1LfsrState_t) :
  fst (Crypto1Byte st) = keystream_byte st 0.
Proof. rewrite Crypto1Byte_spec. reflexivity. Qed.

Lemma keystream_byte_shift (st : Crypto1LfsrState_t) (n : nat) :
  keystream_byte (clocks st (repeat 0 (8 * n))) 0 = keystream_byte st n.
Proof. unfold keystream_byte. rewrite Nat.mul_0_r. reflexivity. Qed.

Lemma zeros_step (st : Crypto1LfsrState_t) (n : nat) :
  clocks (clocks st (repeat 0 (8 * n))) (repeat 0 8) = clocks st (repeat 0 (8 * S n)).
Proof.
  rewrite <- clocks_app, <- repeat_app. f_equal. f_equal. lia.
Qed.

Lemma byte_array_pass_eq (B : list Z) (s : Crypto1LfsrState_t) (k : Z) :
  byte_array_pass (B, s) k
  = (upd B k (idx B k .^ fst (Crypto1Byte s)), snd (Crypto1Byte s)).
Proof. reflexivity. Qed.

(** The byte loop of [Crypto1ByteArray], after [n] passes. *)
Lemma byte_array_loop (st : Crypto1LfsrState_t) (Buffer : list Z) (n : nat) :
  let r := fold_left byte_array_pass (upto n) (Buffer, st) in
  snd r = clocks st (repeat 0 (8 * n))
  /\ length (fst r) = length Buffer
  /\ forall j : nat,
       nth j (fst r) 0
       = if (j <? n)%nat && (j <? length Buffer)%nat
         then nth j Buffer 0 .^ keystream_byte st j
         else nth j Buffer 0.
Proof.
  induction n as [|n IH]; cbv zeta.
  - cbn [upto seq map fold_left fst snd]. repeat split.
  - cbv zeta in IH. rewrite upto_S, fold_left_app. cbn [fold_left].
    destruct (fold_left byte_array_pass (upto n) (Buffer, st)) as [B s].
    cbn [fst snd] in IH. destruct IH as (Hs & Hl & Hn).
    rewrite byte_array_pass_eq, !fst_pair, !snd_pair.
    rewrite Crypto1Byte_state, Crypto1Byte_value, Hs, zeros_step, keystream_byte_shift.
    split; [reflexivity|]. split; [rewrite upd_length; exact Hl|].
    intros j. unfold upd, idx. rewrite Nat2Z.id. rewrite nth_upd_nat, Hl.
    destruct (Nat.eqb_spec j n) as [-> | Hne].
    + rewrite Hn. rewrite Nat.ltb_irrefl. cbn [andb].
      replace (n <? S n)%nat with true by (symmetry; apply Nat.ltb_lt; lia).
      cbn [andb]. destruct (n <? length Buffer)%nat; reflexivity.
    + cbn [andb]. rewrite Hn.
      replace (j <? S n)%nat with (j <? n)%nat; [reflexivity|].
      destruct (Nat.ltb_spec j n), (Nat.ltb_spec j (S n)); try reflexivity; lia.
Qed.

Lemma setup_bit_even (r : SetupRegs) (bit : Z) (s : Crypto1LfsrState_t) :
  nonzero (bit .& 1) = false -> sEven r = Even s -> sOdd r = Odd s ->
  sEven (setup_bit r bit) = Odd (Crypto1LFSR s (sIn r .& 1))
  /\ sOdd (setup_bit r bit) = Even (Crypto1LFSR s (sIn r .& 1))
  /\ sKeyStream (setup_bit r bit) = SHIFT8 (sKeyStream r) (Crypto1FilterOutput s)
  /\ sIn (setup_bit r bit) = sIn r .>> 1.
Proof.
  intros Hi HE HO. unfold setup_bit. rewrite Hi.
  destruct (even_pass_clock (sEven r) (sOdd r) s (sIn r .& 1) HE HO) as [H1 H2].
  cbn [sEven sOdd sKeyStream sIn]. rewrite H1, <- H2.
  rewrite filter_output_unfold, <- HO. auto.
Qed.

Lemma setup_bit_odd (r : SetupRegs) (bit : Z) (s : Crypto1LfsrState_t) :
  nonzero (bit .& 1) = true -> sEven r = Odd s -> sOdd r = Even s ->
  sEven (setup_bit r bit) = Even (Crypto1LFSR s (sIn r .& 1))
  /\ sOdd (setup_bit r bit) = Odd (Crypto1LFSR s (sIn r .& 1))
  /\ sKeyStream (setup_bit r bit) = SHIFT8 (sKeyStream r) (Crypto1FilterOutput s)
  /\ sIn (setup_bit r bit) = sIn r .>> 1.
Proof.
  intros Hi HE HO. unfold setup_bit. rewrite Hi.
  destruct (odd_pass_clock (sEven r) (sOdd r) s (sIn r .& 1) HE HO) as [H1 H2].
  cbn [sEven sOdd sKeyStream sIn]. rewrite H2, <- H1.
  rewrite filter_output_unfold, <- HE. auto.
Qed.

Lemma shift8_assemble (o0 o1 o2 o3 o4 o5 o6 o7 : Z) :
  is_bit o0 -> is_bit o1 -> is_bit o2 -> is_bit o3 ->
  is_bit o4 -> is_bit o5 -> is_bit o6 -> is_bit o7 ->
  SHIFT8 (SHIFT8 (SHIFT8 (SHIFT8 (SHIFT8 (SHIFT8 (SHIFT8 (SHIFT8 0 o0) o1) o2) o3) o4) o5)
    o6) o7
  = bits_lsb [o0; o1; o2; o3; o4; o5; o6; o7].
Proof.
  unfold is_bit.
  intros [-> | ->] [-> | ->] [-> | ->] [-> | ->] [-> | ->] [-> | ->] [-> | ->] [-> | ->];
    reflexivity.
Qed.

(** The bit loop of [Crypto1Setup] over one byte. *)
Lemma setup_bits_spec (s : Crypto1LfsrState_t) (inb : Z) :
  let r := fold_left setup_bit (upto 8) (mkSetup (Even s) (Odd s) 0 inb) in
  sEven r = Even (clocks s (byte_bits_of inb))
  /\ sOdd r = Odd (clocks s (byte_bits_of inb))
  /\ sKeyStream r = bits_lsb (keystream s (byte_bits_of inb)).
Proof.
  cbv zeta. rewrite fold_upto_8.
  remember (mkSetup (Even s) (Odd s) 0 inb) as r0 eqn:Hr0.
  assert (E0 : sEven r0 = Even s) by (subst r0; reflexivity).
  assert (O0 : sOdd r0 = Odd s) by (subst r0; reflexivity).
  assert (K0 : sKeyStream r0 = 0) by (subst r0; reflexivity).
  assert (I0 : sIn r0 = inb) by (subst r0; reflexivity).
  clear Hr0.
  destruct (setup_bit_even r0 0 s eq_refl E0 O0) as (E1 & O1 & K1 & I1).
  remember (setup_bit r0 0) as r1 eqn:Hr1. clear Hr1.
  remember (Crypto1LFSR s (sIn r0 .& 1)) as s1 eqn:Hs1.
  destruct (setup_bit_odd r1 1 s1 eq_refl E1 O1) as (E2 & O2 & K2 & I2).
  remember (setup_bit r1 1) as r2 eqn:Hr2. clear Hr2.
  remember (Crypto1LFSR s1 (sIn r1 .& 1)) as s2 eqn:Hs2.
  destruct (setup_bit_even r2 2 s2 eq_refl E2 O2) as (E3 & O3 & K3 & I3).
  remember (setup_bit r2 2) as r3 eqn:Hr3. clear Hr3.
  remember (Crypto1LFSR s2 (sIn r2 .& 1)) as s3 eqn:Hs3.
  destruct (setup_bit_odd r3 3 s3 eq_refl E3 O3) as (E4 & O4 & K4 & I4).
  remember (setup_bit r3 3) as r4 eqn:Hr4. clear Hr4.
  remember (Crypto1LFSR s3 (sIn r3 .& 1)) as s4 eqn:Hs4.
  destruct (setup_bit_even r4 4 s4 eq_refl E4 O4) as (E5 & O5 & K5 & I5).
  remember (setup_bit r4 4) as r5 eqn:Hr5. clear Hr5.
  remember (Crypto1LFSR s4 (sIn r4 .& 1)) as s5 eqn:Hs5.
  destruct (setup_bit_odd r5 5 s5 eq_refl E5 O5) as (E6 & O6 & K6 & I6).
  remember (setup_bit r5 5) as r6 eqn:Hr6. clear Hr6.
  remember (Crypto1LFSR s5 (sIn r5 .& 1)) as s6 eqn:Hs6.
  destruct (setup_bit_even r6 6 s6 eq_refl E6 O6) as (E7 & O7 & K7 & I7).
  remember (setup_bit r6 6) as r7 eqn:Hr7. clear Hr7.
  remember (Crypto1LFSR s6 (sIn r6 .& 1)) as s7 eqn:Hs7.
  destruct (setup_bit_odd r7 7 s7 eq_refl E7 O7) as (E8 & O8 & K8 & I8).
  remember (setup_bit r7 7) as r8 eqn:Hr8. clear Hr8.
  remember (Crypto1LFSR s7 (sIn r7 .& 1)) as s8 eqn:Hs8.
  rewrite I7, I6, I5, I4, I3, I2, I1, I0 in Hs8.
  rewrite I6, I5, I4, I3, I2, I1, I0 in Hs7.
  rewrite I5, I4, I3, I2, I1, I0 in Hs6.
  rewrite I4, I3, I2, I1, I0 in Hs5.
  rewrite I3, I2, I1, I0 in Hs4.
  rewrite I2, I1, I0 in Hs3.
  rewrite I1, I0 in Hs2.
  rewrite I0 in Hs1.
  destruct (shifted_bits inb) as (B0 & B1 & B2 & B3 & B4 & B5 & B6 & B7).
  rewrite B0 in Hs1. rewrite B1 in Hs2. rewrite B2 in Hs3. rewrite B3 in Hs4.
  rewrite B4 in Hs5. rewrite B5 in Hs6. rewrite B6 in Hs7. rewrite B7 in Hs8.
  rewrite byte_bits_of_eq.
  rewrite !clocks_cons, !keystream_cons, clocks_nil, keystream_nil.
  rewrite <- Hs1, <- Hs2, <- Hs3, <- Hs4, <- Hs5, <- Hs6, <- Hs7, <- Hs8.
  rewrite E8, O8, K8, K7, K6, K5, K4, K3, K2, K1, K0.
  rewrite shift8_assemble by apply filter_output_is_bit.
  repeat split; reflexivity.
Qed.

Lemma setup_byte_eq (Uid : list Z) (Ev Od : bytes3) (CardNonce : list Z) (b : Z) :
  setup_byte Uid (Ev, Od, CardNonce) b
  = (sEven (fold_left setup_bit (upto 8)
              (mkSetup Ev Od 0 (idx CardNonce b .^ idx Uid b))),
     sOdd (fold_left setup_bit (upto 8)
             (mkSetup Ev Od 0 (idx CardNonce b .^ idx Uid b))),
     upd CardNonce b
       (idx CardNonce b
        .^ sKeyStream (fold_left setup_bit (upto 8)
                         (mkSetup Ev Od 0 (idx CardNonce b .^ idx Uid b))))).
Proof. reflexivity. Qed.

(** One nonce byte of [Crypto1Setup], entered with the registers holding
    [s]. *)
Lemma setup_byte_spec (Uid CardNonce : list Z) (s : Crypto1LfsrState_t) (b : Z) :
  setup_byte Uid (Even s, Odd s, CardNonce) b
  = (Even (clocks s (byte_bits_of (idx CardNonce b .^ idx Uid b))),
     Odd (clocks s (byte_bits_of (idx CardNonce b .^ idx Uid b))),
     upd CardNonce b
       (idx CardNonce b
        .^ bits_lsb (keystream s (byte_bits_of (idx CardNonce b .^ idx Uid b))))).
Proof.
  rewrite setup_byte_eq.
  destruct (setup_bits_spec s (idx CardNonce b .^ idx Uid b)) as (HE & HO & HK).
  rewrite HE, HO, HK. reflexivity.
Qed.

Lemma nested_pass_first (r : NestedRegs) (s : Crypto1LfsrState_t) :
  nEven r = Even s -> nOdd r = Odd s ->
  nEven (nested_bit false r 0) = Odd (Crypto1LFSR s (nIn r .& 1))
  /\ nOdd (nested_bit false r 0) = Even (Crypto1LFSR s (nIn r .& 1))
  /\ nKeyStream (nested_bit false r 0) = SHIFT8 (nKeyStream r) (nOut r)
  /\ nIn (nested_bit false r 0) = nIn r .>> 1.
Proof.
  intros HE HO. unfold nested_bit.
  replace (0 =? 0) with true by reflexivity.
  replace (nonzero (0 .& 1)) with false by reflexivity.
  destruct (even_pass_clock (nEven r) (nOdd r) s (nIn r .& 1) HE HO) as [H1 H2].
  cbn [nEven nOdd nKeyStream nIn].
  rewrite SHIFT24_COND_DECRYPT_off
    by (apply lxor_is_bit; [apply feedback_is_bit | apply land1_is_bit]).
  rewrite H1, <- H2. auto.
Qed.

Lemma nested_pass_even (r : NestedRegs) (bit : Z) (s : Crypto1LfsrState_t) :
  nonzero (bit .& 1) = false -> (bit =? 0) = false ->
  nEven r = Even s -> nOdd r = Odd s ->
  nEven (nested_bit false r bit) = Odd (Crypto1LFSR s (nIn r .& 1))
  /\ nOdd (nested_bit false r bit) = Even (Crypto1LFSR s (nIn r .& 1))
  /\ nKeyStream (nested_bit false r bit)
     = u8 ((nKeyStream r .>> 1) .| (Crypto1FilterOutput s .<< 7))
  /\ nIn (nested_bit false r bit) = nIn r .>> 1.
Proof.
  intros Hi Hz HE HO. unfold nested_bit. rewrite Hi, Hz.
  destruct (even_pass_clock (nEven r) (nOdd r) s (nIn r .& 1) HE HO) as [H1 H2].
  cbn [nEven nOdd nKeyStream nIn].
  rewrite SHIFT24_COND_DECRYPT_off
    by (apply lxor_is_bit; [apply feedback_is_bit | apply land1_is_bit]).
  rewrite H1, <- H2. rewrite filter_B7, filter_output_unfold, <- HO. auto.
Qed.

Lemma nested_pass_odd (r : NestedRegs) (bit : Z) (s : Crypto1LfsrState_t) :
  nonzero (bit .& 1) = true -> (bit =? 0) = false ->
  nEven r = Odd s -> nOdd r = Even s ->
  nEven (nested_bit false r bit) = Even (Crypto1LFSR s (nIn r .& 1))
  /\ nOdd (nested_bit false r bit) = Odd (Crypto1LFSR s (nIn r .& 1))
  /\ nKeyStream (nested_bit false r bit)
     = u8 ((nKeyStream r .>> 1) .| (Crypto1FilterOutput s .<< 7))
  /\ nIn (nested_bit false r bit) = nIn r .>> 1.
Proof.
  intros Hi Hz HE HO. unfold nested_bit. rewrite Hi, Hz.
  destruct (odd_pass_clock (nEven r) (nOdd r) s (nIn r .& 1) HE HO) as [H1 H2].
  cbn [nEven nOdd nKeyStream nIn].
  rewrite SHIFT24_COND_DECRYPT_off
    by (apply lxor_is_bit; [apply feedback_is_bit | apply land1_is_bit]).
  rewrite H2, <- H1. rewrite filter_B7, filter_output_unfold, <- HE. auto.
Qed.

Lemma nested_assemble (o0 o1 o2 o3 o4 o5 o6 o7 : Z) :
  is_bit o0 -> is_bit o1 -> is_bit o2 -> is_bit o3 ->
  is_bit o4 -> is_bit o5 -> is_bit o6 -> is_bit o7 ->
  u8 ((u8 ((u8 ((u8 ((u8 ((u8 ((u8 ((SHIFT8 0 o0 .>> 1) .| (o1 .<< 7)) .>> 1) .| (o2 .<< 7))
    .>> 1) .| (o3 .<< 7)) .>> 1) .| (o4 .<< 7)) .>> 1) .| (o5 .<< 7)) .>> 1) .| (o6 .<< 7))
    .>> 1) .| (o7 .<< 7))
  = bits_lsb [o0; o1; o2; o3; o4; o5; o6; o7].
Proof.
  unfold is_bit.
  intros [-> | ->] [-> | ->] [-> | ->] [-> | ->] [-> | ->] [-> | ->] [-> | ->] [-> | ->];
    reflexivity.
Qed.

(** The bit loop of [Crypto1SetupNested] over one byte, without
    decryption and entered with the filter output of the state. *)
Lemma nested_bits_spec (s : Crypto1LfsrState_t) (inb : Z) :
  let r := fold_left (nested_bit false) (upto 8)
             (mkNested (Even s) (Odd s) 0 (Crypto1FilterOutput s) inb) in
  nEven r = Even (clocks s (byte_bits_of inb))
  /\ nOdd r = Odd (clocks s (byte_bits_of inb))
  /\ nKeyStream r = bits_lsb (keystream s (byte_bits_of inb)).
Proof.
  cbv zeta. rewrite fold_upto_8.
  remember (mkNested (Even s) (Odd s) 0 (Crypto1FilterOutput s) inb) as r0 eqn:Hr0.
  assert (E0 : nEven r0 = Even s) by (subst r0; reflexivity).
  assert (O0 : nOdd r0 = Odd s) by (subst r0; reflexivity).
  assert (K0 : nKeyStream r0 = 0) by (subst r0; reflexivity).
  assert (U0 : nOut r0 = Crypto1FilterOutput s) by (subst r0; reflexivity).
  assert (I0 : nIn r0 = inb) by (subst r0; reflexivity).
  clear Hr0.
  destruct (nested_pass_first r0 s E0 O0) as (E1 & O1 & K1 & I1).
  remember (nested_bit false r0 0) as r1 eqn:Hr1. clear Hr1.
  remember (Crypto1LFSR s (nIn r0 .& 1)) as s1 eqn:Hs1.
  destruct (nested_pass_odd r1 1 s1 eq_refl eq_refl E1 O1) as (E2 & O2 & K2 & I2).
  remember (nested_bit false r1 1) as r2 eqn:Hr2. clear Hr2.
  remember (Crypto1LFSR s1 (nIn r1 .& 1)) as s2 eqn:Hs2.
  destruct (nested_pass_even r2 2 s2 eq_refl eq_refl E2 O2) as (E3 & O3 & K3 & I3).
  remember (nested_bit false r2 2) as r3 eqn:Hr3. clear Hr3.
  remember (Crypto1LFSR s2 (nIn r2 .& 1)) as s3 eqn:Hs3.
  destruct (nested_pass_odd r3 3 s3 eq_refl eq_refl E3 O3) as (E4 & O4 & K4 & I4).
  remember (nested_bit false r3 3) as r4 eqn:Hr4. clear Hr4.
  remember (Crypto1LFSR s3 (nIn r3 .& 1)) as s4 eqn:Hs4.
  destruct (nested_pass_even r4 4 s4 eq_refl eq_refl E4 O4) as (E5 & O5 & K5 & I5).
  remember (nested_bit false r4 4) as r5 eqn:Hr5. clear Hr5.
  remember (Crypto1LFSR s4 (nIn r4 .& 1)) as s5 eqn:Hs5.
  destruct (nested_pass_odd r5 5 s5 eq_refl eq_refl E5 O5) as (E6 & O6 & K6 & I6).
  remember (nested_bit false r5 5) as r6 eqn:Hr6. clear Hr6.
  remember (Crypto1LFSR s5 (nIn r5 .& 1)) as s6 eqn:Hs6.
  destruct (nested_pass_even r6 6 s6 eq_refl eq_refl E6 O6) as (E7 & O7 & K7 & I7).
  remember (nested_bit false r6 6) as r7 eqn:Hr7. clear Hr7.
  remember (Crypto1LFSR s6 (nIn r6 .& 1)) as s7 eqn:Hs7.
  destruct (nested_pass_odd r7 7 s7 eq_refl eq_refl E7 O7) as (E8 & O8 & K8 & I8).
  remember (nested_bit false r7 7) as r8 eqn:Hr8. clear Hr8.
  remember (Crypto1LFSR s7 (nIn r7 .& 1)) as s8 eqn:Hs8.
  rewrite I7, I6, I5, I4, I3, I2, I1, I0 in Hs8.
  rewrite I6, I5, I4, I3, I2, I1, I0 in Hs7.
  rewrite I5, I4, I3, I2, I1, I0 in Hs6.
  rewrite I4, I3, I2, I1, I0 in Hs5.
  rewrite I3, I2, I1, I0 in Hs4.
  rewrite I2, I1, I0 in Hs3.
  rewrite I1, I0 in Hs2.
  rewrite I0 in Hs1.
  destruct (shifted_bits inb) as (B0 & B1 & B2 & B3 & B4 & B5 & B6 & B7).
  rewrite B0 in Hs1. rewrite B1 in Hs2. rewrite B2 in Hs3. rewrite B3 in Hs4.
  rewrite B4 in Hs5. rewrite B5 in Hs6. rewrite B6 in Hs7. rewrite B7 in Hs8.
  rewrite byte_bits_of_eq.
  rewrite !clocks_cons, !keystream_cons, clocks_nil, keystream_nil.
  rewrite <- Hs1, <- Hs2, <- Hs3, <- Hs4, <- Hs5, <- Hs6, <- Hs7, <- Hs8.
  rewrite E8, O8, K8, K7, K6, K5, K4, K3, K2, K1, K0, U0.
  rewrite nested_assemble by apply filter_output_is_bit.
  repeat split; reflexivity.
Qed.

Lemma nested_byte_eq (Uid : list Z) (Ev Od : bytes3) (Out : Z)
      (CardNonce NonceParity : list Z) (b : Z) :
  nested_byte false Uid (mkLoop Ev Od Out CardNonce NonceParity) b
  = mkLoop
      (nEven (fold_left (nested_bit false) (upto 8)
                (mkNested Ev Od 0 Out (idx CardNonce b .^ idx Uid b))))
      (nOdd (fold_left (nested_bit false) (upto 8)
               (mkNested Ev Od 0 Out (idx CardNonce b .^ idx Uid b))))
      (CRYPTO1_FILTER_OUTPUT_B0_24
         (nOdd (fold_left (nested_bit false) (upto 8)
                  (mkNested Ev Od 0 Out (idx CardNonce b .^ idx Uid b)))))
      (upd CardNonce b
         (idx CardNonce b
          .^ nKeyStream (fold_left (nested_bit false) (upto 8)
                           (mkNested Ev Od 0 Out (idx CardNonce b .^ idx Uid b)))))
      (upd NonceParity b
         (oddparity8 (idx CardNonce b)
          .^ CRYPTO1_FILTER_OUTPUT_B0_24
               (nOdd (fold_left (nested_bit false) (upto 8)
                        (mkNested Ev Od 0 Out (idx CardNonce b .^ idx Uid b)))))).
Proof. reflexivity. Qed.

(** One nonce byte of [Crypto1SetupNested] without decryption: the
    registers, the carried output and the encrypted nonce byte. *)
Lemma nested_byte_full (Uid CardNonce NonceParity : list Z) (s : Crypto1LfsrState_t)
      (b : Z) :
  nested_byte false Uid
    (mkLoop (Even s) (Odd s) (Crypto1FilterOutput s) CardNonce NonceParity) b
  = mkLoop
      (Even (clocks s (byte_bits_of (idx CardNonce b .^ idx Uid b))))
      (Odd (clocks s (byte_bits_of (idx CardNonce b .^ idx Uid b))))
      (Crypto1FilterOutput (clocks s (byte_bits_of (idx CardNonce b .^ idx Uid b))))
      (upd CardNonce b
         (idx CardNonce b
          .^ bits_lsb (keystream s (byte_bits_of (idx CardNonce b .^ idx Uid b)))))
      (upd NonceParity b
         (oddparity8 (idx CardNonce b)
          .^ Crypto1FilterOutput
               (clocks s (byte_bits_of (idx CardNonce b .^ idx Uid b))))).
Proof.
  rewrite nested_byte_eq.
  destruct (nested_bits_spec s (idx CardNonce b .^ idx Uid b)) as (HE & HO & HK).
  rewrite HE, HO, HK. rewrite <- !filter_output_unfold. reflexivity.
Qed.

(** The byte loops of the two setups run in step. *)
Lemma setup_loops_agree (Uid : list Z) (l : list Z) :
  forall (s : Crypto1LfsrState_t) (CardNonce NonceParity : list Z),
  exists (s' : Crypto1LfsrState_t) (C' P' : list Z),
    fold_left (nested_byte false Uid) l
      (mkLoop (Even s) (Odd s) (Crypto1FilterOutput s) CardNonce NonceParity)
    = mkLoop (Even s') (Odd s') (Crypto1FilterOutput s') C' P'
    /\ fold_left (setup_byte Uid) l (Even s, Odd s, CardNonce) = (Even s', Odd s', C').
Proof.
  induction l as [|b l IH]; intros s C P.
  - exists s, C, P. split; reflexivity.
  - rewrite (fold_cons (nested_byte false Uid)), (fold_cons (setup_byte Uid)).
    rewrite nested_byte_full, setup_byte_spec. apply IH.
Qed.

(** Without decryption [Crypto1SetupNested] leaves the state and the
    nonce buffer that [Crypto1Setup] leaves. *)
Lemma setup_nested_agrees (Key Uid CardNonce NonceParity : list Z) :
  Crypto1Setup Key Uid CardNonce
  = (fst (fst (Crypto1SetupNested Key Uid CardNonce NonceParity false)),
     snd (Crypto1SetupNested Key Uid CardNonce NonceParity false)).
Proof.
  unfold Crypto1Setup, Crypto1SetupNested. cbv zeta.
  rewrite <- filter_output_unfold.
  destruct (setup_loops_agree Uid (upto 4) (LoadKey Key) CardNonce NonceParity)
    as (s' & C' & P' & HN & HS).
  rewrite HN, HS. rewrite !fst_pair, !snd_pair. reflexivity.
Qed.

Lemma keystream_app (s : Crypto1LfsrState_t) (l1 l2 : list Z) :
  keystream s (l1 ++ l2) = keystream s l1 ++ keystream (clocks s l1) l2.
Proof.
  revert s. induction l1 as [|b l1 IH]; intros s.
  - reflexivity.
  - rewrite <- app_comm_cons, !keystream_cons, clocks_cons, IH. reflexivity.
Qed.

Lemma keystream_length (s : Crypto1LfsrState_t) (l : list Z) :
  length (keystream s l) = length l.
Proof.
  revert s. induction l as [|b l IH]; intros s; [reflexivity|].
  rewrite keystream_cons. cbn [length]. rewrite IH. reflexivity.
Qed.

Lemma chunk8_first (k l : list Z) : length k = 8%nat -> chunk8 (k ++ l) 0 = k.
Proof.
  intros Hk. unfold chunk8. rewrite Nat.mul_0_r, skipn_O.
  rewrite firstn_app, Hk, Nat.sub_diag, firstn_O, app_nil_r.
  rewrite <- Hk. apply firstn_all.
Qed.

Lemma chunk8_next (k l : list Z) (b : nat) :
  length k = 8%nat -> chunk8 (k ++ l) (S b) = chunk8 l b.
Proof.
  intros Hk. unfold chunk8. f_equal.
  replace (8 * S b)%nat with (length k + 8 * b)%nat by lia.
  rewrite skipn_app. rewrite skipn_all2 by lia.
  replace (length k + 8 * b - length k)%nat with (8 * b)%nat by lia. reflexivity.
Qed.

Lemma setup_input_eq (c0 c1 c2 c3 : Z) (Uid : list Z) :
  setup_input [c0; c1; c2; c3] Uid
  = byte_bits_of (c0 .^ idx Uid 0) ++ byte_bits_of (c1 .^ idx Uid 1)
      ++ byte_bits_of (c2 .^ idx Uid 2) ++ byte_bits_of (c3 .^ idx Uid 3) ++ [].
Proof. reflexivity. Qed.

Lemma Crypto1Setup_eq (Key Uid CardNonce : list Z) :
  Crypto1Setup Key Uid CardNonce
  = (snd (fold_left (setup_byte Uid) (upto 4)
            (Even (LoadKey Key), Odd (LoadKey Key), CardNonce)),
     {| Even := fst (fst (fold_left (setup_byte Uid) (upto 4)
                            (Even (LoadKey Key), Odd (LoadKey Key), CardNonce)));
        Odd := snd (fst (fold_left (setup_byte Uid) (upto 4)
                           (Even (LoadKey Key), Odd (LoadKey Key), CardNonce))) |}).
Proof.
  unfold Crypto1Setup. cbv zeta.
  destruct (fold_left (setup_byte Uid) (upto 4)
              (Even (LoadKey Key), Odd (LoadKey Key), CardNonce)) as [[E O] C].
  reflexivity.
Qed.

(** [Crypto1Setup] is the cipher's initialisation: the key is loaded,
    the 32 bits of nonce xor UID are clocked in, and each nonce byte is
    xored with the eight keystream bits of its clocks. *)
Lemma Crypto1Setup_spec (Key Uid : list Z) (c0 c1 c2 c3 : Z) :
  let ins := setup_input [c0; c1; c2; c3] Uid in
  let ks := keystream (LoadKey Key) ins in
  Crypto1Setup Key Uid [c0; c1; c2; c3]
  = ([c0 .^ bits_lsb (chunk8 ks 0); c1 .^ bits_lsb (chunk8 ks 1);
      c2 .^ bits_lsb (chunk8 ks 2); c3 .^ bits_lsb (chunk8 ks 3)],
     clocks (LoadKey Key) ins).
Proof.
  cbv zeta. rewrite setup_input_eq.
  remember (byte_bits_of (c0 .^ idx Uid 0)) as i0 eqn:Hi0.
  remember (byte_bits_of (c1 .^ idx Uid 1)) as i1 eqn:Hi1.
  remember (byte_bits_of (c2 .^ idx Uid 2)) as i2 eqn:Hi2.
  remember (byte_bits_of (c3 .^ idx Uid 3)) as i3 eqn:Hi3.
  assert (L0 : length i0 = 8%nat) by (subst i0; reflexivity).
  assert (L1 : length i1 = 8%nat) by (subst i1; reflexivity).
  assert (L2 : length i2 = 8%nat) by (subst i2; reflexivity).
  assert (L3 : length i3 = 8%nat) by (subst i3; reflexivity).
  rewrite !keystream_app, !clocks_app, keystream_nil, clocks_nil.
  remember (LoadKey Key) as s0 eqn:Hs0.
  remember (clocks s0 i0) as s1 eqn:Hs1.
  remember (clocks s1 i1) as s2 eqn:Hs2.
  remember (clocks s2 i2) as s3 eqn:Hs3.
  repeat first
    [ rewrite chunk8_first by (rewrite keystream_length; assumption)
    | rewrite chunk8_next by (rewrite keystream_length; assumption) ].
  rewrite Crypto1Setup_eq, <- Hs0. rewrite fold_upto_4.
  rewrite (setup_byte_spec Uid [c0; c1; c2; c3] s0 0). buf4.
  rewrite <- Hi0, <- Hs1.
  match goal with |- context [setup_byte Uid (Even s1, Odd s1, ?cn) 1] =>
    rewrite (setup_byte_spec Uid cn s1 1) end.
  buf4. rewrite <- Hi1, <- Hs2.
  match goal with |- context [setup_byte Uid (Even s2, Odd s2, ?cn) 2] =>
    rewrite (setup_byte_spec Uid cn s2 2) end.
  buf4. rewrite <- Hi2, <- Hs3.
  match goal with |- context [setup_byte Uid (Even s3, Odd s3, ?cn) 3] =>
    rewrite (setup_byte_spec Uid cn s3 3) end.
  buf4. rewrite <- Hi3.
  rewrite !fst_pair, !snd_pair, state_eta. reflexivity.
Qed.

Lemma Crypto1ByteArray_eq (st : Crypto1LfsrState_t) (Buffer : list Z) (Count : Z) :
  Crypto1ByteArray st Buffer Count
  = fold_left byte_array_pass (upto (Z.to_nat Count)) (Buffer, st).
Proof. reflexivity. Qed.

Lemma byte_array_twice (st : Crypto1LfsrState_t) (Buffer : list Z) (n : nat) :
  fst (fold_left byte_array_pass (upto n)
         (fst (fold_left byte_array_pass (upto n) (Buffer, st)), st))
  = Buffer.
Proof.
  destruct (byte_array_loop st Buffer n) as (_ & Hl & Hn). cbv zeta in Hl, Hn.
  remember (fst (fold_left byte_array_pass (upto n) (Buffer, st))) as B1 eqn:HB1.
  clear HB1.
  destruct (byte_array_loop st B1 n) as (_ & Hl2 & Hn2). cbv zeta in Hl2, Hn2.
  remember (fst (fold_left byte_array_pass (upto n) (B1, st))) as B2 eqn:HB2.
  clear HB2.
  apply (nth_ext B2 Buffer 0 0); [congruence|].
  intros j _. rewrite Hn2, Hn, Hl.
  destruct ((j <? n)%nat && (j <? length Buffer)%nat); [apply lxor_twice | reflexivity].
Qed.

Lemma nibble_pass_even (r : StreamRegs) (i : Z) (s : Crypto1LfsrState_t) :
  nonzero (i .& 1) = false -> (i <? 3) = true -> kEven r = Even s -> kOdd r = Odd s ->
  kEven (nibble_pass r i) = Odd (Crypto1LFSR s 0)
  /\ kOdd (nibble_pass r i) = Even (Crypto1LFSR s 0)
  /\ kKeyStream (nibble_pass r i)
     = u8 ((kKeyStream r .>> 1) .| (Crypto1FilterOutput s .<< 3)).
Proof.
  intros Hi Hp HE HO. unfold nibble_pass. rewrite Hi, Hp.
  destruct (even_pass_clock (kEven r) (kOdd r) s 0 HE HO) as [H1 H2].
  rewrite Z.lxor_0_r in H1. rewrite filter_B3.
  cbn [kEven kOdd kKeyStream]. rewrite H1, <- H2.
  rewrite filter_output_unfold, <- HO. auto.
Qed.

Lemma nibble_pass_odd (r : StreamRegs) (i : Z) (s : Crypto1LfsrState_t) :
  nonzero (i .& 1) = true -> (i <? 3) = true -> kEven r = Odd s -> kOdd r = Even s ->
  kEven (nibble_pass r i) = Even (Crypto1LFSR s 0)
  /\ kOdd (nibble_pass r i) = Odd (Crypto1LFSR s 0)
  /\ kKeyStream (nibble_pass r i)
     = u8 ((kKeyStream r .>> 1) .| (Crypto1FilterOutput s .<< 3)).
Proof.
  intros Hi Hp HE HO. unfold nibble_pass. rewrite Hi, Hp.
  destruct (odd_pass_clock (kEven r) (kOdd r) s 0 HE HO) as [H1 H2].
  rewrite Z.lxor_0_r in H2. rewrite filter_B3.
  cbn [kEven kOdd kKeyStream]. rewrite H2, <- H1.
  rewrite filter_output_unfold, <- HE. auto.
Qed.

Lemma nibble_pass_last (r : StreamRegs) (i : Z) (s : Crypto1LfsrState_t) :
  nonzero (i .& 1) = true -> (i <? 3) = false -> kEven r = Odd s -> kOdd r = Even s ->
  kEven (nibble_pass r i) = Even (Crypto1LFSR s 0)
  /\ kOdd (nibble_pass r i) = Odd (Crypto1LFSR s 0)
  /\ kKeyStream (nibble_pass r i) = kKeyStream r.
Proof.
  intros Hi Hp HE HO. unfold nibble_pass. rewrite Hi, Hp.
  destruct (odd_pass_clock (kEven r) (kOdd r) s 0 HE HO) as [H1 H2].
  rewrite Z.lxor_0_r in H2.
  cbn [kEven kOdd kKeyStream]. rewrite H2, <- H1. auto.
Qed.

Lemma nibble_assemble (o0 o1 o2 : Z) :
  is_bit o0 -> is_bit o1 -> is_bit o2 ->
  u8 ((u8 ((u8 (((o0 .<< 3) .>> 1) .| (o0 .<< 3)) .>> 1) .| (o1 .<< 3)) .>> 1)
        .| (o2 .<< 3))
  = bits_lsb [o0; o0; o1; o2].
Proof. unfold is_bit. intros [-> | ->] [-> | ->] [-> | ->]; reflexivity. Qed.

(** What [Crypto1Nibble] returns: the state is clocked four times; of
    the nibble, bits 0 and 1 both hold the filter output of the entry
    state, bits 2 and 3 those after one and two clocks. *)
Lemma Crypto1Nibble_spec (st : Crypto1LfsrState_t) :
  Crypto1Nibble st
  = (bits_lsb [Crypto1FilterOutput st;
               Crypto1FilterOutput st;
               Crypto1FilterOutput (clocks st [0]);
               Crypto1FilterOutput (clocks st [0; 0])],
     clocks st [0; 0; 0; 0]).
Proof.
  unfold Crypto1Nibble. rewrite fold_upto_4. rewrite filter_B3.
  rewrite <- (filter_output_unfold st).
  remember (mkStream (Even st) (Odd st) (Crypto1FilterOutput st .<< 3)) as r0 eqn:Hr0.
  assert (E0 : kEven r0 = Even st) by (subst r0; reflexivity).
  assert (O0 : kOdd r0 = Odd st) by (subst r0; reflexivity).
  assert (K0 : kKeyStream r0 = Crypto1FilterOutput st .<< 3) by (subst r0; reflexivity).
  clear Hr0.
  destruct (nibble_pass_even r0 0 st eq_refl eq_refl E0 O0) as (E1 & O1 & K1).
  remember (nibble_pass r0 0) as r1 eqn:Hr1. clear Hr1.
  remember (Crypto1LFSR st 0) as s1 eqn:Hs1.
  destruct (nibble_pass_odd r1 1 s1 eq_refl eq_refl E1 O1) as (E2 & O2 & K2).
  remember (nibble_pass r1 1) as r2 eqn:Hr2. clear Hr2.
  remember (Crypto1LFSR s1 0) as s2 eqn:Hs2.
  destruct (nibble_pass_even r2 2 s2 eq_refl eq_refl E2 O2) as (E3 & O3 & K3).
  remember (nibble_pass r2 2) as r3 eqn:Hr3. clear Hr3.
  remember (Crypto1LFSR s2 0) as s3 eqn:Hs3.
  destruct (nibble_pass_last r3 3 s3 eq_refl eq_refl E3 O3) as (E4 & O4 & K4).
  remember (nibble_pass r3 3) as r4 eqn:Hr4. clear Hr4.
  remember (Crypto1LFSR s3 0) as s4 eqn:Hs4.
  rewrite !clocks_cons, !clocks_nil.
  rewrite <- Hs1, <- Hs2, <- Hs3, <- Hs4.
  rewrite E4, O4, state_eta, K4, K3, K2, K1, K0.
  rewrite nibble_assemble by apply filter_output_is_bit. reflexivity.
Qed.

Lemma parity_in_first (r : ParityRegs) (s : Crypto1LfsrState_t) :
  pEven r = Even s -> pOdd r = Odd s ->
  pEven (parity_in_bit r 0) = Odd (Crypto1LFSR s (pIn r .& 1))
  /\ pOdd (parity_in_bit r 0) = Even (Crypto1LFSR s (pIn r .& 1))
  /\ pKeyStream (parity_in_bit r 0) = pKeyStream r
  /\ pIn (parity_in_bit r 0) = pIn r .>> 1.
Proof.
  intros HE HO. unfold parity_in_bit.
  replace (nonzero (0 .& 1)) with false by reflexivity.
  replace (0 <? 0) with false by reflexivity.
  destruct (even_pass_clock (pEven r) (pOdd r) s (pIn r .& 1) HE HO) as [H1 H2].
  cbn [pEven pOdd pKeyStream pIn]. rewrite H1, <- H2. auto.
Qed.

Lemma parity_in_even (r : ParityRegs) (bit : Z) (s : Crypto1LfsrState_t) :
  nonzero (bit .& 1) = false -> (0 <? bit) = true ->
  pEven r = Even s -> pOdd r = Odd s ->
  pEven (parity_in_bit r bit) = Odd (Crypto1LFSR s (pIn r .& 1))
  /\ pOdd (parity_in_bit r bit) = Even (Crypto1LFSR s (pIn r .& 1))
  /\ pKeyStream (parity_in_bit r bit)
     = u8 ((pKeyStream r .>> 1) .| (Crypto1FilterOutput s .<< 7))
  /\ pIn (parity_in_bit r bit) = pIn r .>> 1.
Proof.
  intros Hi Hp HE HO. unfold parity_in_bit. rewrite Hi, Hp.
  destruct (even_pass_clock (pEven r) (pOdd r) s (pIn r .& 1) HE HO) as [H1 H2].
  cbn [pEven pOdd pKeyStream pIn]. rewrite H1, <- H2.
  rewrite filter_B7, filter_output_unfold, <- HO. auto.
Qed.

Lemma parity_in_odd (r : ParityRegs) (bit : Z) (s : Crypto1LfsrState_t) :
  nonzero (bit .& 1) = true -> (bit <? 7) = true ->
  pEven r = Odd s -> pOdd r = Even s ->
  pEven (parity_in_bit r bit) = Even (Crypto1LFSR s (pIn r .& 1))
  /\ pOdd (parity_in_bit r bit) = Odd (Crypto1LFSR s (pIn r .& 1))
  /\ pKeyStream (parity_in_bit r bit)
     = u8 ((pKeyStream r .>> 1) .| (Crypto1FilterOutput s .<< 7))
  /\ pIn (parity_in_bit r bit) = pIn r .>> 1.
Proof.
  intros Hi Hp HE HO. unfold parity_in_bit. rewrite Hi, Hp.
  destruct (odd_pass_clock (pEven r) (pOdd r) s (pIn r .& 1) HE HO) as [H1 H2].
  cbn [pEven pOdd pKeyStream pIn]. rewrite H2, <- H1.
  rewrite filter_B7, filter_output_unfold, <- HE. auto.
Qed.

Lemma parity_in_last (r : ParityRegs) (bit : Z) (s : Crypto1LfsrState_t) :
  nonzero (bit .& 1) = true -> (bit <? 7) = false ->
  pEven r = Odd s -> pOdd r = Even s ->
  pEven (parity_in_bit r bit) = Even (Crypto1LFSR s (pIn r .& 1))
  /\ pOdd (parity_in_bit r bit) = Odd (Crypto1LFSR s (pIn r .& 1))
  /\ pKeyStream (parity_in_bit r bit) = pKeyStream r
  /\ pIn (parity_in_bit r bit) = pIn r .>> 1.
Proof.
  intros Hi Hp HE HO. unfold parity_in_bit. rewrite Hi, Hp.
  destruct (odd_pass_clock (pEven r) (pOdd r) s (pIn r .& 1) HE HO) as [H1 H2].
  cbn [pEven pOdd pKeyStream pIn]. rewrite H2, <- H1. auto.
Qed.

Lemma displaced_eq (k o0 o1 o2 o3 o4 o5 o6 o7 : Z) :
  displaced k [o0; o1; o2; o3; o4; o5; o6; o7]
  = bits_lsb [BIT k 7; o0; o1; o2; o3; o4; o5; o6].
Proof. reflexivity. Qed.

Lemma displaced_assemble (k o0 o1 o2 o3 o4 o5 o6 : Z) :
  is_byte k ->
  is_bit o0 -> is_bit o1 -> is_bit o2 -> is_bit o3 -> is_bit o4 -> is_bit o5 -> is_bit o6 ->
  u8 ((u8 ((u8 ((u8 ((u8 ((u8 ((SHIFT8 k o0 .>> 1) .| (o1 .<< 7)) .>> 1) .| (o2 .<< 7))
    .>> 1) .| (o3 .<< 7)) .>> 1) .| (o4 .<< 7)) .>> 1) .| (o5 .<< 7)) .>> 1) .| (o6 .<< 7))
  = bits_lsb [BIT k 7; o0; o1; o2; o3; o4; o5; o6].
Proof.
  unfold is_bit, is_byte.
  intros Hk [-> | ->] [-> | ->] [-> | ->] [-> | ->] [-> | ->] [-> | ->] [-> | ->];
    apply Z.eqb_eq;
    match goal with |- ?G = true =>
      let f := eval pattern k in G in
      match f with ?p k =>
        apply (forall_upto 256 p); [vm_compute; reflexivity | exact Hk]
      end
    end.
Qed.

(** The bit loop of the two parity loops over one byte, entered with
    the registers holding [s] and the keystream byte begun from the one
    of the pass before. *)
Lemma parity_in_bits_spec (s : Crypto1LfsrState_t) (prev out inb : Z) :
  is_byte prev ->
  let r := fold_left parity_in_bit (upto 8)
             (mkParity (Even s) (Odd s) (SHIFT8 prev (Crypto1FilterOutput s)) out inb) in
  pEven r = Even (clocks s (byte_bits_of inb))
  /\ pOdd r = Odd (clocks s (byte_bits_of inb))
  /\ pKeyStream r = displaced prev (keystream s (byte_bits_of inb))
  /\ is_byte (pKeyStream r).
Proof.
  intros Hprev. cbv zeta. rewrite fold_upto_8.
  remember (mkParity (Even s) (Odd s) (SHIFT8 prev (Crypto1FilterOutput s)) out inb)
    as r0 eqn:Hr0.
  assert (E0 : pEven r0 = Even s) by (subst r0; reflexivity).
  assert (O0 : pOdd r0 = Odd s) by (subst r0; reflexivity).
  assert (K0 : pKeyStream r0 = SHIFT8 prev (Crypto1FilterOutput s))
    by (subst r0; reflexivity).
  assert (I0 : pIn r0 = inb) by (subst r0; reflexivity).
  clear Hr0.
  destruct (parity_in_first r0 s E0 O0) as (E1 & O1 & K1 & I1).
  remember (parity_in_bit r0 0) as r1 eqn:Hr1. clear Hr1.
  remember (Crypto1LFSR s (pIn r0 .& 1)) as s1 eqn:Hs1.
  destruct (parity_in_odd r1 1 s1 eq_refl eq_refl E1 O1) as (E2 & O2 & K2 & I2).
  remember (parity_in_bit r1 1) as r2 eqn:Hr2. clear Hr2.
  remember (Crypto1LFSR s1 (pIn r1 .& 1)) as s2 eqn:Hs2.
  destruct (parity_in_even r2 2 s2 eq_refl eq_refl E2 O2) as (E3 & O3 & K3 & I3).
  remember (parity_in_bit r2 2) as r3 eqn:Hr3. clear Hr3.
  remember (Crypto1LFSR s2 (pIn r2 .& 1)) as s3 eqn:Hs3.
  destruct (parity_in_odd r3 3 s3 eq_refl eq_refl E3 O3) as (E4 & O4 & K4 & I4).
  remember (parity_in_bit r3 3) as r4 eqn:Hr4. clear Hr4.
  remember (Crypto1LFSR s3 (pIn r3 .& 1)) as s4 eqn:Hs4.
  destruct (parity_in_even r4 4 s4 eq_refl eq_refl E4 O4) as (E5 & O5 & K5 & I5).
  remember (parity_in_bit r4 4) as r5 eqn:Hr5. clear Hr5.
  remember (Crypto1LFSR s4 (pIn r4 .& 1)) as s5 eqn:Hs5.
  destruct (parity_in_odd r5 5 s5 eq_refl eq_refl E5 O5) as (E6 & O6 & K6 & I6).
  remember (parity_in_bit r5 5) as r6 eqn:Hr6. clear Hr6.
  remember (Crypto1LFSR s5 (pIn r5 .& 1)) as s6 eqn:Hs6.
  destruct (parity_in_even r6 6 s6 eq_refl eq_refl E6 O6) as (E7 & O7 & K7 & I7).
  remember (parity_in_bit r6 6) as r7 eqn:Hr7. clear Hr7.
  remember (Crypto1LFSR s6 (pIn r6 .& 1)) as s7 eqn:Hs7.
  destruct (parity_in_last r7 7 s7 eq_refl eq_refl E7 O7) as (E8 & O8 & K8 & I8).
  remember (parity_in_bit r7 7) as r8 eqn:Hr8. clear Hr8.
  remember (Crypto1LFSR s7 (pIn r7 .& 1)) as s8 eqn:Hs8.
  rewrite I7, I6, I5, I4, I3, I2, I1, I0 in Hs8.
  rewrite I6, I5, I4, I3, I2, I1, I0 in Hs7.
  rewrite I5, I4, I3, I2, I1, I0 in Hs6.
  rewrite I4, I3, I2, I1, I0 in Hs5.
  rewrite I3, I2, I1, I0 in Hs4.
  rewrite I2, I1, I0 in Hs3.
  rewrite I1, I0 in Hs2.
  rewrite I0 in Hs1.
  destruct (shifted_bits inb) as (B0 & B1 & B2 & B3 & B4 & B5 & B6 & B7).
  rewrite B0 in Hs1. rewrite B1 in Hs2. rewrite B2 in Hs3. rewrite B3 in Hs4.
  rewrite B4 in Hs5. rewrite B5 in Hs6. rewrite B6 in Hs7. rewrite B7 in Hs8.
  rewrite byte_bits_of_eq.
  rewrite !clocks_cons, !keystream_cons, clocks_nil, keystream_nil.
  rewrite <- Hs1, <- Hs2, <- Hs3, <- Hs4, <- Hs5, <- Hs6, <- Hs7, <- Hs8.
  rewrite E8, O8, K8, K7, K6, K5, K4, K3, K2, K1, K0.
  rewrite displaced_eq.
  split; [reflexivity|]. split; [reflexivity|].
  split; [| apply u8_is_byte].
  apply displaced_assemble; [exact Hprev | apply filter_output_is_bit ..].
Qed.

(** One byte of the parity loops, entered with the registers holding
    [s], the carried output that of [s] and a keystream byte from the
    pass before. *)
Lemma parity_pass_spec (inb : Z) (l : ParityLoop) (k : Z) (s : Crypto1LfsrState_t) :
  qEven l = Even s -> qOdd l = Odd s -> qOut l = Crypto1FilterOutput s ->
  is_byte (qKeyStream l) ->
  let s' := clocks s (byte_bits_of inb) in
  let ks := displaced (qKeyStream l) (keystream s (byte_bits_of inb)) in
  parity_pass inb l k
  = mkPLoop (Even s') (Odd s') ks (Crypto1FilterOutput s')
      (upd (qBuffer l) k (idx (qBuffer l) k .^ ks))
      (upd (qParity l) k (oddparity8 (idx (qBuffer l) k) .^ Crypto1FilterOutput s'))
  /\ is_byte ks.
Proof.
  intros HE HO HU HK. cbv zeta. unfold parity_pass. cbv zeta.
  rewrite HE, HO, HU.
  destruct (parity_in_bits_spec s (qKeyStream l) (Crypto1FilterOutput s) inb HK)
    as (E & O & K & B).
  cbv zeta in E, O, K, B. rewrite E, O, K. rewrite <- !filter_output_unfold.
  split; [reflexivity|]. rewrite <- K. exact B.
Qed.

Lemma parity_bit_feeds_nothing (r : ParityRegs) (bit : Z) :
  pIn r = 0 -> parity_bit r bit = parity_in_bit r bit.
Proof.
  destruct r as [E O K U I]. cbn [pIn]. intros ->.
  unfold parity_bit, parity_in_bit. cbn [pEven pOdd pKeyStream pOut pIn].
  replace (0 .& 1) with 0 by reflexivity. replace (0 .>> 1) with 0 by reflexivity.
  rewrite !Z.lxor_0_r. reflexivity.
Qed.

Lemma parity_in_bit_In (r : ParityRegs) (bit : Z) :
  pIn (parity_in_bit r bit) = pIn r .>> 1.
Proof.
  unfold parity_in_bit.
  destruct (nonzero (bit .& 1)), (bit <? 7), (0 <? bit); reflexivity.
Qed.

Lemma parity_bits_fold (l : list Z) :
  forall r, pIn r = 0 -> fold_left parity_bit l r = fold_left parity_in_bit l r.
Proof.
  induction l as [|b l IH]; intros r Hr; [reflexivity|].
  rewrite !fold_cons. rewrite parity_bit_feeds_nothing by exact Hr.
  apply IH. rewrite parity_in_bit_In, Hr. reflexivity.
Qed.

Lemma parity_in_byte_pass (l : ParityLoop) (k : Z) :
  parity_in_byte l k = parity_pass (idx (qBuffer l) k) l k.
Proof. reflexivity. Qed.

Lemma parity_byte_pass (l : ParityLoop) (k : Z) :
  parity_byte l k = parity_pass 0 l k.
Proof.
  unfold parity_byte, parity_pass. cbv zeta.
  rewrite parity_bits_fold by reflexivity. reflexivity.
Qed.

Lemma fed_S (inp : nat -> Z) (n : nat) :
  fed inp (S n) = fed inp n ++ byte_bits_of (inp n).
Proof. unfold fed. rewrite seq_S, flat_map_app. cbn [flat_map]. rewrite app_nil_r. reflexivity. Qed.

Lemma displaced_stream_S (st : Crypto1LfsrState_t) (inp : nat -> Z) (n : nat) :
  displaced_stream st inp (S n)
  = displaced (displaced_stream st inp n)
      (keystream (clocks st (fed inp (S n))) (byte_bits_of (inp (S n)))).
Proof. reflexivity. Qed.

Lemma displaced_stream_O (st : Crypto1LfsrState_t) (inp : nat -> Z) :
  displaced_stream st inp 0
  = displaced 0 (keystream (clocks st (fed inp 0)) (byte_bits_of (inp 0%nat))).
Proof. reflexivity. Qed.

Lemma fed_O (inp : nat -> Z) : fed inp 0 = [].
Proof. reflexivity. Qed.

Section ParityLoops.

Variable st : Crypto1LfsrState_t.
Variables Buffer Parity : list Z.
Variable inp : nat -> Z.
Variable step : ParityLoop -> Z -> ParityLoop.

Hypothesis step_pass :
  forall (l : ParityLoop) (k : nat),
    nth k (qBuffer l) 0 = nth k Buffer 0 ->
    step l (Z.of_nat k) = parity_pass (inp k) l (Z.of_nat k).

Lemma parity_loop_invariant (n : nat) :
  let l := fold_left step (upto n)
             (mkPLoop (Even st) (Odd st) 0 (Crypto1FilterOutput st) Buffer Parity) in
  (qEven l = Even (clocks st (fed inp n))
   /\ qOdd l = Odd (clocks st (fed inp n))
   /\ qOut l = Crypto1FilterOutput (clocks st (fed inp n))
   /\ qKeyStream l = carried st inp n
   /\ is_byte (qKeyStream l))
  /\ (length (qBuffer l) = length Buffer /\ length (qParity l) = length Parity)
  /\ (forall j : nat,
        nth j (qBuffer l) 0
        = if (j <? n)%nat && (j <? length Buffer)%nat
          then nth j Buffer 0 .^ displaced_stream st inp j
          else nth j Buffer 0)
  /\ (forall j : nat,
        nth j (qParity l) 0
        = if (j <? n)%nat && (j <? length Parity)%nat
          then oddparity8 (nth j Buffer 0)
               .^ Crypto1FilterOutput (clocks st (fed inp (S j)))
          else nth j Parity 0).
Proof.
  induction n as [|n IH]; cbv zeta.
  - cbn [upto seq map fold_left qEven qOdd qOut qKeyStream qBuffer qParity].
    rewrite fed_O, clocks_nil. unfold carried, is_byte.
    repeat split; try reflexivity; lia.
  - cbv zeta in IH. rewrite upto_S, fold_left_app, fold_cons.
    remember (fold_left step (upto n)
                (mkPLoop (Even st) (Odd st) 0 (Crypto1FilterOutput st) Buffer Parity))
      as l eqn:Hl. clear Hl.
    destruct IH as ((HE & HO & HU & HK & HB) & (LB & LP) & NB & NP).
    rewrite (fold_nil step).
    rewrite step_pass by (rewrite NB, Nat.ltb_irrefl; reflexivity).
    destruct (parity_pass_spec (inp n) l (Z.of_nat n) (clocks st (fed inp n))
                HE HO HU HB) as [HP HB'].
    cbv zeta in HP, HB'. rewrite HP. clear HP.
    rewrite <- clocks_app, <- fed_S in *.
    assert (HD : displaced (qKeyStream l)
                   (keystream (clocks st (fed inp n)) (byte_bits_of (inp n)))
                 = displaced_stream st inp n).
    { rewrite HK. destruct n; reflexivity. }
    rewrite HD in *.
    cbn [qEven qOdd qOut qKeyStream qBuffer qParity].
    split;
      [split; [reflexivity | split; [reflexivity | split; [reflexivity | split;
         [reflexivity | exact HB']]]] |].
    split; [rewrite !upd_length; split; assumption|].
    split; intros j; unfold upd, idx; rewrite Nat2Z.id, nth_upd_nat.
    + rewrite LB. destruct (Nat.eqb_spec j n) as [-> | Hne].
      * replace (n <? S n)%nat with true by (symmetry; apply Nat.ltb_lt; lia).
        cbn [andb]. rewrite NB, Nat.ltb_irrefl. cbn [andb].
        destruct (n <? length Buffer)%nat; reflexivity.
      * cbn [andb]. rewrite NB.
        replace (j <? S n)%nat with (j <? n)%nat; [reflexivity|].
        destruct (Nat.ltb_spec j n), (Nat.ltb_spec j (S n)); try reflexivity; lia.
    + rewrite LP. destruct (Nat.eqb_spec j n) as [-> | Hne].
      * replace (n <? S n)%nat with true by (symmetry; apply Nat.ltb_lt; lia).
        cbn [andb]. rewrite NB, NP, !Nat.ltb_irrefl. cbn [andb].
        destruct (n <? length Parity)%nat; reflexivity.
      * cbn [andb]. rewrite NP.
        replace (j <? S n)%nat with (j <? n)%nat; [reflexivity|].
        destruct (Nat.ltb_spec j n), (Nat.ltb_spec j (S n)); try reflexivity; lia.
Qed.

End ParityLoops.

Lemma fed_zero (n : nat) : fed (fun _ => 0) n = repeat 0 (8 * n).
Proof.
  induction n as [|n IH]; [reflexivity|].
  rewrite fed_S, IH, byte_bits_of_zero, <- repeat_app. f_equal. lia.
Qed.

Lemma Crypto1ByteArrayWithParity_eq (st : Crypto1LfsrState_t) (Buffer Parity : list Z)
      (Count : Z) :
  Crypto1ByteArrayWithParity st Buffer Parity Count
  = (qBuffer (fold_left parity_byte (upto (Z.to_nat Count))
                (mkPLoop (Even st) (Odd st) 0 (Crypto1FilterOutput st) Buffer Parity)),
     qParity (fold_left parity_byte (upto (Z.to_nat Count))
                (mkPLoop (Even st) (Odd st) 0 (Crypto1FilterOutput st) Buffer Parity)),
     {| Even := qEven (fold_left parity_byte (upto (Z.to_nat Count))
                         (mkPLoop (Even st) (Odd st) 0 (Crypto1FilterOutput st)
                            Buffer Parity));
        Odd := qOdd (fold_left parity_byte (upto (Z.to_nat Count))
                       (mkPLoop (Even st) (Odd st) 0 (Crypto1FilterOutput st)
                          Buffer Parity)) |}).
Proof. reflexivity. Qed.

Lemma Crypto1ByteArrayWithParityHasIn_eq (st : Crypto1LfsrState_t)
      (Buffer Parity : list Z) (Count : Z) :
  Crypto1ByteArrayWithParityHasIn st Buffer Parity Count
  = (qBuffer (fold_left parity_in_byte (upto (Z.to_nat Count))
                (mkPLoop (Even st) (Odd st) 0 (Crypto1FilterOutput st) Buffer Parity)),
     qParity (fold_left parity_in_byte (upto (Z.to_nat Count))
                (mkPLoop (Even st) (Odd st) 0 (Crypto1FilterOutput st) Buffer Parity)),
     {| Even := qEven (fold_left parity_in_byte (upto (Z.to_nat Count))
                         (mkPLoop (Even st) (Odd st) 0 (Crypto1FilterOutput st)
                            Buffer Parity));
        Odd := qOdd (fold_left parity_in_byte (upto (Z.to_nat Count))
                       (mkPLoop (Even st) (Odd st) 0 (Crypto1FilterOutput st)
                          Buffer Parity)) |}).
Proof. reflexivity. Qed.

Lemma parity_byte_step (Buffer : list Z) (l : ParityLoop) (k : nat) :
  nth k (qBuffer l) 0 = nth k Buffer 0 ->
  parity_byte l (Z.of_nat k) = parity_pass ((fun _ : nat => 0) k) l (Z.of_nat k).
Proof. intros _. apply parity_byte_pass. Qed.

Lemma parity_in_byte_step (Buffer : list Z) (l : ParityLoop) (k : nat) :
  nth k (qBuffer l) 0 = nth k Buffer 0 ->
  parity_in_byte l (Z.of_nat k)
  = parity_pass ((fun j : nat => nth j Buffer 0) k) l (Z.of_nat k).
Proof.
  intros H. rewrite parity_in_byte_pass. unfold idx. rewrite Nat2Z.id, H. reflexivity.
Qed.

(** [Crypto1ByteArrayWithParity]: the loop in terms of the clocked
    state. *)
Lemma with_parity_loop (st : Crypto1LfsrState_t) (Buffer Parity : list Z) (Count : Z) :
  let n := Z.to_nat Count in
  let r := Crypto1ByteArrayWithParity st Buffer Parity Count in
  snd r = clocks st (repeat 0 (8 * n))
  /\ (length (fst (fst r)) = length Buffer /\ length (snd (fst r)) = length Parity)
  /\ (forall j : nat,
        nth j (fst (fst r)) 0
        = if (j <? n)%nat && (j <? length Buffer)%nat
          then nth j Buffer 0 .^ displaced_stream st (fun _ => 0) j
          else nth j Buffer 0)
  /\ (forall j : nat,
        nth j (snd (fst r)) 0
        = if (j <? n)%nat && (j <? length Parity)%nat
          then oddparity8 (nth j Buffer 0)
               .^ Crypto1FilterOutput (clocks st (repeat 0 (8 * S j)))
          else nth j Parity 0).
Proof.
  cbv zeta. rewrite Crypto1ByteArrayWithParity_eq.
  destruct (parity_loop_invariant st Buffer Parity (fun _ => 0) parity_byte
              (parity_byte_step Buffer) (Z.to_nat Count))
    as ((HE & HO & _) & HL & NB & NP).
  rewrite !fst_pair, !snd_pair. rewrite HE, HO, state_eta, fed_zero.
  split; [reflexivity|]. split; [exact HL|]. split; [exact NB|].
  intros j. rewrite NP, fed_zero. reflexivity.
Qed.

(** [Crypto1ByteArrayWithParityHasIn]: the loop in terms of the state
    clocked with the bytes of the buffer. *)
Lemma with_parity_in_loop (st : Crypto1LfsrState_t) (Buffer Parity : list Z) (Count : Z) :
  let n := Z.to_nat Count in
  let inp := fun j : nat => nth j Buffer 0 in
  let r := Crypto1ByteArrayWithParityHasIn st Buffer Parity Count in
  snd r = clocks st (fed inp n)
  /\ (length (fst (fst r)) = length Buffer /\ length (snd (fst r)) = length Parity)
  /\ (forall j : nat,
        nth j (fst (fst r)) 0
        = if (j <? n)%nat && (j <? length Buffer)%nat
          then nth j Buffer 0 .^ displaced_stream st inp j
          else nth j Buffer 0)
  /\ (forall j : nat,
        nth j (snd (fst r)) 0
        = if (j <? n)%nat && (j <? length Parity)%nat
          then oddparity8 (nth j Buffer 0)
               .^ Crypto1FilterOutput (clocks st (fed inp (S j)))
          else nth j Parity 0).
Proof.
  cbv zeta. rewrite Crypto1ByteArrayWithParityHasIn_eq.
  destruct (parity_loop_invariant st Buffer Parity (fun j => nth j Buffer 0) parity_in_byte
              (parity_in_byte_step Buffer) (Z.to_nat Count))
    as ((HE & HO & _) & HL & NB & NP).
  rewrite !fst_pair, !snd_pair. rewrite HE, HO, state_eta.
  split; [reflexivity|]. split; [exact HL|]. split; [exact NB | exact NP].
Qed.

Lemma framed_pass_eq (inb : Z) (B : list Z) (s : Crypto1LfsrState_t) (i : Z) :
  framed_pass inb (B, s) i
  = (upd B (i / 8) (u8 (idx B (i / 8) .^ (Crypto1FilterOutput s .<< (i mod 8)))),
     if nonzero ((i + 1) mod 9) then Crypto1LFSR s inb else s).
Proof. reflexivity. Qed.

Lemma framed_state_S (st : Crypto1LfsrState_t) (inbit : Z -> Z) (n : nat) :
  framed_state st inbit (S n)
  = if nonzero ((Z.of_nat n + 1) mod 9)
    then Crypto1LFSR (framed_state st inbit n) (inbit (Z.of_nat n))
    else framed_state st inbit n.
Proof. reflexivity. Qed.

Section FramedLoops.

Variable st : Crypto1LfsrState_t.
Variable B : list Z.
Variable inbit : Z -> Z.
Variable step : list Z * Crypto1LfsrState_t -> Z -> list Z * Crypto1LfsrState_t.

Hypothesis step_pass :
  forall (l : list Z * Crypto1LfsrState_t) (i : nat),
    stream_bit (fst l) (Z.of_nat i) = stream_bit B (Z.of_nat i) ->
    step l (Z.of_nat i) = framed_pass (inbit (Z.of_nat i)) l (Z.of_nat i).

Lemma framed_invariant (n : nat) :
  let r := fold_left step (upto n) (B, st) in
  snd r = framed_state st inbit n
  /\ length (fst r) = length B
  /\ forall p : Z, 0 <= p ->
       stream_bit (fst r) p
       = xorb (stream_bit B p)
           ((p <? Z.of_nat n) && (p / 8 <? Z.of_nat (length B))
            && (Crypto1FilterOutput (framed_state st inbit (Z.to_nat p)) =? 1)).
Proof.
  induction n as [|n IH]; cbv zeta.
  - rewrite (fold_nil step). rewrite fst_pair, snd_pair.
    split; [reflexivity|]. split; [reflexivity|].
    intros p Hp. rewrite ltb_false by lia. cbn [andb]. rewrite xorb_false_r. reflexivity.
  - cbv zeta in IH. rewrite upto_S, fold_left_app, fold_cons, fold_nil.
    remember (fold_left step (upto n) (B, st)) as l eqn:Hl. clear Hl.
    destruct IH as (HS & HL & HB).
    rewrite step_pass
      by (rewrite HB by lia; rewrite (ltb_false (Z.of_nat n)) by lia;
          cbn [andb]; apply xorb_false_r).
    destruct l as [Bn sn]. rewrite fst_pair in HL, HB. rewrite snd_pair in HS.
    rewrite framed_pass_eq, fst_pair, snd_pair. rewrite framed_state_S, <- HS.
    split; [reflexivity|]. split; [rewrite upd_length; exact HL|].
    intros p Hp. unfold stream_bit at 1.
    rewrite idx_upd by (apply Z.div_pos; lia). rewrite HL.
    assert (Hm : 0 <= p mod 8 < 8) by (apply Z.mod_pos_bound; lia).
    assert (Hn : 0 <= Z.of_nat n mod 8 < 8) by (apply Z.mod_pos_bound; lia).
    pose proof (Z.div_mod p 8 ltac:(lia)) as Dp.
    pose proof (Z.div_mod (Z.of_nat n) 8 ltac:(lia)) as Dn.
    destruct (Z.eqb_spec (p / 8) (Z.of_nat n / 8)) as [Hk | Hk].
    + destruct (Z.ltb_spec (Z.of_nat n / 8) (Z.of_nat (length B))) as [Hin | Hout].
      * cbn [andb]. rewrite xor_bit_testbit by (try apply filter_output_is_bit; lia).
        rewrite <- Hk. fold (stream_bit Bn p). rewrite HB by exact Hp.
        rewrite (ltb_true (p / 8)) by lia. rewrite !andb_true_r.
        destruct (Z.eqb_spec (p mod 8) (Z.of_nat n mod 8)) as [Hmm | Hmm].
        -- assert (Hpn : p = Z.of_nat n) by lia. subst p.
           rewrite (ltb_false (Z.of_nat n) (Z.of_nat n)) by lia.
           rewrite (ltb_true (Z.of_nat n) (Z.of_nat (S n))) by lia.
           rewrite Nat2Z.id, HS. cbn [andb]. rewrite xorb_false_r. reflexivity.
        -- cbn [andb]. rewrite xorb_false_r.
           replace (p <? Z.of_nat (S n)) with (p <? Z.of_nat n); [reflexivity|].
           destruct (Z.ltb_spec p (Z.of_nat n)), (Z.ltb_spec p (Z.of_nat (S n)));
             try reflexivity; lia.
      * rewrite andb_false_r. fold (stream_bit Bn p). rewrite HB by exact Hp.
        rewrite (ltb_false (p / 8)) by lia. rewrite !andb_false_r. reflexivity.
    + cbn [andb]. fold (stream_bit Bn p). rewrite HB by exact Hp.
      replace (p <? Z.of_nat (S n)) with (p <? Z.of_nat n); [reflexivity|].
      destruct (Z.ltb_spec p (Z.of_nat n)), (Z.ltb_spec p (Z.of_nat (S n)));
        try reflexivity.
      * lia.
      * assert (p = Z.of_nat n) by lia. subst p. contradiction.
Qed.

End FramedLoops.

Lemma data_positions_S (n : nat) :
  data_positions (S n)
  = data_positions n
      ++ (if nonzero ((Z.of_nat n + 1) mod 9) then [Z.of_nat n] else []).
Proof.
  unfold data_positions. rewrite upto_S, filter_app, filter_one. reflexivity.
Qed.

(** The state before bit [n] of a frame is the entry state clocked with
    the inputs of the data positions below [n]. *)
Lemma framed_state_clocks (st : Crypto1LfsrState_t) (inbit : Z -> Z) (n : nat) :
  framed_state st inbit n = clocks st (map inbit (data_positions n)).
Proof.
  induction n as [|n IH]; [reflexivity|].
  rewrite framed_state_S, data_positions_S, map_app, clocks_app, <- IH.
  destruct (nonzero ((Z.of_nat n + 1) mod 9)); reflexivity.
Qed.

Lemma data_positions_length (n : nat) :
  length (data_positions n) = Z.to_nat (Z.of_nat n - Z.of_nat n / 9).
Proof.
  induction n as [|n IH]; [reflexivity|].
  rewrite data_positions_S, length_app, IH. unfold nonzero.
  pose proof (Z.div_mod (Z.of_nat n) 9 ltac:(lia)) as D1.
  pose proof (Z.mod_pos_bound (Z.of_nat n) 9 ltac:(lia)) as B1.
  pose proof (Z.div_mod (Z.of_nat (S n)) 9 ltac:(lia)) as D2.
  pose proof (Z.mod_pos_bound (Z.of_nat (S n)) 9 ltac:(lia)) as B2.
  pose proof (Z.div_mod (Z.of_nat n + 1) 9 ltac:(lia)) as D3.
  pose proof (Z.mod_pos_bound (Z.of_nat n + 1) 9 ltac:(lia)) as B3.
  replace (Z.of_nat (S n)) with (Z.of_nat n + 1) in * by lia.
  destruct (Z.eqb_spec ((Z.of_nat n + 1) mod 9) 0) as [Hz | Hz]; cbn [negb length]; lia.
Qed.

Lemma framed_state_zero (st : Crypto1LfsrState_t) (n : nat) :
  framed_state st (fun _ => 0) n
  = clocks st (repeat 0 (Z.to_nat (Z.of_nat n - Z.of_nat n / 9))).
Proof.
  rewrite framed_state_clocks, map_zero_repeat, data_positions_length. reflexivity.
Qed.

Lemma encrypt_parity_framed (B : list Z) (l : list Z * Crypto1LfsrState_t) (i : nat) :
  stream_bit (fst l) (Z.of_nat i) = stream_bit B (Z.of_nat i) ->
  encrypt_parity_pass l (Z.of_nat i) = framed_pass ((fun _ : Z => 0) (Z.of_nat i)) l (Z.of_nat i).
Proof.
  intros _. destruct l as [Bn s]. unfold encrypt_parity_pass, framed_pass.
  rewrite fst_pair, snd_pair.
  destruct (nonzero ((Z.of_nat i + 1) mod 9)); reflexivity.
Qed.

Lemma reader_auth_pass_eq (Bn : list Z) (s : Crypto1LfsrState_t) (i : Z) :
  reader_auth_pass (Bn, s) i
  = (upd Bn (i / 8) (u8 (idx Bn (i / 8) .^ (Crypto1FilterOutput s .<< (i mod 8)))),
     if nonzero ((i + 1) mod 9)
     then Crypto1LFSR s (if i <? 36 then u8 (idx Bn (i / 8) .>> (i mod 8)) .& 1 else 0)
     else s).
Proof.
  unfold reader_auth_pass. destruct (nonzero ((i + 1) mod 9)), (i <? 36); reflexivity.
Qed.

Lemma reader_auth_framed (B : list Z) (l : list Z * Crypto1LfsrState_t) (i : nat) :
  stream_bit (fst l) (Z.of_nat i) = stream_bit B (Z.of_nat i) ->
  reader_auth_pass l (Z.of_nat i) = framed_pass (reader_bit B (Z.of_nat i)) l (Z.of_nat i).
Proof.
  destruct l as [Bn s]. rewrite fst_pair. intros H.
  rewrite reader_auth_pass_eq, framed_pass_eq. unfold reader_bit.
  rewrite low_bit_of_shifted by (apply Z.mod_pos_bound; lia).
  fold (stream_bit Bn (Z.of_nat i)). rewrite H. reflexivity.
Qed.

Lemma Crypto1EncryptWithParity_eq (st : Crypto1LfsrState_t) (B : list Z) (BitCount : Z) :
  Crypto1EncryptWithParity st B BitCount
  = fold_left encrypt_parity_pass (upto (Z.to_nat BitCount)) (B, st).
Proof. reflexivity. Qed.

Lemma Crypto1ReaderAuthWithParity_eq (st : Crypto1LfsrState_t) (B : list Z) :
  Crypto1ReaderAuthWithParity st B = fold_left reader_auth_pass (upto 72) (B, st).
Proof. reflexivity. Qed.

Lemma encrypt_with_parity_loop (st : Crypto1LfsrState_t) (B : list Z) (BitCount : Z) :
  0 <= BitCount ->
  let r := Crypto1EncryptWithParity st B BitCount in
  snd r = clocks st (repeat 0 (Z.to_nat (BitCount - BitCount / 9)))
  /\ length (fst r) = length B
  /\ forall p : Z, 0 <= p ->
       stream_bit (fst r) p
       = xorb (stream_bit B p)
           ((p <? BitCount) && (p / 8 <? Z.of_nat (length B))
            && (Crypto1FilterOutput (clocks st (repeat 0 (Z.to_nat (p - p / 9)))) =? 1)).
Proof.
  intros Hc. cbv zeta. rewrite Crypto1EncryptWithParity_eq.
  destruct (framed_invariant st B (fun _ => 0) encrypt_parity_pass
              (encrypt_parity_framed B) (Z.to_nat BitCount)) as (HS & HL & HB).
  rewrite HS, framed_state_zero, Z2Nat.id by lia.
  split; [reflexivity|]. split; [exact HL|].
  intros p Hp. rewrite HB by exact Hp. rewrite framed_state_zero, !Z2Nat.id by lia.
  reflexivity.
Qed.

Lemma reader_inputs (B : list Z) :
  map (reader_bit B) (data_positions 72)
  = map (fun i => Z.b2z (stream_bit B i)) (data_positions 36) ++ repeat 0 32.
Proof. reflexivity. Qed.

Lemma reader_auth_loop (st : Crypto1LfsrState_t) (B : list Z) :
  let r := Crypto1ReaderAuthWithParity st B in
  snd r = clocks st (map (fun i => Z.b2z (stream_bit B i)) (data_positions 36)
                       ++ repeat 0 32)
  /\ length (fst r) = length B
  /\ forall p : Z, 0 <= p ->
       stream_bit (fst r) p
       = xorb (stream_bit B p)
           ((p <? 72) && (p / 8 <? Z.of_nat (length B))
            && (Crypto1FilterOutput
                  (clocks st (map (reader_bit B) (data_positions (Z.to_nat p)))) =? 1)).
Proof.
  cbv zeta. rewrite Crypto1ReaderAuthWithParity_eq.
  destruct (framed_invariant st B (reader_bit B) reader_auth_pass
              (reader_auth_framed B) 72) as (HS & HL & HB).
  rewrite HS, framed_state_clocks, reader_inputs.
  split; [reflexivity|]. split; [exact HL|].
  intros p Hp. rewrite HB by exact Hp. rewrite framed_state_clocks. reflexivity.
Qed.

End StreamFacts.
Import StreamFacts.

(** ** More on the packed implementation *)
Module PackedFacts.
Import HexUtils Crapto1 Crypto1.

Lemma clock_bits_cons (s : Crypto1State) (b : Z) (l : list Z) (e : Z) :
  clock_bits s (b :: l) e
  = (fst (crypto1_bit s b e) :: fst (clock_bits (snd (crypto1_bit s b e)) l e),
     snd (clock_bits (snd (crypto1_bit s b e)) l e)).
Proof. reflexivity. Qed.

Lemma clock_bits_nil (s : Crypto1State) (e : Z) : clock_bits s [] e = ([], s).
Proof. reflexivity. Qed.

Lemma crypto1_byte_fold (s : Crypto1State) (in_ e : Z) :
  crypto1_byte s in_ e = fold_left (byte_step in_ e) (upto 8) (0, s).
Proof. reflexivity. Qed.

Lemma byte_step_eq (in_ e ret : Z) (s : Crypto1State) (i : Z) :
  byte_step in_ e (ret, s) i
  = (u8 (ret .| (fst (crypto1_bit s (BIT in_ i) e) .<< i)),
     snd (crypto1_bit s (BIT in_ i) e)).
Proof. reflexivity. Qed.

Lemma packed_byte_assemble (o0 o1 o2 o3 o4 o5 o6 o7 : Z) :
  is_bit o0 -> is_bit o1 -> is_bit o2 -> is_bit o3 ->
  is_bit o4 -> is_bit o5 -> is_bit o6 -> is_bit o7 ->
  u8 (u8 (u8 (u8 (u8 (u8 (u8 (u8 (0 .| (o0 .<< 0)) .| (o1 .<< 1)) .| (o2 .<< 2))
    .| (o3 .<< 3)) .| (o4 .<< 4)) .| (o5 .<< 5)) .| (o6 .<< 6)) .| (o7 .<< 7))
  = bits_lsb [o0; o1; o2; o3; o4; o5; o6; o7].
Proof.
  unfold is_bit.
  intros [-> | ->] [-> | ->] [-> | ->] [-> | ->] [-> | ->] [-> | ->] [-> | ->] [-> | ->];
    reflexivity.
Qed.

(** [crypto1_byte] is eight [crypto1_bit] calls on the bits of the input
    byte from the least significant up; the returned byte holds their
    outputs in that order. *)
Lemma crypto1_byte_calls (s : Crypto1State) (in_ e : Z) :
  crypto1_byte s in_ e
  = (bits_lsb (fst (clock_bits s (byte_bits_of in_) e)),
     snd (clock_bits s (byte_bits_of in_) e)).
Proof.
  rewrite crypto1_byte_fold, fold_upto_8, byte_bits_of_eq.
  rewrite byte_step_eq.
  rewrite (clock_bits_cons s).
  remember (crypto1_bit s (BIT in_ 0) e) as r0 eqn:H0.
  pose proof (crypto1_bit_out_is_bit s (BIT in_ 0) e) as B0. rewrite <- H0 in B0. clear H0.
  rewrite byte_step_eq, !fst_pair, !snd_pair. rewrite (clock_bits_cons (snd r0)).
  remember (crypto1_bit (snd r0) (BIT in_ 1) e) as r1 eqn:H1.
  pose proof (crypto1_bit_out_is_bit (snd r0) (BIT in_ 1) e) as B1. rewrite <- H1 in B1.
  clear H1.
  rewrite byte_step_eq, !fst_pair, !snd_pair. rewrite (clock_bits_cons (snd r1)).
  remember (crypto1_bit (snd r1) (BIT in_ 2) e) as r2 eqn:H2.
  pose proof (crypto1_bit_out_is_bit (snd r1) (BIT in_ 2) e) as B2. rewrite <- H2 in B2.
  clear H2.
  rewrite byte_step_eq, !fst_pair, !snd_pair. rewrite (clock_bits_cons (snd r2)).
  remember (crypto1_bit (snd r2) (BIT in_ 3) e) as r3 eqn:H3.
  pose proof (crypto1_bit_out_is_bit (snd r2) (BIT in_ 3) e) as B3. rewrite <- H3 in B3.
  clear H3.
  rewrite byte_step_eq, !fst_pair, !snd_pair. rewrite (clock_bits_cons (snd r3)).
  remember (crypto1_bit (snd r3) (BIT in_ 4) e) as r4 eqn:H4.
  pose proof (crypto1_bit_out_is_bit (snd r3) (BIT in_ 4) e) as B4. rewrite <- H4 in B4.
  clear H4.
  rewrite byte_step_eq, !fst_pair, !snd_pair. rewrite (clock_bits_cons (snd r4)).
  remember (crypto1_bit (snd r4) (BIT in_ 5) e) as r5 eqn:H5.
  pose proof (crypto1_bit_out_is_bit (snd r4) (BIT in_ 5) e) as B5. rewrite <- H5 in B5.
  clear H5.
  rewrite byte_step_eq, !fst_pair, !snd_pair. rewrite (clock_bits_cons (snd r5)).
  remember (crypto1_bit (snd r5) (BIT in_ 6) e) as r6 eqn:H6.
  pose proof (crypto1_bit_out_is_bit (snd r5) (BIT in_ 6) e) as B6. rewrite <- H6 in B6.
  clear H6.
  rewrite byte_step_eq, !fst_pair, !snd_pair. rewrite (clock_bits_cons (snd r6)).
  remember (crypto1_bit (snd r6) (BIT in_ 7) e) as r7 eqn:H7.
  pose proof (crypto1_bit_out_is_bit (snd r6) (BIT in_ 7) e) as B7. rewrite <- H7 in B7.
  clear H7.
  rewrite clock_bits_nil, !fst_pair, !snd_pair.
  rewrite packed_byte_assemble by assumption. reflexivity.
Qed.

(** One bit of a half reloaded by [crypto1_init], traced back through
    [crypto1_get_lfsr] to the bit of the half it was exported from. *)
Ltac reload_bit :=
  cbn [Nat.ltb Nat.leb andb Nat.sub nth init_indices map upto seq];
  eval_bit_index; rewrite BIT_eqb by lia;
  match goal with
  | |- context [Z.testbit (crypto1_get_lfsr _) ?c] =>
      let n := eval vm_compute in (Z.to_nat c) in
      replace c with (Z.of_nat n) by reflexivity
  end;
  rewrite get_lfsr_bit;
  cbn [Nat.ltb Nat.leb andb Nat.sub nth flat_map lfsr_indices map upto seq app];
  eval_bit_index; rewrite BIT_eqb by lia;
  reflexivity.

Lemma reload_odd (s : Crypto1State) :
  0 <= odd s < 2 ^ 24 -> odd (crypto1_init (crypto1_get_lfsr s)) = odd s.
Proof.
  intros Ho. apply Z.bits_inj'. intros n Hn.
  rewrite init_odd_bit by exact Hn.
  generalize (Z.to_nat n) (Z2Nat.id n Hn). intros j Hj. rewrite <- Hj. clear n Hn Hj.
  destruct (Nat.ltb_spec j 24) as [Hlt|Hge].
  - do 24 (destruct j as [|j]; [ reload_bit | ]). lia.
  - cbn [andb]. symmetry. apply (testbit_high 24); lia.
Qed.

Lemma reload_even (s : Crypto1State) :
  0 <= even s < 2 ^ 24 -> even (crypto1_init (crypto1_get_lfsr s)) = even s.
Proof.
  intros He. apply Z.bits_inj'. intros n Hn.
  rewrite init_even_bit by exact Hn.
  generalize (Z.to_nat n) (Z2Nat.id n Hn). intros j Hj. rewrite <- Hj. clear n Hn Hj.
  destruct (Nat.ltb_spec j 24) as [Hlt|Hge].
  - do 24 (destruct j as [|j]; [ reload_bit | ]). lia.
  - cbn [andb]. symmetry. apply (testbit_high 24); lia.
Qed.

Lemma get_lfsr_range (s : Crypto1State) : 0 <= crypto1_get_lfsr s < 2 ^ 48.
Proof.
  rewrite crypto1_get_lfsr_bits.
  apply (bits_msb_range 64 _ (lfsr_is_bits s)). vm_compute. discriminate.
Qed.

Lemma state_record_eq (s t : Crypto1State) : odd s = odd t -> even s = even t -> s = t.
Proof. destruct s, t. cbn [odd even]. intros -> ->. reflexivity. Qed.

Lemma REV_testbit (z i : Z) :
  0 <= i ->
  Z.testbit (__REV z) i
  = if i <? 8 then Z.testbit z (i + 24)
    else if i <? 16 then Z.testbit z (i + 8)
    else if i <? 24 then Z.testbit z (i - 8)
    else if i <? 32 then Z.testbit z (i - 24)
    else false.
Proof.
  intros Hi. unfold __REV. change 255 with (Z.ones 8).
  rewrite !Z.lor_spec.
  destruct (Z.ltb_spec i 8); [|destruct (Z.ltb_spec i 16);
    [|destruct (Z.ltb_spec i 24); [|destruct (Z.ltb_spec i 32)]]];
    rev_bits; rewrite ?andb_true_r, ?andb_false_r, ?orb_false_r; cbn [orb];
    try reflexivity; f_equal; lia.
Qed.

(** The byte swap undoes itself on 32-bit words. *)
Lemma REV_involutive (y : Z) : 0 <= y < 2 ^ 32 -> __REV (__REV y) = y.
Proof.
  intros Hy. apply Z.bits_inj'. intros i Hi. rewrite REV_testbit by exact Hi.
  destruct (Z.ltb_spec i 8); [|destruct (Z.ltb_spec i 16);
    [|destruct (Z.ltb_spec i 24); [|destruct (Z.ltb_spec i 32)]]].
  - rewrite REV_testbit by lia.
    rewrite (ltb_false (i + 24) 8), (ltb_false (i + 24) 16), (ltb_false (i + 24) 24),
      (ltb_true (i + 24) 32) by lia.
    f_equal. lia.
  - rewrite REV_testbit by lia.
    rewrite (ltb_false (i + 8) 8), (ltb_false (i + 8) 16), (ltb_true (i + 8) 24) by lia.
    f_equal. lia.
  - rewrite REV_testbit by lia.
    rewrite (ltb_false (i - 8) 8), (ltb_true (i - 8) 16) by lia.
    f_equal. lia.
  - rewrite REV_testbit by lia.
    rewrite (ltb_true (i - 24) 8) by lia.
    f_equal. lia.
  - symmetry. apply (testbit_high 32); lia.
Qed.

Lemma prng_successor_add (x a b : Z) :
  0 <= a -> 0 <= b ->
  prng_successor (prng_successor x a) b = prng_successor x (a + b).
Proof.
  intros Ha Hb. rewrite !prng_successor_iter.
  rewrite REV_involutive by (apply prng_iter_range; apply REV_range).
  rewrite Z2Nat.inj_add by assumption.
  rewrite (Nat.add_comm (Z.to_nat a)), Nat.iter_add. reflexivity.
Qed.

Lemma prng_successor_zero (x : Z) : 0 <= x < 2 ^ 32 -> prng_successor x 0 = x.
Proof.
  intros Hx. rewrite prng_successor_iter. cbn [Z.to_nat Nat.iter].
  apply REV_involutive. exact Hx.
Qed.

Lemma nibble_low24 (x k : Z) :
  0 <= k <= 20 -> ((x .& 0xFFFFFF) .>> k) .& 0xf = (x .>> k) .& 0xf.
Proof.
  intros Hk. apply Z.bits_inj'. intros i Hi.
  change 0xFFFFFF with (Z.ones 24). change 0xf with (Z.ones 4).
  rewrite !Z.land_spec, !Z.shiftr_spec, Z.land_spec by lia.
  rewrite (Z.testbit_ones_nonneg 4 i) by lia.
  destruct (Z.ltb_spec i 4); [|rewrite !andb_false_r; reflexivity].
  rewrite Z.testbit_ones_nonneg by lia. rewrite ltb_true by lia.
  rewrite !andb_true_r. reflexivity.
Qed.

(** The filter reads bits 0 to 19 of its argument only. *)
Lemma filter_low24 (x : Z) : filter (x .& 0xFFFFFF) = filter x.
Proof.
  unfold filter.
  rewrite <- (Z.shiftr_0_r (x .& 0xFFFFFF)), <- (Z.shiftr_0_r x) at 1.
  rewrite !nibble_low24 by lia. rewrite !Z.shiftr_0_r. reflexivity.
Qed.

Lemma poly_low24 (p x : Z) : p .& 0xFFFFFF = p -> p .& (x .& 0xFFFFFF) = p .& x.
Proof.
  intros Hp. rewrite (Z.land_comm x), Z.land_assoc, Hp. reflexivity.
Qed.

Lemma shift_low24 (t p : Z) :
  is_bit p ->
  u32 ((t .<< 1) .| p) .& 0xFFFFFF = u32 (((t .& 0xFFFFFF) .<< 1) .| p) .& 0xFFFFFF.
Proof.
  intros Hp. apply Z.bits_inj'. intros i Hi. unfold u32.
  change 0xFFFFFF with (Z.ones 24).
  rewrite !Z.land_spec, !Z.testbit_mod_pow2, !Z.lor_spec by lia.
  rewrite (Z.testbit_ones_nonneg 24 i) by lia.
  destruct (Z.ltb_spec i 24); [|rewrite !andb_false_r; reflexivity].
  rewrite !andb_true_r. rewrite ltb_true by lia. rewrite !andb_true_l.
  f_equal.
  destruct (Z.eq_dec i 0) as [-> | Hne].
  - rewrite !Z.shiftl_spec_low by lia. reflexivity.
  - rewrite !Z.shiftl_spec_high by lia. rewrite Z.land_spec.
    rewrite Z.testbit_ones_nonneg by lia. rewrite ltb_true by lia.
    rewrite andb_true_r. reflexivity.
Qed.

Lemma crypto1_bit_eq (s : Crypto1State) (in_ e : Z) :
  crypto1_bit s in_ e
  = (u8 (filter (odd s)),
     {| odd := even s;
        even := u32 ((odd s .<< 1)
                     .| evenparity32
                          ((((u8 (filter (odd s)) .& truth e) .^ truth in_)
                            .^ (LF_POLY_ODD .& odd s)) .^ (LF_POLY_EVEN .& even s))) |}).
Proof. reflexivity. Qed.

(** One clock on two states with the same 24 bits in each half. *)
Lemma crypto1_bit_low24 (s s' : Crypto1State) (in_ e : Z) :
  same_low24 s s' ->
  fst (crypto1_bit s in_ e) = fst (crypto1_bit s' in_ e)
  /\ same_low24 (snd (crypto1_bit s in_ e)) (snd (crypto1_bit s' in_ e)).
Proof.
  intros [Ho He]. rewrite !crypto1_bit_eq, !fst_pair, !snd_pair.
  assert (Hf : filter (odd s) = filter (odd s')).
  { rewrite <- (filter_low24 (odd s)), <- (filter_low24 (odd s')), Ho. reflexivity. }
  assert (Hpo : LF_POLY_ODD .& odd s = LF_POLY_ODD .& odd s').
  { rewrite <- (poly_low24 LF_POLY_ODD (odd s)), <- (poly_low24 LF_POLY_ODD (odd s'))
      by reflexivity. rewrite Ho. reflexivity. }
  assert (Hpe : LF_POLY_EVEN .& even s = LF_POLY_EVEN .& even s').
  { rewrite <- (poly_low24 LF_POLY_EVEN (even s)), <- (poly_low24 LF_POLY_EVEN (even s'))
      by reflexivity. rewrite He. reflexivity. }
  rewrite Hf, Hpo, Hpe. split; [reflexivity|].
  unfold same_low24. cbn [odd even]. split; [exact He|].
  rewrite shift_low24 by apply evenparity32_is_bit.
  rewrite (shift_low24 (odd s')) by apply evenparity32_is_bit.
  rewrite Ho. reflexivity.
Qed.

(** The bits of the halves above bit 23 never reach the output. *)
Lemma clock_bits_low24 (ins : list Z) (e : Z) :
  forall s s' : Crypto1State,
    same_low24 s s' ->
    fst (clock_bits s ins e) = fst (clock_bits s' ins e)
    /\ same_low24 (snd (clock_bits s ins e)) (snd (clock_bits s' ins e)).
Proof.
  induction ins as [|b ins IH]; intros s s' H.
  - rewrite !clock_bits_nil. split; [reflexivity | exact H].
  - rewrite !clock_bits_cons, !fst_pair, !snd_pair.
    destruct (crypto1_bit_low24 s s' b e H) as [Hb Hs].
    destruct (IH _ _ Hs) as [Ho Hn]. rewrite Hb, Ho. split; [reflexivity | exact Hn].
Qed.

End PackedFacts.
Import PackedFacts.

(** ** Numbers and byte arrays *)
Module HexFacts.
Import HexUtils Crapto1 Crypto1.

Lemma num_to_bytes_idx (l : nat) :
  forall (m : Z) (d : list Z) (i : Z),
    (l <= length d)%nat -> 0 <= i ->
    idx (num_to_bytes_loop l m d) i
    = if i <? Z.of_nat l then u8 (m .>> (8 * (Z.of_nat l - 1 - i))) else idx d i.
Proof.
  induction l as [|l IH]; intros m d i Hl Hi.
  - cbn [num_to_bytes_loop]. rewrite ltb_false by lia. reflexivity.
  - cbn [num_to_bytes_loop]. rewrite IH by (rewrite ?upd_length; lia).
    rewrite idx_upd by lia.
    destruct (Z.ltb_spec i (Z.of_nat l)).
    + rewrite (ltb_true i (Z.of_nat (S l))) by lia.
      rewrite Z.shiftr_shiftr by lia. f_equal. f_equal. lia.
    + destruct (Z.eqb_spec i (Z.of_nat l)) as [-> | Hne].
      * rewrite (ltb_true (Z.of_nat l) (Z.of_nat (length d))) by lia.
        rewrite (ltb_true (Z.of_nat l) (Z.of_nat (S l))) by lia.
        cbn [andb]. replace (8 * (Z.of_nat (S l) - 1 - Z.of_nat l)) with 0 by lia.
        rewrite Z.shiftr_0_r. reflexivity.
      * cbn [andb]. rewrite (ltb_false i (Z.of_nat (S l))) by lia. reflexivity.
Qed.

Lemma num_to_bytes_length (l : nat) :
  forall (m : Z) (d : list Z), length (num_to_bytes_loop l m d) = length d.
Proof.
  induction l as [|l IH]; intros m d; [reflexivity|].
  cbn [num_to_bytes_loop]. rewrite IH, upd_length. reflexivity.
Qed.

(** The generic loop of [bytes_to_num] over the bytes of [n]. *)
Lemma bytes_to_num_loop (src : list Z) (n : Z) (len : nat) :
  0 <= n < 2 ^ 64 ->
  (forall i, 0 <= i < Z.of_nat len ->
     idx src i = u8 (n .>> (8 * (Z.of_nat len - 1 - i)))) ->
  forall k : nat, (k <= len)%nat ->
    fold_left (fun num i => u64 ((num .<< 8) .| idx src i)) (upto k) 0
    = (n .>> (8 * (Z.of_nat len - Z.of_nat k))) mod 2 ^ (8 * Z.of_nat k).
Proof.
  intros Hn Hsrc k. induction k as [|k IH]; intros Hk.
  - cbn [upto seq map fold_left]. rewrite Z.mul_0_r, Z.pow_0_r, Z.mod_1_r. reflexivity.
  - rewrite upto_S, fold_left_app, fold_cons, fold_nil. rewrite IH by lia.
    rewrite Hsrc by lia. unfold u64, u8.
    apply Z.bits_inj'. intros j Hj.
    assert (Hhigh : forall a b, 0 <= a -> 64 <= b -> Z.testbit (n .>> a) b = false).
    { intros a b Ha Hb. rewrite Z.shiftr_spec by lia. apply (testbit_high 64); lia. }
    destruct (Z.ltb_spec j 8).
    + bit_blast. f_equal. lia.
    + destruct (Z.ltb_spec j (8 * Z.of_nat (S k))).
      * destruct (Z.ltb_spec j 64).
        -- bit_blast. f_equal. lia.
        -- bit_blast. symmetry. apply (testbit_high 64); lia.
      * bit_blast. destruct (j <? 64); reflexivity.
Qed.

(** What [num_to_bytes] writes is what [bytes_to_num] reads back. *)
Lemma bytes_to_num_of_num_to_bytes (n len : Z) (dest : list Z) :
  0 <= n < 2 ^ 64 -> 0 <= len -> len <= Z.of_nat (length dest) ->
  bytes_to_num (num_to_bytes n len dest) len = n mod 2 ^ (8 * len).
Proof.
  intros Hn Hlen Hdest. unfold num_to_bytes.
  assert (Hidx : forall i, 0 <= i < len ->
            idx (num_to_bytes_loop (Z.to_nat len) n dest) i
            = u8 (n .>> (8 * (len - 1 - i)))).
  { intros i Hi. rewrite num_to_bytes_idx by lia.
    rewrite Z2Nat.id by lia. rewrite ltb_true by lia. reflexivity. }
  remember (num_to_bytes_loop (Z.to_nat len) n dest) as src eqn:Hsrc. clear Hsrc.
  unfold bytes_to_num.
  destruct (Z.eqb_spec len 4) as [-> | H4].
  { rewrite !Hidx by lia. unfold u32, u8.
    apply Z.bits_inj'. intros j Hj.
    destruct (Z.ltb_spec j 8); [bit_blast; f_equal; lia|].
    destruct (Z.ltb_spec j 16); [bit_blast; f_equal; lia|].
    destruct (Z.ltb_spec j 24); [bit_blast; f_equal; lia|].
    destruct (Z.ltb_spec j 32); [bit_blast; f_equal; lia|].
    bit_blast. reflexivity. }
  destruct (Z.eqb_spec len 2) as [-> | H2].
  { rewrite !Hidx by lia. unfold u8.
    apply Z.bits_inj'. intros j Hj.
    destruct (Z.ltb_spec j 8); [bit_blast; f_equal; lia|].
    destruct (Z.ltb_spec j 16); [bit_blast; f_equal; lia|].
    bit_blast. reflexivity. }
  destruct (Z.eqb_spec len 1) as [-> | H1].
  { rewrite !Hidx by lia. unfold u8. rewrite Z.shiftr_0_r. reflexivity. }
  destruct (Z.eqb_spec len 0) as [-> | H0].
  { rewrite Z.mul_0_r, Z.pow_0_r, Z.mod_1_r. reflexivity. }
  rewrite (bytes_to_num_loop src n (Z.to_nat len) Hn).
  - rewrite Z2Nat.id by lia. rewrite Z.sub_diag, Z.mul_0_r, Z.shiftr_0_r. reflexivity.
  - intros i Hi. rewrite Z2Nat.id in * by lia. apply Hidx. exact Hi.
  - lia.
Qed.

End HexFacts.
Import HexFacts.

(** ** The two key loads *)
Module KeyFacts.
Import HexUtils Crapto1 Crypto1.

Lemma LoadKey_eq (k0 k1 k2 k3 k4 k5 : Z) :
  LoadKey [k0; k1; k2; k3; k4; k5]
  = {| Even := (fst (split_pair k0 k1), fst (split_pair k2 k3), fst (split_pair k4 k5));
       Odd := (snd (split_pair k0 k1), snd (split_pair k2 k3), snd (split_pair k4 k5)) |}.
Proof.
  unfold LoadKey, split_pair.
  replace (idx [k0; k1; k2; k3; k4; k5] 0) with k0 by reflexivity.
  replace (idx [k0; k1; k2; k3; k4; k5] 1) with k1 by reflexivity.
  replace (idx [k0; k1; k2; k3; k4; k5] 2) with k2 by reflexivity.
  replace (idx [k0; k1; k2; k3; k4; k5] 3) with k3 by reflexivity.
  replace (idx [k0; k1; k2; k3; k4; k5] 4) with k4 by reflexivity.
  replace (idx [k0; k1; k2; k3; k4; k5] 5) with k5 by reflexivity.
  destruct (SPLIT_BYTE 0 0 k0) as [e0 o0]. rewrite !fst_pair, !snd_pair.
  destruct (SPLIT_BYTE e0 o0 k1) as [e0' o0'].
  destruct (SPLIT_BYTE 0 0 k2) as [e1 o1]. rewrite !fst_pair, !snd_pair.
  destruct (SPLIT_BYTE e1 o1 k3) as [e1' o1'].
  destruct (SPLIT_BYTE 0 0 k4) as [e2 o2]. rewrite !fst_pair, !snd_pair.
  destruct (SPLIT_BYTE e2 o2 k5) as [e2' o2'].
  rewrite !fst_pair, !snd_pair. reflexivity.
Qed.

Lemma SPLIT_BYTE_eq (e o b : Z) :
  SPLIT_BYTE e o b
  = (
     u8 ((u8 ((u8 ((u8 ((e .>> 1) .| ((b .& 1) .<< 7)) .>> 1) .| ((((b .>> 1) .>> 1)
       .& 1) .<< 7)) .>> 1) .| ((((((b .>> 1) .>> 1) .>> 1) .>> 1) .& 1) .<< 7)) .>>
       1) .| ((((((((b .>> 1) .>> 1) .>> 1) .>> 1) .>> 1) .>> 1) .& 1) .<< 7)),
     u8 ((u8 ((u8 ((u8 ((o .>> 1) .| (((b .>> 1) .& 1) .<< 7)) .>> 1) .| (((((b .>>
       1) .>> 1) .>> 1) .& 1) .<< 7)) .>> 1) .| (((((((b .>> 1) .>> 1) .>> 1) .>> 1)
       .>> 1) .& 1) .<< 7)) .>> 1) .| (((((((((b .>> 1) .>> 1) .>> 1) .>> 1) .>> 1)
       .>> 1) .>> 1) .& 1) .<< 7))).
Proof. reflexivity. Qed.

(** [SPLIT_BYTE] moves each register down four places and puts the
    even bits of the byte on top of the one, the odd bits on top of the
    other. *)
Lemma SPLIT_BYTE_bits (e o b t : Z) :
  is_byte e -> is_byte o -> 0 <= t < 8 ->
  Z.testbit (fst (SPLIT_BYTE e o b)) t
  = (if t <? 4 then Z.testbit e (t + 4) else Z.testbit b (2 * (t - 4)))
  /\ Z.testbit (snd (SPLIT_BYTE e o b)) t
     = (if t <? 4 then Z.testbit o (t + 4) else Z.testbit b (2 * (t - 4) + 1)).
Proof.
  intros He Ho Ht. rewrite SPLIT_BYTE_eq, fst_pair, snd_pair. unfold u8.
  assert (Hc : t = 0 \/ t = 1 \/ t = 2 \/ t = 3 \/ t = 4 \/ t = 5 \/ t = 6 \/ t = 7)
    by lia.
  destruct Hc as [-> | [-> | [-> | [-> | [-> | [-> | [-> | ->]]]]]]];
    (split; mask_blast; f_equal; lia).
Qed.

Lemma SPLIT_BYTE_is_byte (e o b : Z) :
  is_byte (fst (SPLIT_BYTE e o b)) /\ is_byte (snd (SPLIT_BYTE e o b)).
Proof. rewrite SPLIT_BYTE_eq, fst_pair, snd_pair. split; apply u8_is_byte. Qed.

(** The registers a pair of key bytes is dealt into: the first byte
    fills the low nibbles, the second the high ones. *)
Lemma split_pair_bits (a b t : Z) :
  0 <= t < 8 ->
  Z.testbit (fst (split_pair a b)) t
  = Z.testbit (if t <? 4 then a else b) (2 * (t mod 4))
  /\ Z.testbit (snd (split_pair a b)) t
     = Z.testbit (if t <? 4 then a else b) (2 * (t mod 4) + 1).
Proof.
  intros Ht. unfold split_pair.
  assert (Hz : is_byte 0) by (unfold is_byte; lia).
  destruct (SPLIT_BYTE_is_byte 0 0 a) as [He Ho].
  destruct (SPLIT_BYTE_bits (fst (SPLIT_BYTE 0 0 a)) (snd (SPLIT_BYTE 0 0 a)) b t He Ho Ht)
    as [H1 H2].
  rewrite H1, H2. clear H1 H2.
  destruct (Z.ltb_spec t 4).
  - destruct (SPLIT_BYTE_bits 0 0 a (t + 4) Hz Hz ltac:(lia)) as [H1 H2].
    rewrite H1, H2. rewrite ltb_false by lia.
    rewrite Z.mod_small by lia. split; f_equal; lia.
  - replace (t mod 4) with (t - 4); [split; reflexivity|].
    apply (Z.mod_unique t 4 1); lia.
Qed.

Lemma split_pair_is_byte (a b : Z) :
  is_byte (fst (split_pair a b)) /\ is_byte (snd (split_pair a b)).
Proof. unfold split_pair. apply SPLIT_BYTE_is_byte. Qed.

Lemma bytes_to_num_6 (k0 k1 k2 k3 k4 k5 : Z) :
  bytes_to_num [k0; k1; k2; k3; k4; k5] 6
  = u64 ((u64 ((u64 ((u64 ((u64 ((u64 ((0 .<< 8) .| k0) .<< 8) .| k1) .<< 8) .| k2) .<< 8)
                       .| k3) .<< 8) .| k4) .<< 8) .| k5).
Proof. reflexivity. Qed.

(** The 48-bit key read from six bytes, the first the most
    significant. *)
Lemma key_testbit (k0 k1 k2 k3 k4 k5 p : Z) :
  is_byte k0 -> is_byte k1 -> is_byte k2 -> is_byte k3 -> is_byte k4 -> is_byte k5 ->
  0 <= p ->
  Z.testbit (bytes_to_num [k0; k1; k2; k3; k4; k5] 6) p
  = if p <? 8 then Z.testbit k5 p
    else if p <? 16 then Z.testbit k4 (p - 8)
    else if p <? 24 then Z.testbit k3 (p - 16)
    else if p <? 32 then Z.testbit k2 (p - 24)
    else if p <? 40 then Z.testbit k1 (p - 32)
    else if p <? 48 then Z.testbit k0 (p - 40)
    else false.
Proof.
  intros H0 H1 H2 H3 H4 H5 Hp. rewrite bytes_to_num_6. unfold u64.
  rewrite Z.shiftl_0_l, Z.lor_0_l.
  destruct (Z.ltb_spec p 8); [|destruct (Z.ltb_spec p 16); [|destruct (Z.ltb_spec p 24);
    [|destruct (Z.ltb_spec p 32); [|destruct (Z.ltb_spec p 40);
    [|destruct (Z.ltb_spec p 48)]]]]];
    mask_blast; try reflexivity; try (f_equal; lia).
Qed.

Section KeyLoad.

Variables k0 k1 k2 k3 k4 k5 : Z.
Hypothesis H0 : is_byte k0.
Hypothesis H1 : is_byte k1.
Hypothesis H2 : is_byte k2.
Hypothesis H3 : is_byte k3.
Hypothesis H4 : is_byte k4.
Hypothesis H5 : is_byte k5.

Lemma key_load_odd_bit (c : Z) :
  0 <= c < 24 ->
  Z.testbit (le24 (snd (split_pair k0 k1), snd (split_pair k2 k3), snd (split_pair k4 k5)))
    (23 - c)
  = Z.testbit (bytes_to_num [k0; k1; k2; k3; k4; k5] 6) ((2 * c) .^ 7).
Proof.
  intros Hc.
  destruct (split_pair_is_byte k0 k1) as [_ B0].
  destruct (split_pair_is_byte k2 k3) as [_ B1].
  destruct (split_pair_is_byte k4 k5) as [_ B2].
  pose proof (fun t Ht => proj2 (split_pair_bits k0 k1 t Ht)) as S0.
  pose proof (fun t Ht => proj2 (split_pair_bits k2 k3 t Ht)) as S1.
  pose proof (fun t Ht => proj2 (split_pair_bits k4 k5 t Ht)) as S2.
  remember (snd (split_pair k0 k1)) as O0 eqn:E0. clear E0.
  remember (snd (split_pair k2 k3)) as O1 eqn:E1. clear E1.
  remember (snd (split_pair k4 k5)) as O2 eqn:E2. clear E2.
  rewrite le24_testbit by lia.
  assert (Hcases : c = 0 \/ c = 1 \/ c = 2 \/ c = 3 \/ c = 4 \/ c = 5 \/ c = 6
                   \/ c = 7 \/ c = 8 \/ c = 9 \/ c = 10 \/ c = 11 \/ c = 12
                   \/ c = 13 \/ c = 14 \/ c = 15 \/ c = 16 \/ c = 17 \/ c = 18
                   \/ c = 19 \/ c = 20 \/ c = 21 \/ c = 22 \/ c = 23) by lia.
  repeat (destruct Hcases as [-> | Hcases]); [.. | subst c];
    (rewrite key_testbit by (assumption || (vm_compute; discriminate)));
    off_byte; rewrite ?orb_false_l, ?orb_false_r;
    first [ rewrite S0 by lia | rewrite S1 by lia | rewrite S2 by lia ];
    vm_compute; reflexivity.
Qed.

Lemma key_load_even_bit (c : Z) :
  0 <= c < 24 ->
  Z.testbit (le24 (fst (split_pair k0 k1), fst (split_pair k2 k3), fst (split_pair k4 k5)))
    (23 - c)
  = Z.testbit (bytes_to_num [k0; k1; k2; k3; k4; k5] 6) ((2 * c + 1) .^ 7).
Proof.
  intros Hc.
  destruct (split_pair_is_byte k0 k1) as [B0 _].
  destruct (split_pair_is_byte k2 k3) as [B1 _].
  destruct (split_pair_is_byte k4 k5) as [B2 _].
  pose proof (fun t Ht => proj1 (split_pair_bits k0 k1 t Ht)) as S0.
  pose proof (fun t Ht => proj1 (split_pair_bits k2 k3 t Ht)) as S1.
  pose proof (fun t Ht => proj1 (split_pair_bits k4 k5 t Ht)) as S2.
  remember (fst (split_pair k0 k1)) as O0 eqn:E0. clear E0.
  remember (fst (split_pair k2 k3)) as O1 eqn:E1. clear E1.
  remember (fst (split_pair k4 k5)) as O2 eqn:E2. clear E2.
  rewrite le24_testbit by lia.
  assert (Hcases : c = 0 \/ c = 1 \/ c = 2 \/ c = 3 \/ c = 4 \/ c = 5 \/ c = 6
                   \/ c = 7 \/ c = 8 \/ c = 9 \/ c = 10 \/ c = 11 \/ c = 12
                   \/ c = 13 \/ c = 14 \/ c = 15 \/ c = 16 \/ c = 17 \/ c = 18
                   \/ c = 19 \/ c = 20 \/ c = 21 \/ c = 22 \/ c = 23) by lia.
  repeat (destruct Hcases as [-> | Hcases]); [.. | subst c];
    (rewrite key_testbit by (assumption || (vm_compute; discriminate)));
    off_byte; rewrite ?orb_false_l, ?orb_false_r;
    first [ rewrite S0 by lia | rewrite S1 by lia | rewrite S2 by lia ];
    vm_compute; reflexivity.
Qed.

End KeyLoad.

Lemma init_index_nth (f : Z -> Z) (c : Z) :
  0 <= c < 24 -> nth (23 - Z.to_nat c) (map f init_indices) 0 = f (2 * c + 1).
Proof.
  intros Hc.
  assert (Hcases : c = 0 \/ c = 1 \/ c = 2 \/ c = 3 \/ c = 4 \/ c = 5 \/ c = 6
                   \/ c = 7 \/ c = 8 \/ c = 9 \/ c = 10 \/ c = 11 \/ c = 12
                   \/ c = 13 \/ c = 14 \/ c = 15 \/ c = 16 \/ c = 17 \/ c = 18
                   \/ c = 19 \/ c = 20 \/ c = 21 \/ c = 22 \/ c = 23) by lia.
  repeat (destruct Hcases as [-> | Hcases]); [.. | subst c]; reflexivity.
Qed.

Lemma lxor7_nonneg (a : Z) : 0 <= a -> 0 <= a .^ 7.
Proof. intros Ha. apply Z.lxor_nonneg. lia. Qed.

(** The two key loads put the same bits in the same places of the
    register: the byte-split halves after the six [SPLIT_BYTE]s are, in
    the packed layout, the halves [crypto1_init] builds. *)
Lemma key_loads_agree (k0 k1 k2 k3 k4 k5 : Z) :
  is_byte k0 -> is_byte k1 -> is_byte k2 -> is_byte k3 -> is_byte k4 -> is_byte k5 ->
  packed (Odd (LoadKey [k0; k1; k2; k3; k4; k5]))
  = odd (crypto1_init (bytes_to_num [k0; k1; k2; k3; k4; k5] 6))
  /\ packed (Even (LoadKey [k0; k1; k2; k3; k4; k5]))
     = even (crypto1_init (bytes_to_num [k0; k1; k2; k3; k4; k5] 6)).
Proof.
  intros H0 H1 H2 H3 H4 H5. rewrite LoadKey_eq. cbn [Odd Even].
  split; apply Z.bits_inj'; intros n Hn; rewrite packed_testbit by exact Hn.
  - rewrite init_odd_bit by exact Hn.
    destruct (Z.ltb_spec n 24) as [Hlt | Hge].
    + replace (Z.to_nat n <? 24)%nat with true by (symmetry; apply Nat.ltb_lt; lia).
      cbn [andb]. rewrite (init_index_nth (fun i => BIT _ ((i - 1) .^ 7))) by lia.
      replace (2 * n + 1 - 1) with (2 * n) by lia.
      rewrite BIT_eqb by (apply lxor7_nonneg; lia).
      apply key_load_odd_bit; (assumption || lia).
    + replace (Z.to_nat n <? 24)%nat with false by (symmetry; apply Nat.ltb_ge; lia).
      reflexivity.
  - rewrite init_even_bit by exact Hn.
    destruct (Z.ltb_spec n 24) as [Hlt | Hge].
    + replace (Z.to_nat n <? 24)%nat with true by (symmetry; apply Nat.ltb_lt; lia).
      cbn [andb]. rewrite (init_index_nth (fun i => BIT _ (i .^ 7))) by lia.
      rewrite BIT_eqb by (apply lxor7_nonneg; lia).
      apply key_load_even_bit; (assumption || lia).
    + replace (Z.to_nat n <? 24)%nat with false by (symmetry; apply Nat.ltb_ge; lia).
      reflexivity.
Qed.

End KeyFacts.
Import KeyFacts.

(** ** The nested setup with decryption *)
Module DecryptFacts.
Import HexUtils Crapto1 Crypto1.

Lemma SHIFT24_COND_DECRYPT_on (b : bytes3) (fb stream : Z) :
  is_bit fb -> SHIFT24_COND_DECRYPT b fb stream true = SHIFT24 b (fb .^ (stream .& 1)).
Proof.
  intros Hfb. destruct b as [[b0 b1] b2]. unfold SHIFT24_COND_DECRYPT, SHIFT24.
  cbn [Z.b2z].
  assert (H : (stream .& 1) .& 1 = stream .& 1)
    by (rewrite <- Z.land_assoc; reflexivity).
  rewrite H.
  rewrite (is_bit_land1 (fb .^ (stream .& 1)))
    by (apply lxor_is_bit; [exact Hfb | apply land1_is_bit]).
  reflexivity.
Qed.

Lemma shifted7_low_bit (x : Z) : (x .<< 7) .& 1 = 0.
Proof.
  apply Z.bits_inj'. intros i Hi. rewrite Z.land_spec, Z.testbit_0_l.
  destruct (Z.eq_dec i 0) as [-> | Hne].
  - rewrite Z.shiftl_spec_low by lia. reflexivity.
  - rewrite testbit_one by lia.
    replace (i =? 0) with false by (symmetry; apply Z.eqb_neq; lia).
    apply andb_false_r.
Qed.

Lemma decrypt_first (r : NestedRegs) (s : Crypto1LfsrState_t) :
  nEven r = Even s -> nOdd r = Odd s ->
  nEven (nested_bit true r 0) = Odd (Crypto1LFSR s ((nIn r .& 1) .^ (nOut r .& 1)))
  /\ nOdd (nested_bit true r 0) = Even (Crypto1LFSR s ((nIn r .& 1) .^ (nOut r .& 1)))
  /\ nKeyStream (nested_bit true r 0) = SHIFT8 (nKeyStream r) (nOut r)
  /\ nIn (nested_bit true r 0) = nIn r .>> 1.
Proof.
  intros HE HO. unfold nested_bit.
  replace (0 =? 0) with true by reflexivity.
  replace (nonzero (0 .& 1)) with false by reflexivity.
  destruct (even_pass_clock (nEven r) (nOdd r) s ((nIn r .& 1) .^ (nOut r .& 1)) HE HO)
    as [H1 H2].
  cbn [nEven nOdd nKeyStream nIn].
  rewrite SHIFT24_COND_DECRYPT_on
    by (apply lxor_is_bit; [apply feedback_is_bit | apply land1_is_bit]).
  rewrite Z.lxor_assoc, H1, <- H2. auto.
Qed.

Lemma decrypt_even (r : NestedRegs) (bit : Z) (s : Crypto1LfsrState_t) :
  nonzero (bit .& 1) = false -> (bit =? 0) = false ->
  nEven r = Even s -> nOdd r = Odd s ->
  nEven (nested_bit true r bit) = Odd (Crypto1LFSR s (nIn r .& 1))
  /\ nOdd (nested_bit true r bit) = Even (Crypto1LFSR s (nIn r .& 1))
  /\ nKeyStream (nested_bit true r bit)
     = u8 ((nKeyStream r .>> 1) .| (Crypto1FilterOutput s .<< 7))
  /\ nIn (nested_bit true r bit) = nIn r .>> 1.
Proof.
  intros Hi Hz HE HO. unfold nested_bit. rewrite Hi, Hz.
  destruct (even_pass_clock (nEven r) (nOdd r) s (nIn r .& 1) HE HO) as [H1 H2].
  cbn [nEven nOdd nKeyStream nIn].
  rewrite SHIFT24_COND_DECRYPT_on
    by (apply lxor_is_bit; [apply feedback_is_bit | apply land1_is_bit]).
  rewrite filter_B7, shifted7_low_bit, Z.lxor_0_r.
  rewrite H1, <- H2. rewrite filter_output_unfold, <- HO. auto.
Qed.

Lemma decrypt_odd (r : NestedRegs) (bit : Z) (s : Crypto1LfsrState_t) :
  nonzero (bit .& 1) = true -> (bit =? 0) = false ->
  nEven r = Odd s -> nOdd r = Even s ->
  nEven (nested_bit true r bit) = Even (Crypto1LFSR s (nIn r .& 1))
  /\ nOdd (nested_bit true r bit) = Odd (Crypto1LFSR s (nIn r .& 1))
  /\ nKeyStream (nested_bit true r bit)
     = u8 ((nKeyStream r .>> 1) .| (Crypto1FilterOutput s .<< 7))
  /\ nIn (nested_bit true r bit) = nIn r .>> 1.
Proof.
  intros Hi Hz HE HO. unfold nested_bit. rewrite Hi, Hz.
  destruct (odd_pass_clock (nEven r) (nOdd r) s (nIn r .& 1) HE HO) as [H1 H2].
  cbn [nEven nOdd nKeyStream nIn].
  rewrite SHIFT24_COND_DECRYPT_on
    by (apply lxor_is_bit; [apply feedback_is_bit | apply land1_is_bit]).
  rewrite filter_B7, shifted7_low_bit, Z.lxor_0_r.
  rewrite H2, <- H1. rewrite filter_output_unfold, <- HE. auto.
Qed.

Lemma decrypt_input_eq (s : Crypto1LfsrState_t) (inb : Z) :
  decrypt_input s inb
  = [BIT inb 0 .^ Crypto1FilterOutput s; BIT inb 1; BIT inb 2; BIT inb 3;
     BIT inb 4; BIT inb 5; BIT inb 6; BIT inb 7].
Proof. reflexivity. Qed.

(** The bit loop of [Crypto1SetupNested] over one byte, with
    decryption and entered with the filter output of the state: the
    keystream corrects the first bit only. *)
Lemma decrypt_bits_spec (s : Crypto1LfsrState_t) (inb : Z) :
  let r := fold_left (nested_bit true) (upto 8)
             (mkNested (Even s) (Odd s) 0 (Crypto1FilterOutput s) inb) in
  nEven r = Even (clocks s (decrypt_input s inb))
  /\ nOdd r = Odd (clocks s (decrypt_input s inb))
  /\ nKeyStream r = bits_lsb (keystream s (decrypt_input s inb)).
Proof.
  cbv zeta. rewrite fold_upto_8.
  remember (mkNested (Even s) (Odd s) 0 (Crypto1FilterOutput s) inb) as r0 eqn:Hr0.
  assert (E0 : nEven r0 = Even s) by (subst r0; reflexivity).
  assert (O0 : nOdd r0 = Odd s) by (subst r0; reflexivity).
  assert (K0 : nKeyStream r0 = 0) by (subst r0; reflexivity).
  assert (U0 : nOut r0 = Crypto1FilterOutput s) by (subst r0; reflexivity).
  assert (I0 : nIn r0 = inb) by (subst r0; reflexivity).
  clear Hr0.
  destruct (decrypt_first r0 s E0 O0) as (E1 & O1 & K1 & I1).
  remember (nested_bit true r0 0) as r1 eqn:Hr1. clear Hr1.
  remember (Crypto1LFSR s ((nIn r0 .& 1) .^ (nOut r0 .& 1))) as s1 eqn:Hs1.
  destruct (decrypt_odd r1 1 s1 eq_refl eq_refl E1 O1) as (E2 & O2 & K2 & I2).
  remember (nested_bit true r1 1) as r2 eqn:Hr2. clear Hr2.
  remember (Crypto1LFSR s1 (nIn r1 .& 1)) as s2 eqn:Hs2.
  destruct (decrypt_even r2 2 s2 eq_refl eq_refl E2 O2) as (E3 & O3 & K3 & I3).
  remember (nested_bit true r2 2) as r3 eqn:Hr3. clear Hr3.
  remember (Crypto1LFSR s2 (nIn r2 .& 1)) as s3 eqn:Hs3.
  destruct (decrypt_odd r3 3 s3 eq_refl eq_refl E3 O3) as (E4 & O4 & K4 & I4).
  remember (nested_bit true r3 3) as r4 eqn:Hr4. clear Hr4.
  remember (Crypto1LFSR s3 (nIn r3 .& 1)) as s4 eqn:Hs4.
  destruct (decrypt_even r4 4 s4 eq_refl eq_refl E4 O4) as (E5 & O5 & K5 & I5).
  remember (nested_bit true r4 4) as r5 eqn:Hr5. clear Hr5.
  remember (Crypto1LFSR s4 (nIn r4 .& 1)) as s5 eqn:Hs5.
  destruct (decrypt_odd r5 5 s5 eq_refl eq_refl E5 O5) as (E6 & O6 & K6 & I6).
  remember (nested_bit true r5 5) as r6 eqn:Hr6. clear Hr6.
  remember (Crypto1LFSR s5 (nIn r5 .& 1)) as s6 eqn:Hs6.
  destruct (decrypt_even r6 6 s6 eq_refl eq_refl E6 O6) as (E7 & O7 & K7 & I7).
  remember (nested_bit true r6 6) as r7 eqn:Hr7. clear Hr7.
  remember (Crypto1LFSR s6 (nIn r6 .& 1)) as s7 eqn:Hs7.
  destruct (decrypt_odd r7 7 s7 eq_refl eq_refl E7 O7) as (E8 & O8 & K8 & I8).
  remember (nested_bit true r7 7) as r8 eqn:Hr8. clear Hr8.
  remember (Crypto1LFSR s7 (nIn r7 .& 1)) as s8 eqn:Hs8.
  rewrite I7, I6, I5, I4, I3, I2, I1, I0 in Hs8.
  rewrite I6, I5, I4, I3, I2, I1, I0 in Hs7.
  rewrite I5, I4, I3, I2, I1, I0 in Hs6.
  rewrite I4, I3, I2, I1, I0 in Hs5.
  rewrite I3, I2, I1, I0 in Hs4.
  rewrite I2, I1, I0 in Hs3.
  rewrite I1, I0 in Hs2.
  rewrite I0, U0 in Hs1.
  rewrite (is_bit_land1 (Crypto1FilterOutput s)) in Hs1 by apply filter_output_is_bit.
  destruct (shifted_bits inb) as (B0 & B1 & B2 & B3 & B4 & B5 & B6 & B7).
  rewrite B0 in Hs1. rewrite B1 in Hs2. rewrite B2 in Hs3. rewrite B3 in Hs4.
  rewrite B4 in Hs5. rewrite B5 in Hs6. rewrite B6 in Hs7. rewrite B7 in Hs8.
  rewrite decrypt_input_eq.
  rewrite !clocks_cons, !keystream_cons, clocks_nil, keystream_nil.
  rewrite <- Hs1, <- Hs2, <- Hs3, <- Hs4, <- Hs5, <- Hs6, <- Hs7, <- Hs8.
  rewrite E8, O8, K8, K7, K6, K5, K4, K3, K2, K1, K0, U0.
  rewrite nested_assemble by apply filter_output_is_bit.
  repeat split; reflexivity.
Qed.

Lemma nested_byte_decrypt_eq (Uid : list Z) (Ev Od : bytes3) (Out : Z)
      (CardNonce NonceParity : list Z) (b : Z) :
  nested_byte true Uid (mkLoop Ev Od Out CardNonce NonceParity) b
  = mkLoop
      (nEven (fold_left (nested_bit true) (upto 8)
                (mkNested Ev Od 0 Out (idx CardNonce b .^ idx Uid b))))
      (nOdd (fold_left (nested_bit true) (upto 8)
               (mkNested Ev Od 0 Out (idx CardNonce b .^ idx Uid b))))
      (CRYPTO1_FILTER_OUTPUT_B0_24
         (nOdd (fold_left (nested_bit true) (upto 8)
                  (mkNested Ev Od 0 Out (idx CardNonce b .^ idx Uid b)))))
      (upd CardNonce b
         (idx CardNonce b
          .^ nKeyStream (fold_left (nested_bit true) (upto 8)
                           (mkNested Ev Od 0 Out (idx CardNonce b .^ idx Uid b)))))
      (upd NonceParity b
         (oddparity8 (idx CardNonce b)
          .^ CRYPTO1_FILTER_OUTPUT_B0_24
               (nOdd (fold_left (nested_bit true) (upto 8)
                        (mkNested Ev Od 0 Out (idx CardNonce b .^ idx Uid b)))))).
Proof. reflexivity. Qed.

(** One nonce byte of [Crypto1SetupNested] with decryption. *)
Lemma nested_byte_decrypt (Uid CardNonce NonceParity : list Z) (s : Crypto1LfsrState_t)
      (b : Z) :
  nested_byte true Uid
    (mkLoop (Even s) (Odd s) (Crypto1FilterOutput s) CardNonce NonceParity) b
  = mkLoop
      (Even (clocks s (decrypt_input s (idx CardNonce b .^ idx Uid b))))
      (Odd (clocks s (decrypt_input s (idx CardNonce b .^ idx Uid b))))
      (Crypto1FilterOutput (clocks s (decrypt_input s (idx CardNonce b .^ idx Uid b))))
      (upd CardNonce b
         (idx CardNonce b
          .^ bits_lsb (keystream s (decrypt_input s (idx CardNonce b .^ idx Uid b)))))
      (upd NonceParity b
         (oddparity8 (idx CardNonce b)
          .^ Crypto1FilterOutput
               (clocks s (decrypt_input s (idx CardNonce b .^ idx Uid b))))).
Proof.
  rewrite nested_byte_decrypt_eq.
  destruct (decrypt_bits_spec s (idx CardNonce b .^ idx Uid b)) as (HE & HO & HK).
  rewrite HE, HO, HK. rewrite <- !filter_output_unfold. reflexivity.
Qed.

Lemma nested_decrypt_state_S (Key Uid CardNonce : list Z) (b : nat) :
  nested_decrypt_state Key Uid CardNonce (S b)
  = clocks (nested_decrypt_state Key Uid CardNonce b)
      (decrypt_input (nested_decrypt_state Key Uid CardNonce b)
         (idx CardNonce (Z.of_nat b) .^ idx Uid (Z.of_nat b))).
Proof. reflexivity. Qed.

Lemma Crypto1SetupNested_eq (Key Uid CardNonce NonceParity : list Z) (d : bool) :
  Crypto1SetupNested Key Uid CardNonce NonceParity d
  = (lCardNonce
       (fold_left (nested_byte d Uid) (upto 4)
          (mkLoop (Even (LoadKey Key)) (Odd (LoadKey Key))
             (Crypto1FilterOutput (LoadKey Key)) CardNonce NonceParity)),
     lNonceParity
       (fold_left (nested_byte d Uid) (upto 4)
          (mkLoop (Even (LoadKey Key)) (Odd (LoadKey Key))
             (Crypto1FilterOutput (LoadKey Key)) CardNonce NonceParity)),
     {| Even := lEven
                  (fold_left (nested_byte d Uid) (upto 4)
                     (mkLoop (Even (LoadKey Key)) (Odd (LoadKey Key))
                        (Crypto1FilterOutput (LoadKey Key)) CardNonce NonceParity));
        Odd := lOdd
                 (fold_left (nested_byte d Uid) (upto 4)
                    (mkLoop (Even (LoadKey Key)) (Odd (LoadKey Key))
                       (Crypto1FilterOutput (LoadKey Key)) CardNonce NonceParity)) |}).
Proof.
  unfold Crypto1SetupNested. cbv zeta. rewrite <- filter_output_unfold. reflexivity.
Qed.

(** What [Crypto1SetupNested] returns with decryption, in terms of the
    states between the nonce bytes. *)
Lemma setup_nested_decrypt (Key Uid : list Z) (c0 c1 c2 c3 p0 p1 p2 p3 : Z) :
  let st := nested_decrypt_state Key Uid [c0; c1; c2; c3] in
  let ks := fun (b : nat) (c : Z) =>
              bits_lsb (keystream (st b) (decrypt_input (st b) (c .^ idx Uid (Z.of_nat b)))) in
  Crypto1SetupNested Key Uid [c0; c1; c2; c3] [p0; p1; p2; p3] true
  = ([c0 .^ ks 0%nat c0; c1 .^ ks 1%nat c1; c2 .^ ks 2%nat c2; c3 .^ ks 3%nat c3],
     [oddparity8 c0 .^ Crypto1FilterOutput (st 1%nat);
      oddparity8 c1 .^ Crypto1FilterOutput (st 2%nat);
      oddparity8 c2 .^ Crypto1FilterOutput (st 3%nat);
      oddparity8 c3 .^ Crypto1FilterOutput (st 4%nat)],
     st 4%nat).
Proof.
  cbv zeta. rewrite Crypto1SetupNested_eq, fold_upto_4.
  pose proof (nested_decrypt_state_S Key Uid [c0; c1; c2; c3] 0) as S1.
  pose proof (nested_decrypt_state_S Key Uid [c0; c1; c2; c3] 1) as S2.
  pose proof (nested_decrypt_state_S Key Uid [c0; c1; c2; c3] 2) as S3.
  pose proof (nested_decrypt_state_S Key Uid [c0; c1; c2; c3] 3) as S4.
  assert (S0 : nested_decrypt_state Key Uid [c0; c1; c2; c3] 0 = LoadKey Key)
    by reflexivity.
  replace (Z.of_nat 0) with 0 in * by reflexivity.
  replace (Z.of_nat 1) with 1 in * by reflexivity.
  replace (Z.of_nat 2) with 2 in * by reflexivity.
  replace (Z.of_nat 3) with 3 in * by reflexivity.
  rewrite (proj1 (idx4 c0 c1 c2 c3)) in S1.
  rewrite (proj1 (proj2 (idx4 c0 c1 c2 c3))) in S2.
  rewrite (proj1 (proj2 (proj2 (idx4 c0 c1 c2 c3)))) in S3.
  rewrite (proj2 (proj2 (proj2 (idx4 c0 c1 c2 c3)))) in S4.
  remember (nested_decrypt_state Key Uid [c0; c1; c2; c3]) as st eqn:Est. clear Est.
  rewrite <- S0.
  rewrite (nested_byte_decrypt Uid [c0; c1; c2; c3] [p0; p1; p2; p3] (st 0%nat) 0).
  buf4. rewrite <- S1.
  match goal with |- context [nested_byte true Uid (mkLoop _ _ _ ?cn ?np) 1] =>
    rewrite (nested_byte_decrypt Uid cn np (st 1%nat) 1) end.
  buf4. rewrite <- S2.
  match goal with |- context [nested_byte true Uid (mkLoop _ _ _ ?cn ?np) 2] =>
    rewrite (nested_byte_decrypt Uid cn np (st 2%nat) 2) end.
  buf4. rewrite <- S3.
  match goal with |- context [nested_byte true Uid (mkLoop _ _ _ ?cn ?np) 3] =>
    rewrite (nested_byte_decrypt Uid cn np (st 3%nat) 3) end.
  buf4. rewrite <- S4.
  cbn [lEven lOdd lCardNonce lNonceParity]. rewrite state_eta. reflexivity.
Qed.

End DecryptFacts.
Import DecryptFacts.

(** ** The byte-split clock in the packed layout *)
Module ClockFacts.
Import HexUtils Crapto1 Crypto1.

Lemma xorb_fold_split (f g : Z -> bool) (l : list Z) :
  fold_right xorb false (map (fun i => xorb (f i) (g i)) l)
  = xorb (fold_right xorb false (map f l)) (fold_right xorb false (map g l)).
Proof.
  induction l as [|a l IH]; [reflexivity|].
  cbn [map fold_right]. rewrite IH.
  destruct (f a), (g a), (fold_right xorb false (map f l)),
    (fold_right xorb false (map g l)); reflexivity.
Qed.

Lemma b2z_xorb (a b : bool) : Z.b2z (xorb a b) = Z.b2z a .^ Z.b2z b.
Proof. destruct a, b; reflexivity. Qed.

(** The parity of a xor is the xor of the parities. *)
Lemma builtin_parity_lxor (a b : Z) :
  builtin_parity (a .^ b) = builtin_parity a .^ builtin_parity b.
Proof.
  unfold builtin_parity. rewrite <- b2z_xorb, <- xorb_fold_split.
  f_equal. f_equal. apply map_ext. intros i. apply Z.lxor_spec.
Qed.

Lemma builtin_parity_is_bit (x : Z) : is_bit (builtin_parity x).
Proof. unfold builtin_parity. apply b2z_is_bit. Qed.

Lemma evenparity32_parity (x : Z) : evenparity32 x = builtin_parity x.
Proof.
  unfold evenparity32. destruct (builtin_parity_is_bit x) as [-> | ->]; reflexivity.
Qed.

Lemma evenparity32_lxor (a b : Z) :
  evenparity32 (a .^ b) = evenparity32 a .^ evenparity32 b.
Proof. rewrite !evenparity32_parity. apply builtin_parity_lxor. Qed.

(** The folding that ends [Crypto1LFSRbyteFeedback] and [Crypto1LFSR]
    computes the parity of the byte. *)
Lemma fold_is_parity (f : Z) : is_byte f -> parity_fold f = builtin_parity f.
Proof.
  intros Hf. apply Z.eqb_eq.
  apply (forall_upto 256 (fun f => parity_fold f =? builtin_parity f));
    [vm_compute; reflexivity | exact Hf].
Qed.

Lemma land_is_byte (a m : Z) : is_byte m -> is_byte (a .& m).
Proof.
  intros Hm. unfold is_byte. change 256 with (2 ^ 8). apply bits_range; [lia|].
  intros i Hi. rewrite Z.land_spec, (testbit_high 8 m i) by (unfold is_byte in Hm; lia).
  apply andb_false_r.
Qed.

Lemma lxor_is_byte (a b : Z) : is_byte a -> is_byte b -> is_byte (a .^ b).
Proof.
  intros Ha Hb. unfold is_byte. change 256 with (2 ^ 8). apply bits_range; [lia|].
  intros i Hi. rewrite Z.lxor_spec.
  rewrite (testbit_high 8 a i), (testbit_high 8 b i)
    by (unfold is_byte in Ha, Hb; lia).
  reflexivity.
Qed.

Lemma land_lxor (p a b : Z) : p .& (a .^ b) = (p .& a) .^ (p .& b).
Proof.
  apply Z.bits_inj'. intros i Hi. rewrite Z.land_spec, !Z.lxor_spec, !Z.land_spec.
  destruct (Z.testbit p i), (Z.testbit a i), (Z.testbit b i); reflexivity.
Qed.

Lemma Crypto1LFSRbyteFeedback_fold (Ev Od : bytes3) :
  Crypto1LFSRbyteFeedback Ev Od = parity_fold (masked_taps Ev Od).
Proof. destruct Ev as [[E0 E1] E2], Od as [[O0 O1] O2]. reflexivity. Qed.

Lemma masked_taps_is_byte (Ev Od : bytes3) : is_byte (masked_taps Ev Od).
Proof.
  destruct Ev as [[E0 E1] E2], Od as [[O0 O1] O2]. unfold masked_taps.
  repeat apply lxor_is_byte; apply land_is_byte; apply u8_is_byte.
Qed.

(** The feedback of the byte-split clock is the parity of the masked
    taps. *)
Lemma feedback_is_parity (Ev Od : bytes3) :
  Crypto1LFSRbyteFeedback Ev Od = builtin_parity (masked_taps Ev Od).
Proof.
  rewrite Crypto1LFSRbyteFeedback_fold. apply fold_is_parity. apply masked_taps_is_byte.
Qed.

(** The taps of one register, seen in either layout, have the same
    parity. *)
Lemma taps_of_register (e : Z) :
  is_byte e ->
  (builtin_parity (e .& u8 LFSR_MASK_EVEN) = builtin_parity (LF_POLY_EVEN .& packed (e, 0, 0))
   /\ builtin_parity (e .& u8 (LFSR_MASK_EVEN .>> 8))
      = builtin_parity (LF_POLY_EVEN .& packed (0, e, 0))
   /\ builtin_parity (e .& u8 (LFSR_MASK_EVEN .>> 16))
      = builtin_parity (LF_POLY_EVEN .& packed (0, 0, e)))
  /\ (builtin_parity (e .& u8 LFSR_MASK_ODD) = builtin_parity (LF_POLY_ODD .& packed (e, 0, 0))
      /\ builtin_parity (e .& u8 (LFSR_MASK_ODD .>> 8))
         = builtin_parity (LF_POLY_ODD .& packed (0, e, 0))
      /\ builtin_parity (e .& u8 (LFSR_MASK_ODD .>> 16))
         = builtin_parity (LF_POLY_ODD .& packed (0, 0, e))).
Proof.
  intros He.
  assert (H : ((builtin_parity (e .& u8 LFSR_MASK_EVEN)
                =? builtin_parity (LF_POLY_EVEN .& packed (e, 0, 0)))
               && (builtin_parity (e .& u8 (LFSR_MASK_EVEN .>> 8))
                   =? builtin_parity (LF_POLY_EVEN .& packed (0, e, 0)))
               && (builtin_parity (e .& u8 (LFSR_MASK_EVEN .>> 16))
                   =? builtin_parity (LF_POLY_EVEN .& packed (0, 0, e)))
               && (builtin_parity (e .& u8 LFSR_MASK_ODD)
                   =? builtin_parity (LF_POLY_ODD .& packed (e, 0, 0)))
               && (builtin_parity (e .& u8 (LFSR_MASK_ODD .>> 8))
                   =? builtin_parity (LF_POLY_ODD .& packed (0, e, 0)))
               && (builtin_parity (e .& u8 (LFSR_MASK_ODD .>> 16))
                   =? builtin_parity (LF_POLY_ODD .& packed (0, 0, e)))) = true).
  { apply (forall_upto 256
             (fun e => (builtin_parity (e .& u8 LFSR_MASK_EVEN)
                        =? builtin_parity (LF_POLY_EVEN .& packed (e, 0, 0)))
                       && (builtin_parity (e .& u8 (LFSR_MASK_EVEN .>> 8))
                           =? builtin_parity (LF_POLY_EVEN .& packed (0, e, 0)))
                       && (builtin_parity (e .& u8 (LFSR_MASK_EVEN .>> 16))
                           =? builtin_parity (LF_POLY_EVEN .& packed (0, 0, e)))
                       && (builtin_parity (e .& u8 LFSR_MASK_ODD)
                           =? builtin_parity (LF_POLY_ODD .& packed (e, 0, 0)))
                       && (builtin_parity (e .& u8 (LFSR_MASK_ODD .>> 8))
                           =? builtin_parity (LF_POLY_ODD .& packed (0, e, 0)))
                       && (builtin_parity (e .& u8 (LFSR_MASK_ODD .>> 16))
                           =? builtin_parity (LF_POLY_ODD .& packed (0, 0, e)))));
      [vm_compute; reflexivity | exact He]. }
  repeat (apply andb_true_iff in H; destruct H as [H ?]).
  repeat match goal with H : (_ =? _) = true |- _ => apply Z.eqb_eq in H end.
  repeat split; assumption.
Qed.

(** The packed value of a half is the xor of the packed values of its
    three registers. *)
Lemma packed_split (b0 b1 b2 : Z) :
  is_byte b0 -> is_byte b1 -> is_byte b2 ->
  packed (b0, b1, b2) = (packed (b0, 0, 0) .^ packed (0, b1, 0)) .^ packed (0, 0, b2).
Proof.
  intros H0 H1 H2. apply Z.bits_inj'. intros k Hk.
  rewrite !Z.lxor_spec, !packed_testbit by exact Hk.
  destruct (Z.ltb_spec k 24) as [Hlt | Hge]; [|reflexivity].
  cbn [andb]. rewrite !le24_testbit by lia. rewrite !Z.testbit_0_l.
  rewrite ?orb_false_r, ?orb_false_l.
  destruct (Z.ltb_spec (23 - k) 8); [|destruct (Z.ltb_spec (23 - k) 16)].
  - rewrite (Z.testbit_neg_r b1), (Z.testbit_neg_r b2) by lia.
    rewrite !orb_false_r, !xorb_false_r. reflexivity.
  - rewrite (testbit_high 8 b0), (Z.testbit_neg_r b2) by (unfold is_byte in H0; lia).
    rewrite orb_false_r, xorb_false_r. reflexivity.
  - rewrite (testbit_high 8 b0), (testbit_high 8 b1)
      by (unfold is_byte in H0, H1; lia).
    reflexivity.
Qed.

(** The parity of the taps of a half, register by register. *)
Lemma parity_of_half (p b0 b1 b2 : Z) :
  is_byte b0 -> is_byte b1 -> is_byte b2 ->
  builtin_parity (p .& packed (b0, b1, b2))
  = (builtin_parity (p .& packed (b0, 0, 0)) .^ builtin_parity (p .& packed (0, b1, 0)))
    .^ builtin_parity (p .& packed (0, 0, b2)).
Proof.
  intros H0 H1 H2. rewrite (packed_split b0 b1 b2 H0 H1 H2).
  rewrite !land_lxor, !builtin_parity_lxor. reflexivity.
Qed.

(** The feedback bit of [Crypto1LFSR], read off the packed halves with
    the masks of the packed implementation. *)
Lemma feedback_packed (E0 E1 E2 O0 O1 O2 : Z) :
  is_byte E0 -> is_byte E1 -> is_byte E2 -> is_byte O0 -> is_byte O1 -> is_byte O2 ->
  Crypto1LFSRbyteFeedback (E0, E1, E2) (O0, O1, O2)
  = evenparity32 ((LF_POLY_EVEN .& packed (E0, E1, E2))
                  .^ (LF_POLY_ODD .& packed (O0, O1, O2))).
Proof.
  intros HE0 HE1 HE2 HO0 HO1 HO2.
  rewrite feedback_is_parity, evenparity32_parity. unfold masked_taps.
  rewrite !builtin_parity_lxor.
  rewrite (parity_of_half LF_POLY_EVEN E0 E1 E2), (parity_of_half LF_POLY_ODD O0 O1 O2)
    by assumption.
  destruct (taps_of_register E0 HE0) as [[A0 _] _].
  destruct (taps_of_register E1 HE1) as [[_ [A1 _]] _].
  destruct (taps_of_register E2 HE2) as [[_ [_ A2]] _].
  destruct (taps_of_register O0 HO0) as [_ [B0 _]].
  destruct (taps_of_register O1 HO1) as [_ [_ [B1 _]]].
  destruct (taps_of_register O2 HO2) as [_ [_ [_ B2]]].
  rewrite A0, A1, A2, B0, B1, B2. rewrite !Z.lxor_assoc. reflexivity.
Qed.

Ltac neg_step :=
  match goal with
  | |- context [Z.testbit ?a ?m] => rewrite (Z.testbit_neg_r a m) by lia
  end.

Ltac shift_blast :=
  repeat first [ neg_step | mask_step ];
  rewrite ?andb_true_l, ?andb_false_l, ?andb_true_r, ?andb_false_r,
    ?orb_false_l, ?orb_false_r.

Lemma SHIFT24_eq (b0 b1 b2 in_ : Z) :
  SHIFT24 (b0, b1, b2) in_
  = (u8 ((b0 .>> 1) .| (b1 .<< 7)), u8 ((b1 .>> 1) .| (b2 .<< 7)),
     u8 ((b2 .>> 1) .| ((in_ .& 1) .<< 7))).
Proof. reflexivity. Qed.

(** [SHIFT24] shifts the register down and inserts at the top; in the
    packed layout that is a shift up with the bit inserted at the
    bottom. *)
Lemma packed_SHIFT24 (b0 b1 b2 in_ : Z) :
  is_byte b0 -> is_byte b1 -> is_byte b2 ->
  packed (SHIFT24 (b0, b1, b2) in_)
  = ((packed (b0, b1, b2) .<< 1) .| (in_ .& 1)) mod 2 ^ 24.
Proof.
  intros H0 H1 H2. rewrite SHIFT24_eq. apply Z.bits_inj'. intros k Hk.
  rewrite packed_testbit by exact Hk. rewrite Z.testbit_mod_pow2 by lia.
  destruct (Z.ltb_spec k 24) as [Hlt | Hge]; [|reflexivity].
  cbn [andb]. rewrite le24_testbit by lia. rewrite Z.lor_spec. unfold u8.
  destruct (Z.eq_dec k 0) as [-> | Hk0].
  { shift_blast. reflexivity. }
  rewrite (Z.shiftl_spec_high (packed (b0, b1, b2))) by lia.
  rewrite packed_testbit by lia. rewrite (ltb_true (k - 1)) by lia. cbn [andb].
  rewrite le24_testbit by lia.
  assert (Hc : 1 <= k <= 7 \/ k = 8 \/ 9 <= k <= 15 \/ k = 16 \/ 17 <= k <= 23) by lia.
  destruct Hc as [Hc | [-> | [Hc | [-> | Hc]]]]; shift_blast;
    try reflexivity; f_equal; lia.
Qed.

Lemma bit_lxor_low (a b : Z) : is_bit a -> (a .^ b) .& 1 = a .^ (b .& 1).
Proof.
  intros Ha. rewrite (Z.land_comm (a .^ b)), land_lxor.
  rewrite (Z.land_comm 1 a), (Z.land_comm 1 b), (is_bit_land1 a Ha). reflexivity.
Qed.

Lemma SHIFT24_bytes (b : bytes3) (in_ : Z) : bytes3_ok (SHIFT24 b in_).
Proof.
  destruct b as [[b0 b1] b2]. rewrite SHIFT24_eq. unfold bytes3_ok.
  repeat split; apply u8_is_byte.
Qed.

(** [Crypto1LFSR] in the packed layout: the half under [LF_POLY_EVEN]
    moves up one place, takes the parity of the taps xor the input at
    the bottom, and becomes the odd half; the odd half becomes the even
    half unchanged. *)
Lemma Crypto1LFSR_packed (E0 E1 E2 O0 O1 O2 In : Z) :
  is_byte E0 -> is_byte E1 -> is_byte E2 -> is_byte O0 -> is_byte O1 -> is_byte O2 ->
  let st := {| Even := (E0, E1, E2); Odd := (O0, O1, O2) |} in
  let fb := evenparity32 ((LF_POLY_EVEN .& packed (Even st))
                          .^ (LF_POLY_ODD .& packed (Odd st))) in
  packed (Even (Crypto1LFSR st In)) = packed (Odd st)
  /\ packed (Odd (Crypto1LFSR st In))
     = ((packed (Even st) .<< 1) .| (fb .^ (In .& 1))) mod 2 ^ 24
  /\ bytes3_ok (Even (Crypto1LFSR st In))
  /\ bytes3_ok (Odd (Crypto1LFSR st In)).
Proof.
  intros HE0 HE1 HE2 HO0 HO1 HO2. cbv zeta. rewrite Crypto1LFSR_feedback.
  cbn [Even Odd]. split; [reflexivity|]. split.
  - rewrite packed_SHIFT24 by assumption.
    rewrite bit_lxor_low by apply feedback_is_bit.
    rewrite feedback_packed by assumption. reflexivity.
  - split; [unfold bytes3_ok; auto | apply SHIFT24_bytes].
Qed.

End ClockFacts.
Import ClockFacts.

(** ** Words and bytes of the packed implementation *)
Module WordFacts.
Import HexUtils Crapto1 Crypto1.

Lemma fold_upto_32 {A : Type} (f : A -> Z -> A) (a : A) :
  fold_left f (upto 32) a
  = f (f (f (f (f (f (f (f (f (f (f (f (f (f (f (f (f (f (f (f (f (f (f (f (f (f (f (f
      (f (f (f (f a 0) 1) 2) 3) 4) 5) 6) 7) 8) 9) 10) 11) 12) 13) 14) 15) 16) 17) 18) 19)
      20) 21) 22) 23) 24) 25) 26) 27) 28) 29) 30) 31.
Proof. reflexivity. Qed.

Lemma word_step_at (in_ e ret : Z) (s : Crypto1State) (i c p : Z) :
  i .^ 24 = c -> (24 .^ i) .& 0x1F = p ->
  word_step in_ e (ret, s) i
  = (ret .| u32 (fst (crypto1_bit s (BIT in_ c) e) .<< p), snd (crypto1_bit s (BIT in_ c) e)).
Proof. intros <- <-. reflexivity. Qed.

Lemma BIT_u8 (x j : Z) : 0 <= j < 8 -> BIT (u8 x) j = BIT x j.
Proof.
  intros Hj. rewrite !BIT_b2z by lia. unfold u8. rewrite Z.testbit_mod_pow2 by lia.
  rewrite ltb_true by lia. reflexivity.
Qed.

(** The bits of byte [c / 8] of a word, as [crypto1_byte] reads them. *)
Lemma byte_bits_of_word (x c : Z) :
  0 <= c ->
  byte_bits_of (u8 (x .>> c))
  = [BIT x (c + 0); BIT x (c + 1); BIT x (c + 2); BIT x (c + 3);
     BIT x (c + 4); BIT x (c + 5); BIT x (c + 6); BIT x (c + 7)].
Proof.
  intros Hc. rewrite byte_bits_of_eq. rewrite !BIT_u8 by lia.
  rewrite !BIT_shiftr by lia. reflexivity.
Qed.

(** Eight outputs placed from bit [c] up are the byte of the outputs
    moved to bit [c]. *)
Lemma word_byte_assemble (acc c o0 o1 o2 o3 o4 o5 o6 o7 : Z) :
  c = 0 \/ c = 8 \/ c = 16 \/ c = 24 ->
  is_bit o0 -> is_bit o1 -> is_bit o2 -> is_bit o3 ->
  is_bit o4 -> is_bit o5 -> is_bit o6 -> is_bit o7 ->
  (((((((acc .| u32 (o0 .<< (c + 0))) .| u32 (o1 .<< (c + 1))) .| u32 (o2 .<< (c + 2)))
       .| u32 (o3 .<< (c + 3))) .| u32 (o4 .<< (c + 4))) .| u32 (o5 .<< (c + 5)))
    .| u32 (o6 .<< (c + 6))) .| u32 (o7 .<< (c + 7))
  = acc .| (bits_lsb [o0; o1; o2; o3; o4; o5; o6; o7] .<< c).
Proof.
  intros Hc. rewrite <- !Z.lor_assoc. unfold is_bit.
  destruct Hc as [-> | [-> | [-> | ->]]];
    intros [-> | ->] [-> | ->] [-> | ->] [-> | ->] [-> | ->] [-> | ->] [-> | ->] [-> | ->];
    reflexivity.
Qed.

Lemma clock_bits_app (l1 l2 : list Z) (e : Z) :
  forall s : Crypto1State,
    clock_bits s (l1 ++ l2) e
    = (fst (clock_bits s l1 e) ++ fst (clock_bits (snd (clock_bits s l1 e)) l2 e),
       snd (clock_bits (snd (clock_bits s l1 e)) l2 e)).
Proof.
  induction l1 as [|b l1 IH]; intros s.
  - rewrite clock_bits_nil, fst_pair, snd_pair. cbn [app].
    destruct (clock_bits s l2 e); reflexivity.
  - rewrite <- app_comm_cons, !clock_bits_cons, IH, !fst_pair, !snd_pair. reflexivity.
Qed.

Lemma word_bytes_inputs (x : Z) :
  byte_bits_of (u8 (x .>> 24))
  = [BIT x 24; BIT x 25; BIT x 26; BIT x 27; BIT x 28; BIT x 29; BIT x 30; BIT x 31]
  /\ byte_bits_of (u8 (x .>> 16))
     = [BIT x 16; BIT x 17; BIT x 18; BIT x 19; BIT x 20; BIT x 21; BIT x 22; BIT x 23]
  /\ byte_bits_of (u8 (x .>> 8))
     = [BIT x 8; BIT x 9; BIT x 10; BIT x 11; BIT x 12; BIT x 13; BIT x 14; BIT x 15]
  /\ byte_bits_of (u8 x)
     = [BIT x 0; BIT x 1; BIT x 2; BIT x 3; BIT x 4; BIT x 5; BIT x 6; BIT x 7].
Proof.
  rewrite !byte_bits_of_word by lia.
  repeat split; try reflexivity.
  rewrite byte_bits_of_eq, !BIT_u8 by lia. reflexivity.
Qed.

Lemma word_byte_assemble_at (acc o0 o1 o2 o3 o4 o5 o6 o7 : Z) :
  is_bit o0 -> is_bit o1 -> is_bit o2 -> is_bit o3 ->
  is_bit o4 -> is_bit o5 -> is_bit o6 -> is_bit o7 ->
  ((((((((acc .| u32 (o0 .<< 24)) .| u32 (o1 .<< 25)) .| u32 (o2 .<< 26))
        .| u32 (o3 .<< 27)) .| u32 (o4 .<< 28)) .| u32 (o5 .<< 29)) .| u32 (o6 .<< 30))
     .| u32 (o7 .<< 31)
   = acc .| (bits_lsb [o0; o1; o2; o3; o4; o5; o6; o7] .<< 24))
  /\ ((((((((acc .| u32 (o0 .<< 16)) .| u32 (o1 .<< 17)) .| u32 (o2 .<< 18))
           .| u32 (o3 .<< 19)) .| u32 (o4 .<< 20)) .| u32 (o5 .<< 21)) .| u32 (o6 .<< 22))
        .| u32 (o7 .<< 23)
      = acc .| (bits_lsb [o0; o1; o2; o3; o4; o5; o6; o7] .<< 16))
  /\ ((((((((acc .| u32 (o0 .<< 8)) .| u32 (o1 .<< 9)) .| u32 (o2 .<< 10))
           .| u32 (o3 .<< 11)) .| u32 (o4 .<< 12)) .| u32 (o5 .<< 13)) .| u32 (o6 .<< 14))
        .| u32 (o7 .<< 15)
      = acc .| (bits_lsb [o0; o1; o2; o3; o4; o5; o6; o7] .<< 8))
  /\ ((((((((acc .| u32 (o0 .<< 0)) .| u32 (o1 .<< 1)) .| u32 (o2 .<< 2))
           .| u32 (o3 .<< 3)) .| u32 (o4 .<< 4)) .| u32 (o5 .<< 5)) .| u32 (o6 .<< 6))
        .| u32 (o7 .<< 7)
      = acc .| (bits_lsb [o0; o1; o2; o3; o4; o5; o6; o7] .<< 0)).
Proof.
  intros B0 B1 B2 B3 B4 B5 B6 B7.
  split; [exact (word_byte_assemble acc 24 o0 o1 o2 o3 o4 o5 o6 o7
                   ltac:(auto) B0 B1 B2 B3 B4 B5 B6 B7)|].
  split; [exact (word_byte_assemble acc 16 o0 o1 o2 o3 o4 o5 o6 o7
                   ltac:(auto) B0 B1 B2 B3 B4 B5 B6 B7)|].
  split; [exact (word_byte_assemble acc 8 o0 o1 o2 o3 o4 o5 o6 o7
                   ltac:(auto) B0 B1 B2 B3 B4 B5 B6 B7)|].
  exact (word_byte_assemble acc 0 o0 o1 o2 o3 o4 o5 o6 o7
           ltac:(auto) B0 B1 B2 B3 B4 B5 B6 B7).
Qed.

(** One call of the loop of [crypto1_word], with the call it makes
    named. *)
Ltac word_call :=
  match goal with
  | |- context [word_step ?a ?e (?ret, ?s) ?i] =>
      let c := eval vm_compute in (i .^ 24) in
      let p := eval vm_compute in ((24 .^ i) .& 0x1F) in
      rewrite (word_step_at a e ret s i c p eq_refl eq_refl);
      rewrite ?clock_bits_nil, ?fst_pair, ?snd_pair;
      rewrite (clock_bits_cons s);
      let r := fresh "r" in
      let H := fresh "H" in
      let B := fresh "B" in
      remember (crypto1_bit s (BIT a c) e) as r eqn:H;
      pose proof (crypto1_bit_out_is_bit s (BIT a c) e) as B;
      rewrite <- H in B; clear H;
      rewrite ?fst_pair, ?snd_pair
  end.

(** [crypto1_word] is [crypto1_byte] on the four bytes of the word, the
    most significant first, each result placed where its input byte
    was. *)
Lemma crypto1_word_bytes (s : Crypto1State) (in_ e : Z) :
  let r3 := crypto1_byte s (u8 (in_ .>> 24)) e in
  let r2 := crypto1_byte (snd r3) (u8 (in_ .>> 16)) e in
  let r1 := crypto1_byte (snd r2) (u8 (in_ .>> 8)) e in
  let r0 := crypto1_byte (snd r1) (u8 in_) e in
  crypto1_word s in_ e
  = ((((fst r3 .<< 24) .| (fst r2 .<< 16)) .| (fst r1 .<< 8)) .| fst r0, snd r0).
Proof.
  cbv zeta. rewrite !crypto1_byte_calls, !fst_pair, !snd_pair.
  destruct (word_bytes_inputs in_) as (I3 & I2 & I1 & I0). rewrite I3, I2, I1, I0.
  clear I3 I2 I1 I0.
  rewrite crypto1_word_fold, fold_upto_32.
  do 32 word_call.
  rewrite ?clock_bits_nil, ?fst_pair, ?snd_pair.
  rewrite (proj1 (word_byte_assemble_at 0 _ _ _ _ _ _ _ _ B B0 B1 B2 B3 B4 B5 B6)).
  rewrite (proj1 (proj2 (word_byte_assemble_at _ _ _ _ _ _ _ _ _
                           B7 B8 B9 B10 B11 B12 B13 B14))).
  rewrite (proj1 (proj2 (proj2 (word_byte_assemble_at _ _ _ _ _ _ _ _ _
                                  B15 B16 B17 B18 B19 B20 B21 B22)))).
  rewrite (proj2 (proj2 (proj2 (word_byte_assemble_at _ _ _ _ _ _ _ _ _
                                  B23 B24 B25 B26 B27 B28 B29 B30)))).
  rewrite Z.lor_0_l, Z.shiftl_0_r. reflexivity.
Qed.

End WordFacts.
Import WordFacts.

(** * The claims *)
Import HexUtils Crapto1 Crypto1.

(** ** Reader-nonce absorption *)

(** The double XOR of [Crypto1Auth] cancels the feedback it has just
    computed: a pass of the bit loop shifts in the input bit alone. *)
Lemma auth_bit_shifts_input (Ev Od : bytes3) (In bit : Z) :
  auth_bit (Ev, Od, In) bit
  = if nonzero (bit .& 1) then (Ev, SHIFT24 Od (In .& 1), In .>> 1)
    else (SHIFT24 Ev (In .& 1), Od, In .>> 1).
Proof.
  unfold auth_bit.
  assert (H : forall F, u8 (F .^ (F .^ (In .& 1))) = In .& 1).
  { intros F. rewrite <- Z.lxor_assoc, Z.lxor_nilpotent, Z.lxor_0_l.
    destruct (land1_is_bit In) as [-> | ->]; reflexivity. }
  destruct (nonzero (bit .& 1)); rewrite H; reflexivity.
Qed.

(** C1 (the code departs from the claim).  [Crypto1Auth] computes the
    filter output and the tap parity and then discards both: every pass
    of its bit loop shifts the raw ciphertext bit into the register.
    From the state that the key 01 00 00 00 00 00 loads, with an
    all-zero encrypted nonce, the code ends in the all-zero state; the
    absorption the claim describes (filter output and tap parity folded
    into the bit shifted in) already inserts a 1 at the first clock. *)
Theorem Crypto1Auth_shifts_in_raw_ciphertext :
  let State := LoadKey [1; 0; 0; 0; 0; 0] in
  State = {| Even := (1, 0, 0); Odd := (0, 0, 0) |}
  /\ Crypto1Auth State [0; 0; 0; 0] = {| Even := (0, 0, 0); Odd := (0, 0, 0) |}
  /\ Crypto1LFSR State (BIT 0 0 .^ Crypto1FilterOutput State)
     = {| Even := (0, 0, 0); Odd := (0, 0, 128) |}
  /\ auth_reference State [0; 0; 0; 0]
     = {| Even := (0, 177, 180); Odd := (0, 78, 160) |}
  /\ (forall (Ev Od : bytes3) (In bit : Z),
        auth_bit (Ev, Od, In) bit
        = if nonzero (bit .& 1) then (Ev, SHIFT24 Od (In .& 1), In .>> 1)
          else (SHIFT24 Ev (In .& 1), Od, In .>> 1)).
Proof.
  cbv zeta. split; [vm_compute; reflexivity|].
  split; [vm_compute; reflexivity|].
  split; [vm_compute; reflexivity|].
  split; [vm_compute; reflexivity|].
  exact auth_bit_shifts_input.
Qed.

(** ** The forward clock *)

(** C2.  For a state with 24-bit halves and an input bit, [crypto1_bit]
    returns the filter output of the odd half it was called with; the
    new odd half is the old even half, and the new even half is the old
    odd half shifted left by one with, at bit 0, the even parity of
    [(in & 1) ^ (out & is_encrypted) ^ (LF_POLY_ODD & odd) ^
    (LF_POLY_EVEN & even)]. *)
Theorem crypto1_bit_spec (s : Crypto1State) (in_ is_encrypted : Z) :
  0 <= odd s < 2 ^ 24 -> 0 <= even s < 2 ^ 24 -> is_bit in_ ->
  let out := filter (odd s) in
  let feedin :=
    evenparity32 ((((in_ .& 1) .^ (out .& truth is_encrypted))
                     .^ (LF_POLY_ODD .& odd s)) .^ (LF_POLY_EVEN .& even s)) in
  crypto1_bit s in_ is_encrypted
  = (out, {| odd := even s; even := (odd s .<< 1) .| feedin |})
  /\ is_bit out /\ is_bit feedin
  /\ Z.testbit (even (snd (crypto1_bit s in_ is_encrypted))) 0 = (feedin =? 1)
  /\ even (snd (crypto1_bit s in_ is_encrypted)) .>> 1 = odd s.
Proof.
  intros Ho He Hin out feedin.
  assert (Hout : is_bit out) by apply filter_is_bit.
  assert (Hfeed : is_bit feedin) by apply evenparity32_is_bit.
  assert (E : crypto1_bit s in_ is_encrypted
              = (out, {| odd := even s; even := (odd s .<< 1) .| feedin |})).
  { unfold crypto1_bit. fold out. rewrite (u8_is_bit out Hout).
    rewrite (truth_bit in_ Hin).
    rewrite (Z.lxor_comm (out .& truth is_encrypted) (in_ .& 1)).
    fold feedin. f_equal. f_equal.
    unfold u32. apply Z.mod_small.
    pose proof (shift_in_range 24 (odd s) feedin ltac:(lia) Ho Hfeed). lia. }
  rewrite E. cbn [snd even].
  repeat split; try assumption.
  - apply shift_in_bit0. exact Hfeed.
  - apply shift_in_shiftr. exact Hfeed.
Qed.

Lemma crypto1_bit_spec_witness :
  crypto1_bit {| odd := 0x123456; even := 0x0ABCDE |} 1 1
  = (filter 0x123456,
     {| odd := 0x0ABCDE;
        even := (0x123456 .<< 1)
                  .| evenparity32
                       ((((1 .& 1) .^ (filter 0x123456 .& truth 1))
                           .^ (LF_POLY_ODD .& 0x123456))
                          .^ (LF_POLY_EVEN .& 0x0ABCDE)) |}).
Proof.
  apply (crypto1_bit_spec {| odd := 0x123456; even := 0x0ABCDE |} 1 1).
  - simpl. lia.
  - simpl. lia.
  - right. reflexivity.
Defined.

(** C3, amended.  [crypto1_init] leaves both halves below [2 ^ 24] for
    every key.  One [crypto1_bit] call from a state with 24-bit halves
    leaves the new odd half below [2 ^ 24], but does not mask the new
    even half: it is below [2 ^ 25], its bit 24 is bit 23 of the old odd
    half, and it is below [2 ^ 24] exactly when that bit was clear. *)
Theorem width_invariant_amended :
  (forall key : Z,
      0 <= odd (crypto1_init key) < 2 ^ 24 /\ 0 <= even (crypto1_init key) < 2 ^ 24)
  /\ (forall (s : Crypto1State) (in_ is_encrypted : Z),
         0 <= odd s < 2 ^ 24 -> 0 <= even s < 2 ^ 24 ->
         let s' := snd (crypto1_bit s in_ is_encrypted) in
         0 <= odd s' < 2 ^ 24
         /\ 0 <= even s' < 2 ^ 25
         /\ Z.testbit (even s') 24 = Z.testbit (odd s) 23
         /\ (even s' < 2 ^ 24 <-> Z.testbit (odd s) 23 = false)).
Proof.
  split; [exact init_range|].
  intros s in_ is_encrypted Ho He s'.
  destruct (crypto1_bit_even_unmasked s in_ is_encrypted Ho) as [p [Hp E]].
  subst s'. rewrite E. cbn [odd even].
  assert (Hr : 0 <= (odd s .<< 1) .| p < 2 ^ 25)
    by (apply (shift_in_range 24); [lia | exact Ho | exact Hp]).
  assert (H24 : Z.testbit ((odd s .<< 1) .| p) 24 = Z.testbit (odd s) 23).
  { zbits. rewrite (is_bit_testbit p) by exact Hp. apply orb_false_r. }
  repeat split; try lia; try exact H24.
  - intros Hlt. rewrite <- H24. apply (testbit_high 24); lia.
  - intros Hbit. apply bits_range; [lia|]. intros i Hi.
    destruct (Z.eq_dec i 24) as [->|Hne]; [rewrite H24; exact Hbit|].
    apply (testbit_high 25); lia.
Qed.

(** C3, as stated, fails: the state with odd half [0x800000] has 24-bit
    halves, and after one clock its even half has bit 24 set. *)
Lemma width_invariant_counterexample :
  let s := {| odd := 0x800000; even := 0 |} in
  (0 <= odd s < 2 ^ 24 /\ 0 <= even s < 2 ^ 24)
  /\ ~ (even (snd (crypto1_bit s 0 0)) < 2 ^ 24).
Proof.
  cbv zeta. split.
  - cbn [odd even]. lia.
  - vm_compute. discriminate.
Qed.

Lemma width_invariant_witness :
  0 <= even (snd (crypto1_bit {| odd := 0x123456; even := 0x0ABCDE |} 0 0)) < 2 ^ 25.
Proof.
  apply (proj2 width_invariant_amended {| odd := 0x123456; even := 0x0ABCDE |} 0 0).
  - simpl. lia.
  - simpl. lia.
Defined.

(** ** Rollback *)

(** The packed and the byte-split clock move different halves: from
    the same loaded key, [Crypto1LFSR] shifts the feedback into the half
    tapped by the even mask, [crypto1_bit] into the other one. *)
Lemma packed_clock_disagrees :
  let Key := [0xA0; 0xA1; 0xA2; 0xA3; 0xA4; 0xA5] in
  let st := LoadKey Key in
  let s := crypto1_init (bytes_to_num Key 6) in
  (packed (Odd st), packed (Even st)) = (odd s, even s)
  /\ snd (crypto1_bit s 0 0) = {| odd := even s; even := (odd s .<< 1) .| 0 |}
  /\ (packed (Odd (Crypto1LFSR st 0)), packed (Even (Crypto1LFSR st 0)))
     = ((even s .<< 1) .| 0, odd s).
Proof. cbv zeta. repeat split; vm_compute; reflexivity. Qed.

(** C4 (the code departs from the claim).  [crypto1_word] sends two
    different states with 24-bit halves, the ones loaded from the keys
    [2 ^ 41] and [0], to the same state and the same output word: bit 23
    of the odd half enters neither the filter nor the feedback and is
    shifted out of the register.  Whatever [lfsr_rollback_word] computes,
    it cannot restore both. *)
Theorem crypto1_word_merges_states :
  let S1 := crypto1_init (2 ^ 41) in
  let S2 := crypto1_init 0 in
  S1 = {| odd := 0x800000; even := 0 |}
  /\ S2 = {| odd := 0; even := 0 |}
  /\ crypto1_word S1 0 0 = crypto1_word S2 0 0
  /\ (forall rollback_word : Crypto1State -> Z -> Z -> Z * Crypto1State,
        ~ (snd (rollback_word (snd (crypto1_word S1 0 0)) 0 0) = S1
           /\ snd (rollback_word (snd (crypto1_word S2 0 0)) 0 0) = S2)).
Proof.
  cbv zeta.
  assert (E1 : crypto1_init (2 ^ 41) = {| odd := 0x800000; even := 0 |})
    by (vm_compute; reflexivity).
  assert (E2 : crypto1_init 0 = {| odd := 0; even := 0 |}) by (vm_compute; reflexivity).
  assert (E : crypto1_word (crypto1_init (2 ^ 41)) 0 0 = crypto1_word (crypto1_init 0) 0 0)
    by (vm_compute; reflexivity).
  repeat split; try assumption.
  intros rollback_word [H1 H2]. rewrite E, H2, E1, E2 in H1. discriminate H1.
Qed.

(** ** Nested setup *)

(** C5.  Without decryption, [Crypto1SetupNested] emits for each nonce
    byte [b] the odd parity of the plaintext byte XOR the filter output
    of the state reached after that byte's eight clocks; the same filter
    output, taken without clocking, is bit 0 of the keystream of the next
    byte, and bit 0 of the keystream of byte 0 is the filter output right
    after the key load.  The state saved at the end is the state after
    the 32 clocks. *)
Theorem nested_parity_is_next_keystream_bit
        (Key Uid : list Z) (c0 c1 c2 c3 p0 p1 p2 p3 : Z) :
  let CardNonce := [c0; c1; c2; c3] in
  let r := Crypto1SetupNested Key Uid CardNonce [p0; p1; p2; p3] false in
  let st := nested_state Key Uid CardNonce in
  (forall b : nat, (b < 4)%nat ->
     idx (snd (fst r)) (Z.of_nat b)
     = oddparity8 (idx CardNonce (Z.of_nat b)) .^ Crypto1FilterOutput (st (S b))
     /\ BIT (idx (fst (fst r)) (Z.of_nat b) .^ idx CardNonce (Z.of_nat b)) 0
        = Crypto1FilterOutput (st b))
  /\ snd r = st 4%nat.
Proof.
  cbv zeta.
  destruct (setup_nested_result Key Uid c0 c1 c2 c3 p0 p1 p2 p3)
    as [ks0 [ks1 [ks2 [ks3 [[K0 [K1 [K2 K3]]] E]]]]].
  rewrite E. cbn [fst snd].
  remember (nested_state Key Uid [c0; c1; c2; c3]) as st eqn:Est. clear Est.
  split; [|reflexivity].
  intros b Hb.
  destruct b as [|[|[|[|b]]]]; [| | | |lia];
    cbn [Z.of_nat Pos.of_succ_nat Pos.succ]; buf4;
    (split; [reflexivity | apply keystream_bit0; [apply filter_output_is_bit | assumption]]).
Qed.

Lemma nested_parity_witness :
  idx (snd (fst (Crypto1SetupNested [1; 2; 3; 4; 5; 6] [7; 8; 9; 10] [11; 12; 13; 14]
                   [0; 0; 0; 0] false))) 0
  = oddparity8 11
      .^ Crypto1FilterOutput (nested_state [1; 2; 3; 4; 5; 6] [7; 8; 9; 10]
                                [11; 12; 13; 14] 1).
Proof.
  apply (proj1 (nested_parity_is_next_keystream_bit [1; 2; 3; 4; 5; 6] [7; 8; 9; 10]
                  11 12 13 14 0 0 0 0) 0%nat).
  lia.
Defined.

(** ** The two filters *)

(** The tap masks of the two layouts are each other's image. *)
Lemma packed_masks :
  packed (u8 LFSR_MASK_ODD, u8 (LFSR_MASK_ODD .>> 8), u8 (LFSR_MASK_ODD .>> 16))
  = LF_POLY_ODD
  /\ packed (u8 LFSR_MASK_EVEN, u8 (LFSR_MASK_EVEN .>> 8), u8 (LFSR_MASK_EVEN .>> 16))
     = LF_POLY_EVEN.
Proof. split; vm_compute; reflexivity. Qed.

(** C6.  For every byte-split odd half, the table-driven filter
    ([TableC0] over the OR of the three byte tables) returns the bit that
    the bit-math [filter] returns on the packed value of the same half,
    and the [TableC3] and [TableC7] variants return that bit at
    positions 3 and 7. *)
Theorem filter_implementations_agree (O0 O1 O2 : Z) :
  is_byte O0 -> is_byte O1 -> is_byte O2 ->
  let x := packed (O0, O1, O2) in
  CRYPTO1_FILTER_OUTPUT_B0_24 (O0, O1, O2) = filter x
  /\ CRYPTO1_FILTER_OUTPUT_B3_24 (O0, O1, O2) = filter x .<< 3
  /\ CRYPTO1_FILTER_OUTPUT_B7_24 (O0, O1, O2) = filter x .<< 7
  /\ (forall Ev, Crypto1FilterOutput {| Even := Ev; Odd := (O0, O1, O2) |} = filter x)
  /\ is_bit (filter x).
Proof.
  intros H0 H1 H2 x. subst x.
  rewrite (filter_packed_index O0 O1 O2 H0 H1 H2).
  destruct (TableC_lookup (filter_index (O0, O1, O2))
              (filter_index_range O0 O1 O2 H0 H1 H2)) as [T0 [T3 T7]].
  unfold Crypto1FilterOutput, CRYPTO1_FILTER_OUTPUT_B0_24, CRYPTO1_FILTER_OUTPUT_B3_24,
    CRYPTO1_FILTER_OUTPUT_B7_24. cbn [Odd].
  repeat split; try assumption.
  - intros _. exact T0.
  - apply BIT_is_bit. apply filter_index_range; assumption.
Qed.

Lemma filter_implementations_agree_witness :
  CRYPTO1_FILTER_OUTPUT_B0_24 (0x12, 0x34, 0x56) = filter (packed (0x12, 0x34, 0x56)).
Proof.
  apply (filter_implementations_agree 0x12 0x34 0x56); unfold is_byte; lia.
Defined.

(** ** The word lift *)

(** C7.  [crypto1_word] is 32 sequential [crypto1_bit] calls: call [i]
    receives bit [24 XOR i] of the input word, its output is bit
    [24 XOR i] of the result, and the final state is the state after the
    32 calls. *)
Theorem crypto1_word_is_32_bit_calls (s : Crypto1State) (in_ is_encrypted : Z) :
  let calls := clock_bits s (map (fun i => BIT in_ (24 .^ i)) (upto 32)) is_encrypted in
  let r := crypto1_word s in_ is_encrypted in
  snd r = snd calls
  /\ (forall i : nat, (i < 32)%nat ->
        BIT (fst r) (24 .^ Z.of_nat i) = nth i (fst calls) 0)
  /\ 0 <= fst r < 2 ^ 32.
Proof.
  intros calls r.
  assert (Ecalls : calls = clock_bits s (map (BEBIT in_) (upto 32)) is_encrypted).
  { subst calls.
    rewrite (map_ext (BEBIT in_) (fun i => BIT in_ (24 .^ i))); [reflexivity|].
    intros i. unfold BEBIT. rewrite Z.lxor_comm. reflexivity. }
  destruct (word_fold in_ is_encrypted (upto 32) 0 s word_pos_upto) as [Hs Hb].
  rewrite <- crypto1_word_fold in Hs, Hb. fold r in Hs, Hb. rewrite <- Ecalls in Hs, Hb.
  pose proof (clock_bits_length (map (fun i => BIT in_ (24 .^ i)) (upto 32)) s is_encrypted)
    as Hlen.
  pose proof (clock_bits_is_bit (map (fun i => BIT in_ (24 .^ i)) (upto 32)) s is_encrypted)
    as Hbits.
  fold calls in Hlen, Hbits. rewrite length_map in Hlen.
  change (length (upto 32)) with 32%nat in Hlen.
  split; [exact Hs|].
  clearbody calls r. clear Ecalls Hs.
  destruct calls as [outs sN]. cbn [fst] in *.
  assert (Hnth : forall k, is_bit (nth k outs 0))
    by (intros k; apply Forall_is_bit_nth; exact Hbits).
  clear Hbits.
  do 32 (destruct outs as [|? outs]; [discriminate Hlen|]).
  destruct outs; [|discriminate Hlen]. clear Hlen.
  split.
  - intros i Hi.
    rewrite <- (is_bit_b2z _ (Hnth i)).
    do 32 (destruct i as [|i];
           [ rewrite BIT_b2z by (vm_compute; discriminate);
             rewrite Hb by (vm_compute; discriminate);
             rewrite Z.testbit_0_l;
             cbn [combine upto map seq existsb nth];
             eval_word_pos; cbn [andb orb];
             rewrite ?orb_false_r; reflexivity
           | ]).
    lia.
  - apply bits_range; [lia|]. intros p Hp.
    rewrite Hb by lia. rewrite Z.testbit_0_l.
    cbn [combine upto map seq existsb orb].
    repeat match goal with
      | |- context [word_pos ?a =? p] =>
          replace (word_pos a =? p) with false
            by (symmetry; apply Z.eqb_neq; vm_compute word_pos; lia)
      end.
    reflexivity.
Qed.

Lemma crypto1_word_witness :
  BIT (fst (crypto1_word {| odd := 0x123456; even := 0x0ABCDE |} 0x01020304 1))
    (24 .^ Z.of_nat 5)
  = nth 5 (fst (clock_bits {| odd := 0x123456; even := 0x0ABCDE |}
                  (map (fun i => BIT 0x01020304 (24 .^ i)) (upto 32)) 1)) 0.
Proof.
  apply (proj1 (proj2 (crypto1_word_is_32_bit_calls
                         {| odd := 0x123456; even := 0x0ABCDE |} 0x01020304 1)) 5%nat).
  lia.
Defined.

(** ** Key load and export *)

(** C8.  Exporting the state that [crypto1_init] loads from a 48-bit
    key gives the key back. *)
Theorem get_lfsr_init_roundtrip (K : Z) :
  0 <= K < 2 ^ 48 -> crypto1_get_lfsr (crypto1_init K) = K.
Proof.
  intros HK. apply Z.bits_inj'. intros n Hn.
  rewrite <- (Z2Nat.id n) by exact Hn. generalize (Z.to_nat n) as j. clear n Hn. intros j.
  rewrite get_lfsr_bit.
  destruct (Nat.ltb_spec j 48) as [Hlt|Hge].
  - cbn [andb].
    do 48 (destruct j as [|j]; [ roundtrip_bit | ]).
    lia.
  - cbn [andb]. symmetry. apply (testbit_high 48); lia.
Qed.

Lemma get_lfsr_init_roundtrip_witness :
  crypto1_get_lfsr (crypto1_init 0x123456789ABC) = 0x123456789ABC.
Proof. apply get_lfsr_init_roundtrip. lia. Defined.

(** ** The tag PRNG *)

(** C9, amended.  [prng_successor x n] is the reference definition
    (byte-swap, [n] single steps, byte-swap), so its fast paths agree
    with the general loop; the successors of [0x01020304] are
    [0x00810182] after 1 step and [0x20F8ED56] after 64. *)
Theorem prng_successor_refines_reference :
  (forall x n : Z, prng_successor x n = prng_successor_ref x n)
  /\ prng_successor 0x01020304 1 = 0x00810182
  /\ prng_successor 0x01020304 64 = 0x20F8ED56.
Proof.
  split; [|split; vm_compute; reflexivity].
  intros x n. rewrite prng_successor_iter. unfold prng_successor_ref.
  f_equal. apply prng_iter_ref_eq. apply REV_range.
Qed.

(** C9, as stated, fails on its two vectors: the code returns
    [0x00810182] and [0x20F8ED56], not [0x01020381] and [0x63B11474]. *)
Lemma prng_successor_vectors_counterexample :
  (prng_successor 0x01020304 1 = 0x00810182 /\ 0x00810182 <> 0x01020381)
  /\ (prng_successor 0x01020304 64 = 0x20F8ED56 /\ 0x20F8ED56 <> 0x63B11474).
Proof. repeat split; try (vm_compute; reflexivity); discriminate. Qed.

(** C10.  [Crypto1PRNG] advances the word held big-endian in the
    state array by [32 * (ClockCount / 32)] single PRNG steps: one pass
    of its three chunked updates is 32 applications of the step of
    [prng_successor], and a count below 32 leaves the array unchanged. *)
Theorem Crypto1PRNG_advances (s0 s1 s2 s3 ClockCount : Z) :
  is_byte s0 -> is_byte s1 -> is_byte s2 -> is_byte s3 -> 0 <= ClockCount < 256 ->
  let State := [s0; s1; s2; s3] in
  let State' := Crypto1PRNG State ClockCount in
  let steps := 32 * (ClockCount / 32) in
  bytes_to_num State' 4 = prng_successor (bytes_to_num State 4) steps
  /\ bytes_to_num State' 4
     = __REV (Nat.iter (Z.to_nat steps) prng_step (__REV (bytes_to_num State 4)))
  /\ (forall Temp, 0 <= Temp < 2 ^ 32 -> prng_chunks Temp = Nat.iter 32 prng_step Temp)
  /\ (ClockCount < 32 -> State' = State)
  /\ Forall is_byte State'.
Proof.
  intros H0 H1 H2 H3 Hcc State State' steps.
  set (T0 := ((s0 .| (s1 .<< 8)) .| (s2 .<< 16)) .| (s3 .<< 24)).
  assert (HT0 : 0 <= T0 < 2 ^ 32) by (apply le32_range; assumption).
  assert (Hk : 0 <= ClockCount / 32 <= 7).
  { split; [apply Z.div_pos; lia|]. apply Z.lt_succ_r. apply Z.div_lt_upper_bound; lia. }
  assert (Hloop : fst (prng_loop 8 T0 ClockCount) = Nat.iter (Z.to_nat steps) prng_step T0).
  { rewrite prng_loop_spec by (try assumption; cbn; lia). cbn [fst]. f_equal.
    subst steps. lia. }
  assert (E : State' = let T := Nat.iter (Z.to_nat steps) prng_step T0 in
                       [u8 T; u8 (T .>> 8); u8 (T .>> 16); u8 (T .>> 24)]).
  { subst State' State. rewrite Crypto1PRNG_unfold. fold T0. cbv zeta. rewrite Hloop.
    reflexivity. }
  cbv zeta in E.
  assert (Hnum : bytes_to_num State' 4
                 = __REV (Nat.iter (Z.to_nat steps) prng_step (__REV (bytes_to_num State 4)))).
  { rewrite E. rewrite bytes_to_num_4 by (rewrite u8_land; apply land_byte_range).
    rewrite store_bytes_be. subst State. rewrite bytes_to_num_4 by assumption.
    rewrite REV_bytes_be by assumption. reflexivity. }
  split; [|split; [exact Hnum|split; [exact prng_chunks_iter|split]]].
  - rewrite prng_successor_iter. exact Hnum.
  - intros Hlt. rewrite E.
    assert (Hz : steps = 0) by (subst steps; rewrite Z.div_small by lia; reflexivity).
    rewrite Hz. change (Nat.iter (Z.to_nat 0) prng_step T0) with T0.
    apply store_bytes_le; assumption.
  - rewrite E. repeat constructor; rewrite u8_land; apply land_byte_range.
Qed.

Lemma Crypto1PRNG_advances_witness :
  bytes_to_num (Crypto1PRNG [1; 2; 3; 4] 70) 4
  = prng_successor (bytes_to_num [1; 2; 3; 4] 4) (32 * (70 / 32)).
Proof.
  pose proof (Crypto1PRNG_advances 1 2 3 4 70) as H. cbv zeta in H.
  destruct H as [H _]; [unfold is_byte; lia ..| exact H].
Defined.

(** * Further properties of the code *)

(** ** The packed implementation *)

(** X1.  [crypto1_byte] is eight sequential [crypto1_bit] calls on the
    bits of the input byte, least significant first; bit [i] of the
    returned byte is the output of call [i], and the final state is the
    state after the eight calls. *)
Theorem crypto1_byte_is_8_bit_calls (s : Crypto1State) (in_ is_encrypted : Z) :
  let calls := clock_bits s (byte_bits_of in_) is_encrypted in
  crypto1_byte s in_ is_encrypted = (bits_lsb (fst calls), snd calls).
Proof. cbv zeta. apply crypto1_byte_calls. Qed.

(** X2.  [crypto1_init] undoes [crypto1_get_lfsr]: a state whose halves
    fit 24 bits is rebuilt from the 48-bit value exported from it, and
    the exported value fits 48 bits. *)
Theorem crypto1_init_get_lfsr_roundtrip (s : Crypto1State) :
  0 <= odd s < 2 ^ 24 -> 0 <= even s < 2 ^ 24 ->
  crypto1_init (crypto1_get_lfsr s) = s /\ 0 <= crypto1_get_lfsr s < 2 ^ 48.
Proof.
  intros Ho He. split; [|apply get_lfsr_range].
  apply state_record_eq; [apply reload_odd | apply reload_even]; assumption.
Qed.

Lemma crypto1_init_get_lfsr_roundtrip_witness :
  crypto1_init (crypto1_get_lfsr {| odd := 0x123456; even := 0x0ABCDE |})
  = {| odd := 0x123456; even := 0x0ABCDE |}.
Proof.
  pose proof (crypto1_init_get_lfsr_roundtrip {| odd := 0x123456; even := 0x0ABCDE |}) as H.
  cbn [odd even] in H. apply H; lia.
Defined.

(** X3.  The bits that [crypto1_bit] leaves above bit 23 of a half never
    reach the keystream: two states that agree on the low 24 bits of
    both halves emit the same bits under any inputs, and still agree on
    those 24 bits afterwards. *)
Theorem keystream_ignores_upper_bits (s s' : Crypto1State) (ins : list Z)
    (is_encrypted : Z) :
  same_low24 s s' ->
  fst (clock_bits s ins is_encrypted) = fst (clock_bits s' ins is_encrypted)
  /\ same_low24 (snd (clock_bits s ins is_encrypted)) (snd (clock_bits s' ins is_encrypted)).
Proof. intros H. apply clock_bits_low24. exact H. Qed.

Lemma keystream_ignores_upper_bits_witness :
  fst (clock_bits {| odd := 0x123456; even := 0x0ABCDE |} [1; 0; 1] 1)
  = fst (clock_bits {| odd := 0x1123456; even := 0x0ABCDE |} [1; 0; 1] 1).
Proof.
  pose proof (keystream_ignores_upper_bits
                {| odd := 0x123456; even := 0x0ABCDE |}
                {| odd := 0x1123456; even := 0x0ABCDE |} [1; 0; 1] 1
                (conj eq_refl eq_refl)) as H.
  exact (proj1 H).
Defined.

(** X4.  PRNG successors compose: [b] steps after [a] steps are [a + b]
    steps. *)
Theorem prng_successor_composes (x a b : Z) :
  0 <= a -> 0 <= b ->
  prng_successor (prng_successor x a) b = prng_successor x (a + b).
Proof. intros Ha Hb. apply prng_successor_add; assumption. Qed.

Lemma prng_successor_composes_witness :
  prng_successor (prng_successor 0x01020304 1) 63 = prng_successor 0x01020304 (1 + 63).
Proof. apply (prng_successor_composes 0x01020304 1 63); lia. Defined.

(** ** Numbers and byte arrays *)

(** X5.  [bytes_to_num] reads back what [num_to_bytes] wrote: the low
    [8 * len] bits of the number, for every length the buffer holds. *)
Theorem num_to_bytes_roundtrip (n len : Z) (dest : list Z) :
  0 <= n < 2 ^ 64 -> 0 <= len -> len <= Z.of_nat (length dest) ->
  bytes_to_num (num_to_bytes n len dest) len = n mod 2 ^ (8 * len).
Proof. intros Hn Hl Hd. apply bytes_to_num_of_num_to_bytes; assumption. Qed.

Lemma num_to_bytes_roundtrip_witness :
  bytes_to_num (num_to_bytes 0x0102030405060708 6 [0; 0; 0; 0; 0; 0; 0; 0]) 6
  = 0x0102030405060708 mod 2 ^ (8 * 6).
Proof.
  apply (num_to_bytes_roundtrip 0x0102030405060708 6 [0; 0; 0; 0; 0; 0; 0; 0]);
    cbn [length]; lia.
Defined.

(** ** The keystream functions of the byte-split implementation *)

(** X6.  [Crypto1Byte] clocks the state eight times with no input and
    returns the byte whose bit [j] is the filter output after [j] of
    these clocks. *)
Theorem Crypto1Byte_is_keystream_byte (st : Crypto1LfsrState_t) :
  Crypto1Byte st = (bits_lsb (keystream st (repeat 0 8)), clocks st (repeat 0 8)).
Proof. apply Crypto1Byte_spec. Qed.

(** X7.  [Crypto1ByteArray] xors byte [j] of the buffer, for [j] below
    the count, with the [j]-th keystream byte of the entry state, leaves
    the other bytes and the length alone, and clocks the state eight
    times a byte; a count of zero changes nothing. *)
Theorem Crypto1ByteArray_xors_keystream (st : Crypto1LfsrState_t) (Buffer : list Z)
    (Count : Z) :
  let n := Z.to_nat Count in
  let r := Crypto1ByteArray st Buffer Count in
  snd r = clocks st (repeat 0 (8 * n))
  /\ length (fst r) = length Buffer
  /\ forall j : nat,
       nth j (fst r) 0
       = if (j <? n)%nat && (j <? length Buffer)%nat
         then nth j Buffer 0 .^ keystream_byte st j
         else nth j Buffer 0.
Proof. cbv zeta. rewrite Crypto1ByteArray_eq. apply byte_array_loop. Qed.

(** X8.  [Crypto1ByteArray] is its own inverse: run again from the same
    state on its own output, it gives the buffer back. *)
Theorem Crypto1ByteArray_twice_restores (st : Crypto1LfsrState_t) (Buffer : list Z)
    (Count : Z) :
  fst (Crypto1ByteArray st (fst (Crypto1ByteArray st Buffer Count)) Count) = Buffer.
Proof. rewrite !Crypto1ByteArray_eq. apply byte_array_twice. Qed.

(** X9.  [Crypto1Setup] is the initialisation of the cipher: it loads
    the key, clocks in the 32 bits of nonce xor UID, least significant
    bit of each byte first, and xors each nonce byte with the eight
    keystream bits of its own clocks. *)
Theorem Crypto1Setup_is_initialisation (Key Uid : list Z) (c0 c1 c2 c3 : Z) :
  let ins := setup_input [c0; c1; c2; c3] Uid in
  let ks := keystream (LoadKey Key) ins in
  Crypto1Setup Key Uid [c0; c1; c2; c3]
  = ([c0 .^ bits_lsb (chunk8 ks 0); c1 .^ bits_lsb (chunk8 ks 1);
      c2 .^ bits_lsb (chunk8 ks 2); c3 .^ bits_lsb (chunk8 ks 3)],
     clocks (LoadKey Key) ins).
Proof. apply Crypto1Setup_spec. Qed.

(** X10.  Without decryption, [Crypto1SetupNested] leaves the state and
    the encrypted nonce that [Crypto1Setup] leaves, for every key, UID,
    nonce and parity buffer. *)
Theorem Crypto1SetupNested_extends_Crypto1Setup (Key Uid CardNonce NonceParity : list Z) :
  Crypto1Setup Key Uid CardNonce
  = (fst (fst (Crypto1SetupNested Key Uid CardNonce NonceParity false)),
     snd (Crypto1SetupNested Key Uid CardNonce NonceParity false)).
Proof. apply setup_nested_agrees. Qed.

(** X11.  [Crypto1Nibble] clocks the state four times; of the nibble it
    returns, bits 0 and 1 both hold the filter output of the entry
    state, and bits 2 and 3 hold the outputs after one and two clocks. *)
Theorem Crypto1Nibble_repeats_first_bit (st : Crypto1LfsrState_t) :
  Crypto1Nibble st
  = (bits_lsb [Crypto1FilterOutput st;
               Crypto1FilterOutput st;
               Crypto1FilterOutput (clocks st [0]);
               Crypto1FilterOutput (clocks st [0; 0])],
     clocks st [0; 0; 0; 0]).
Proof. apply Crypto1Nibble_spec. Qed.

(** X12.  [Crypto1ByteArrayWithParity] clocks the state eight times a
    byte with no input, keeps the lengths of both buffers, and writes
    as parity of byte [j] the odd parity of the plain byte xor the
    filter output after the byte's clocks. *)
Theorem Crypto1ByteArrayWithParity_state_and_parity (st : Crypto1LfsrState_t)
    (Buffer Parity : list Z) (Count : Z) :
  let n := Z.to_nat Count in
  let r := Crypto1ByteArrayWithParity st Buffer Parity Count in
  snd r = clocks st (repeat 0 (8 * n))
  /\ (length (fst (fst r)) = length Buffer /\ length (snd (fst r)) = length Parity)
  /\ forall j : nat,
       nth j (snd (fst r)) 0
       = if (j <? n)%nat && (j <? length Parity)%nat
         then oddparity8 (nth j Buffer 0)
              .^ Crypto1FilterOutput (clocks st (repeat 0 (8 * S j)))
         else nth j Parity 0.
Proof.
  cbv zeta.
  destruct (with_parity_loop st Buffer Parity Count) as (HS & HL & _ & HP).
  split; [exact HS|]. split; [exact HL | exact HP].
Qed.

(** X13.  The byte that [Crypto1ByteArrayWithParity] xors onto byte [j]
    of the buffer holds, in bits 1 to 7, the filter outputs after 0 to
    6 of the byte's clocks and, in bit 0, bit 7 of the byte xored onto
    byte [j - 1] (0 for the first byte). *)
Theorem Crypto1ByteArrayWithParity_displaced_keystream (st : Crypto1LfsrState_t)
    (Buffer Parity : list Z) (Count : Z) :
  let n := Z.to_nat Count in
  let r := Crypto1ByteArrayWithParity st Buffer Parity Count in
  forall j : nat,
    nth j (fst (fst r)) 0
    = if (j <? n)%nat && (j <? length Buffer)%nat
      then nth j Buffer 0
           .^ displaced (carried st (fun _ => 0) j)
                (keystream (clocks st (repeat 0 (8 * j))) (repeat 0 8))
      else nth j Buffer 0.
Proof.
  cbv zeta. intros j.
  destruct (with_parity_loop st Buffer Parity Count) as (_ & _ & HB & _).
  rewrite HB. rewrite <- fed_zero, <- byte_bits_of_zero.
  destruct j; reflexivity.
Qed.

(** X14.  [Crypto1ByteArrayWithParityHasIn] clocks the bits of each
    plain byte into the state, least significant first; the parity of
    byte [j] is the odd parity of the plain byte xor the filter output
    after the byte's clocks, and the byte xored onto byte [j] is
    assembled as in [Crypto1ByteArrayWithParity]. *)
Theorem Crypto1ByteArrayWithParityHasIn_feeds_plaintext (st : Crypto1LfsrState_t)
    (Buffer Parity : list Z) (Count : Z) :
  let n := Z.to_nat Count in
  let inp := fun j : nat => nth j Buffer 0 in
  let r := Crypto1ByteArrayWithParityHasIn st Buffer Parity Count in
  snd r = clocks st (fed inp n)
  /\ (length (fst (fst r)) = length Buffer /\ length (snd (fst r)) = length Parity)
  /\ (forall j : nat,
        nth j (fst (fst r)) 0
        = if (j <? n)%nat && (j <? length Buffer)%nat
          then nth j Buffer 0 .^ displaced_stream st inp j
          else nth j Buffer 0)
  /\ (forall j : nat,
        nth j (snd (fst r)) 0
        = if (j <? n)%nat && (j <? length Parity)%nat
          then oddparity8 (nth j Buffer 0)
               .^ Crypto1FilterOutput (clocks st (fed inp (S j)))
          else nth j Parity 0).
Proof. apply with_parity_in_loop. Qed.

(** X15.  [Crypto1EncryptWithParity] xors every bit below [BitCount] of
    the buffer, read as a stream of bits, with the filter output of the
    state before it, and clocks the state after every bit but each
    ninth: [BitCount - BitCount / 9] clocks in all, so a ninth bit and
    the bit after it meet the same filter output. *)
Theorem Crypto1EncryptWithParity_skips_ninth_bits (st : Crypto1LfsrState_t)
    (Buffer : list Z) (BitCount : Z) :
  0 <= BitCount ->
  let r := Crypto1EncryptWithParity st Buffer BitCount in
  snd r = clocks st (repeat 0 (Z.to_nat (BitCount - BitCount / 9)))
  /\ length (fst r) = length Buffer
  /\ forall p : Z, 0 <= p ->
       stream_bit (fst r) p
       = xorb (stream_bit Buffer p)
           ((p <? BitCount) && (p / 8 <? Z.of_nat (length Buffer))
            && (Crypto1FilterOutput (clocks st (repeat 0 (Z.to_nat (p - p / 9)))) =? 1)).
Proof. intros H. apply encrypt_with_parity_loop. exact H. Qed.

Lemma Crypto1EncryptWithParity_skips_ninth_bits_witness :
  snd (Crypto1EncryptWithParity (LoadKey [1; 2; 3; 4; 5; 6]) [0x55; 0xAA; 0x0F] 20)
  = clocks (LoadKey [1; 2; 3; 4; 5; 6]) (repeat 0 (Z.to_nat (20 - 20 / 9))).
Proof.
  pose proof (Crypto1EncryptWithParity_skips_ninth_bits
                (LoadKey [1; 2; 3; 4; 5; 6]) [0x55; 0xAA; 0x0F] 20 ltac:(lia)) as H.
  cbv zeta in H. exact (proj1 H).
Defined.

(** X16.  [Crypto1ReaderAuthWithParity] clocks the state 64 times over
    the 72 bits of its buffer: with the plain data bits of the first 36
    positions (those that are not a ninth bit), read before they are
    encrypted, and then 32 times with no input; every bit of the buffer
    is xored with the filter output of the state before it. *)
Theorem Crypto1ReaderAuthWithParity_feeds_reader_nonce (st : Crypto1LfsrState_t)
    (Buffer : list Z) :
  let r := Crypto1ReaderAuthWithParity st Buffer in
  snd r = clocks st (map (fun i => Z.b2z (stream_bit Buffer i)) (data_positions 36)
                       ++ repeat 0 32)
  /\ length (fst r) = length Buffer
  /\ forall p : Z, 0 <= p ->
       stream_bit (fst r) p
       = xorb (stream_bit Buffer p)
           ((p <? 72) && (p / 8 <? Z.of_nat (length Buffer))
            && (Crypto1FilterOutput
                  (clocks st (map (reader_bit Buffer) (data_positions (Z.to_nat p))))
                =? 1)).
Proof. apply reader_auth_loop. Qed.

(** ** The two implementations *)

(** X17.  The two key loads agree: the halves that the six [SPLIT_BYTE]s
    of the byte-split setup leave are, in the packed layout, the halves
    that [crypto1_init] builds from the same six key bytes read as a
    big-endian number. *)
Theorem LoadKey_matches_crypto1_init (k0 k1 k2 k3 k4 k5 : Z) :
  is_byte k0 -> is_byte k1 -> is_byte k2 -> is_byte k3 -> is_byte k4 -> is_byte k5 ->
  packed (Odd (LoadKey [k0; k1; k2; k3; k4; k5]))
  = odd (crypto1_init (bytes_to_num [k0; k1; k2; k3; k4; k5] 6))
  /\ packed (Even (LoadKey [k0; k1; k2; k3; k4; k5]))
     = even (crypto1_init (bytes_to_num [k0; k1; k2; k3; k4; k5] 6)).
Proof. intros. apply key_loads_agree; assumption. Qed.

Lemma LoadKey_matches_crypto1_init_witness :
  packed (Odd (LoadKey [0xA0; 0xA1; 0xA2; 0xA3; 0xA4; 0xA5]))
  = odd (crypto1_init (bytes_to_num [0xA0; 0xA1; 0xA2; 0xA3; 0xA4; 0xA5] 6)).
Proof.
  pose proof (LoadKey_matches_crypto1_init 0xA0 0xA1 0xA2 0xA3 0xA4 0xA5) as H.
  apply H; unfold is_byte; lia.
Defined.

(** ** The nested setup with decryption *)

(** X18.  With [Decrypt = true], [Crypto1SetupNested] clocks into the
    state, for each byte of the encrypted nonce xor UID, its first bit
    xored with the filter output and its other seven bits as they are:
    only the first bit of a byte is decrypted before it is fed back.  The
    nonce bytes are xored with the keystream of the states so reached,
    and the parity of byte [b] is the odd parity of the byte as it was
    passed in, xored with the filter output after the byte's clocks. *)
Theorem Crypto1SetupNested_decrypts_first_bit_only (Key Uid : list Z)
    (c0 c1 c2 c3 p0 p1 p2 p3 : Z) :
  let st := nested_decrypt_state Key Uid [c0; c1; c2; c3] in
  let ks := fun (b : nat) (c : Z) =>
              bits_lsb (keystream (st b) (decrypt_input (st b) (c .^ idx Uid (Z.of_nat b)))) in
  Crypto1SetupNested Key Uid [c0; c1; c2; c3] [p0; p1; p2; p3] true
  = ([c0 .^ ks 0%nat c0; c1 .^ ks 1%nat c1; c2 .^ ks 2%nat c2; c3 .^ ks 3%nat c3],
     [oddparity8 c0 .^ Crypto1FilterOutput (st 1%nat);
      oddparity8 c1 .^ Crypto1FilterOutput (st 2%nat);
      oddparity8 c2 .^ Crypto1FilterOutput (st 3%nat);
      oddparity8 c3 .^ Crypto1FilterOutput (st 4%nat)],
     st 4%nat).
Proof. exact (setup_nested_decrypt Key Uid c0 c1 c2 c3 p0 p1 p2 p3). Qed.

(** ** The byte-split clock *)

(** X19.  [Crypto1LFSR] in the packed layout: on registers that hold
    bytes, the new even half is the old odd half, and the new odd half
    is the old even half shifted left by one, cut to 24 bits, with the
    feedback bit in bit 0; the feedback is the parity of the taps under
    [LF_POLY_EVEN] and [LF_POLY_ODD] xored with the lowest bit of the
    input.  The registers hold bytes again afterwards. *)
Theorem Crypto1LFSR_in_packed_layout (E0 E1 E2 O0 O1 O2 In : Z) :
  is_byte E0 -> is_byte E1 -> is_byte E2 -> is_byte O0 -> is_byte O1 -> is_byte O2 ->
  let st := {| Even := (E0, E1, E2); Odd := (O0, O1, O2) |} in
  let fb := evenparity32 ((LF_POLY_EVEN .& packed (Even st))
                          .^ (LF_POLY_ODD .& packed (Odd st))) in
  packed (Even (Crypto1LFSR st In)) = packed (Odd st)
  /\ packed (Odd (Crypto1LFSR st In))
     = ((packed (Even st) .<< 1) .| (fb .^ (In .& 1))) mod 2 ^ 24
  /\ bytes3_ok (Even (Crypto1LFSR st In)) /\ bytes3_ok (Odd (Crypto1LFSR st In)).
Proof. exact (Crypto1LFSR_packed E0 E1 E2 O0 O1 O2 In). Qed.

Lemma Crypto1LFSR_in_packed_layout_witness :
  let st := {| Even := (0x12, 0x34, 0x56); Odd := (0x78, 0x9A, 0xBC) |} in
  packed (Even (Crypto1LFSR st 1)) = packed (Odd st).
Proof.
  pose proof (Crypto1LFSR_in_packed_layout 0x12 0x34 0x56 0x78 0x9A 0xBC 1
                ltac:(unfold is_byte; lia) ltac:(unfold is_byte; lia)
                ltac:(unfold is_byte; lia) ltac:(unfold is_byte; lia)
                ltac:(unfold is_byte; lia) ltac:(unfold is_byte; lia)) as H.
  cbv zeta in H. exact (proj1 H).
Defined.

(** ** Words from bytes *)

(** X20.  [crypto1_word] is four [crypto1_byte] calls on the bytes of
    the input word, the most significant byte first, each on the state
    the call before left; the byte each call returns takes the place of
    its input byte in the result. *)
Theorem crypto1_word_is_4_byte_calls (s : Crypto1State) (in_ is_encrypted : Z) :
  let r3 := crypto1_byte s (u8 (in_ .>> 24)) is_encrypted in
  let r2 := crypto1_byte (snd r3) (u8 (in_ .>> 16)) is_encrypted in
  let r1 := crypto1_byte (snd r2) (u8 (in_ .>> 8)) is_encrypted in
  let r0 := crypto1_byte (snd r1) (u8 in_) is_encrypted in
  crypto1_word s in_ is_encrypted
  = ((((fst r3 .<< 24) .| (fst r2 .<< 16)) .| (fst r1 .<< 8)) .| fst r0, snd r0).
Proof. exact (crypto1_word_bytes s in_ is_encrypted). Qed.
